(** * merge_excel: the column normaliser, mapping builder and merge engine

    A shallow embedding of [ExcelMerger] from [master_merge/main.py]:
    [analyze_column], [extract_dataframes], [create_column_mapping],
    [merge_dataframes] and [merge_excel_files], together with the part of
    pandas the class relies on (column selection and assignment on a
    frame, [concat], [drop_duplicates]).

    Conventions of the model.
    - A Python [str] is the [string] of its UTF-8 bytes.  [str.strip],
      [str.lower] and [str.isspace] follow the Unicode tables of the
      interpreter; they are the fields [u_strip], [u_lower] and [u_isspace]
      of [Library], which fixes them on ASCII text (module [PyStr]) and
      keeps the laws of the two functions beyond it.
    - A [dict] is an association list in insertion order whose keys are
      pairwise distinct; [Dict.set] is [d[k] = v].
    - A [DataFrame] is a list of column labels, which may repeat, and a
      list of rows; the index is the default range index, so only its
      length matters.  [df[l]] is a series when [l] labels one column and
      a frame when it labels several; storing such a frame under one key
      raises [ValueError].
    - A cell is missing, a text, a number (a rational), a boolean or a
      date.  [same] is the equality [drop_duplicates] uses: missing equals
      missing, TRUE equals 1 and FALSE equals 0, numbers are compared by
      value.
    - [pd.concat] brings the pieces of one column to a common dtype; the
      values that come out are given by the field [unify] of [Library],
      which leaves a column without numbers and booleans, and a column
      stacked on copies of itself, as they are.
    - A raised exception is the [Raise] case of [result].
    - [datetime.now()] reads a clock [nat -> Z]: the n-th reading of a run.
    - The iteration order of a Python [set] is a parameter ([SetOrder]). *)

From Stdlib Require Import List String Ascii Bool Arith ZArith QArith Lia Permutation.
Import ListNotations.
Close Scope Q_scope.
Open Scope string_scope.
Open Scope list_scope.

(** ** Python strings on ASCII text *)

Module PyStr.

(** [str.isspace] on one ASCII character. *)
Definition is_space (c : ascii) : bool :=
  let n := nat_of_ascii c in
  (((9 <=? n) && (n <=? 13)) || ((28 <=? n) && (n <=? 32)))%nat.

Definition lower_char (c : ascii) : ascii :=
  let n := nat_of_ascii c in
  if ((65 <=? n) && (n <=? 90))%nat then ascii_of_nat (n + 32) else c.

(** [s.lower()] when [s] is ASCII text: A to Z become a to z. *)
Fixpoint lower (s : string) : string :=
  match s with
  | EmptyString => EmptyString
  | String c s' => String (lower_char c) (lower s')
  end.

Fixpoint lstrip (s : string) : string :=
  match s with
  | EmptyString => EmptyString
  | String c s' => if is_space c then lstrip s' else s
  end.

Fixpoint rstrip (s : string) : string :=
  match s with
  | EmptyString => EmptyString
  | String c s' =>
      match rstrip s' with
      | EmptyString => if is_space c then EmptyString else String c EmptyString
      | r => String c r
      end
  end.

(** [s.strip()] when [s] is ASCII text. *)
Definition strip (s : string) : string := rstrip (lstrip s).

(** [k in s] for two strings. *)
Fixpoint contains (k s : string) : bool :=
  String.prefix k s ||
  match s with
  | EmptyString => false
  | String _ s' => contains k s'
  end.

(** Every character of [s] is ASCII white space ([s] may be empty). *)
Fixpoint all_space (s : string) : bool :=
  match s with
  | EmptyString => true
  | String c s' => is_space c && all_space s'
  end.

(** The specification of [contains]: [k] occurs somewhere in [s]. *)
Definition occurs_in (k s : string) : Prop :=
  exists pre post, s = (pre ++ k ++ post)%string.

(** Every byte of [s] is below 128: [s] is ASCII text. *)
Fixpoint is_ascii (s : string) : bool :=
  match s with
  | EmptyString => true
  | String c s' => (nat_of_ascii c <? 128)%nat && is_ascii s'
  end.

(** [s.isspace()] when [s] is ASCII text: at least one character, and
    white space only. *)
Definition isspace (s : string) : bool :=
  match s with
  | EmptyString => false
  | String _ _ => all_space s
  end.

End PyStr.

(** ** Facts about the ASCII functions *)

Module PyStrFacts.
Import PyStr.

Lemma prefix_spec (k s : string) :
  String.prefix k s = true <-> exists post, s = (k ++ post)%string.
Proof.
  revert s; induction k as [|a k IH]; intros s; simpl.
  - split; [intros _; exists s; reflexivity | destruct s; reflexivity].
  - destruct s as [|b s]; simpl.
    + split; [discriminate | intros [post H]; discriminate].
    + destruct (ascii_dec a b) as [->|Hab].
      * rewrite IH. split; intros [post H]; exists post.
        -- now rewrite H.
        -- now inversion H.
      * split; [discriminate | intros [post H]; inversion H; congruence].
Qed.

Lemma contains_unfold (k s : string) :
  contains k s =
  String.prefix k s ||
  match s with EmptyString => false | String _ s' => contains k s' end.
Proof. destruct s; reflexivity. Qed.

Lemma contains_spec (k s : string) : contains k s = true <-> occurs_in k s.
Proof.
  unfold occurs_in; split.
  - induction s as [|c s IH]; rewrite contains_unfold; intros H;
      apply orb_true_iff in H as [H|H]; try discriminate.
    + apply prefix_spec in H as [post H]. now exists EmptyString, post.
    + apply prefix_spec in H as [post H]. now exists EmptyString, post.
    + destruct (IH H) as (pre & post & E).
      exists (String c pre), post. simpl. now rewrite E.
  - intros (pre & post & E); subst s.
    induction pre as [|c pre IH]; rewrite contains_unfold; apply orb_true_iff.
    + left. apply prefix_spec. now exists post.
    + right. exact IH.
Qed.

Lemma append_assoc3 (a b c : string) :
  ((a ++ b) ++ c = a ++ (b ++ c))%string.
Proof. induction a as [|x a IH]; simpl; [reflexivity | now rewrite IH]. Qed.

Lemma occurs_in_trans (a b c : string) :
  occurs_in a b -> occurs_in b c -> occurs_in a c.
Proof.
  intros (p1 & q1 & E1) (p2 & q2 & E2); subst.
  exists (p2 ++ p1)%string, (q1 ++ q2)%string.
  now rewrite !append_assoc3.
Qed.

Lemma contains_trans (a b c : string) :
  contains a b = true -> contains b c = true -> contains a c = true.
Proof. rewrite !contains_spec. apply occurs_in_trans. Qed.

Lemma lower_char_idem (c : ascii) : lower_char (lower_char c) = lower_char c.
Proof. destruct c as [[] [] [] [] [] [] [] []]; reflexivity. Qed.

Lemma is_space_lower_char (c : ascii) : is_space (lower_char c) = is_space c.
Proof. destruct c as [[] [] [] [] [] [] [] []]; reflexivity. Qed.

Lemma lower_idem (s : string) : lower (lower s) = lower s.
Proof.
  induction s as [|c s IH]; simpl; [reflexivity|].
  now rewrite lower_char_idem, IH.
Qed.

Lemma lstrip_lower (s : string) : lstrip (lower s) = lower (lstrip s).
Proof.
  induction s as [|c s IH]; simpl; [reflexivity|].
  rewrite is_space_lower_char. destruct (is_space c); [exact IH | reflexivity].
Qed.

Lemma rstrip_lower (s : string) : rstrip (lower s) = lower (rstrip s).
Proof.
  induction s as [|c s IH]; simpl; [reflexivity|].
  rewrite IH, is_space_lower_char.
  destruct (rstrip s); simpl; [destruct (is_space c)|]; reflexivity.
Qed.

Lemma strip_lower (s : string) : strip (lower s) = lower (strip s).
Proof. unfold strip. now rewrite lstrip_lower, rstrip_lower. Qed.

(** A string that does not begin with white space. *)
Definition tight_left (s : string) : bool :=
  match s with
  | EmptyString => true
  | String c _ => negb (is_space c)
  end.

Lemma lstrip_tight (s : string) : tight_left (lstrip s) = true.
Proof.
  induction s as [|c s IH]; simpl; [reflexivity|].
  destruct (is_space c) eqn:E; [exact IH | simpl; now rewrite E].
Qed.

Lemma lstrip_id (s : string) : tight_left s = true -> lstrip s = s.
Proof.
  destruct s as [|c s]; simpl; [reflexivity|].
  now destruct (is_space c).
Qed.

Lemma rstrip_tight (s : string) :
  tight_left s = true -> tight_left (rstrip s) = true.
Proof.
  destruct s as [|c s]; simpl; [reflexivity|].
  intros H. destruct (rstrip s); simpl; [|exact H].
  destruct (is_space c) eqn:E; [discriminate | simpl; now rewrite E].
Qed.

Lemma rstrip_idem (s : string) : rstrip (rstrip s) = rstrip s.
Proof.
  induction s as [|c s IH]; simpl; [reflexivity|].
  destruct (rstrip s) as [|d r] eqn:E.
  - destruct (is_space c) eqn:Ec; simpl; [reflexivity | now rewrite Ec].
  - change (rstrip (String c (String d r))) with
      (match rstrip (String d r) with
       | EmptyString => if is_space c then EmptyString else String c EmptyString
       | r' => String c r'
       end).
    now rewrite IH.
Qed.

Lemma strip_idem (s : string) : strip (strip s) = strip s.
Proof.
  unfold strip.
  rewrite (lstrip_id (rstrip (lstrip s))).
  - apply rstrip_idem.
  - apply rstrip_tight, lstrip_tight.
Qed.

Lemma lstrip_all_space (p : string) : all_space p = true -> lstrip p = EmptyString.
Proof.
  induction p as [|c p IH]; simpl; [reflexivity|].
  intros H; apply andb_true_iff in H as [Hc Hp]. now rewrite Hc, IH.
Qed.

Lemma rstrip_all_space (p : string) : all_space p = true -> rstrip p = EmptyString.
Proof.
  induction p as [|c p IH]; simpl; [reflexivity|].
  intros H; apply andb_true_iff in H as [Hc Hp]. now rewrite IH, Hc.
Qed.

Lemma strip_all_space (p : string) : all_space p = true -> strip p = EmptyString.
Proof. intros H. unfold strip. now rewrite lstrip_all_space. Qed.

Lemma lstrip_app_space (p s : string) :
  all_space p = true -> lstrip (p ++ s) = lstrip s.
Proof.
  induction p as [|c p IH]; simpl; [reflexivity|].
  intros H; apply andb_true_iff in H as [Hc Hp]. now rewrite Hc, IH.
Qed.

Lemma rstrip_app_space (s p : string) :
  all_space p = true -> rstrip (s ++ p) = rstrip s.
Proof.
  intros Hp. induction s as [|c s IH]; simpl.
  - now apply rstrip_all_space.
  - now rewrite IH.
Qed.

Lemma strip_app_space_r (s p : string) :
  all_space p = true -> strip (s ++ p) = strip s.
Proof.
  intros Hp. unfold strip. induction s as [|c s IH]; simpl.
  - now rewrite lstrip_all_space.
  - destruct (is_space c); [exact IH|].
    apply (rstrip_app_space (String c s) p Hp).
Qed.

Lemma strip_padded (p s q : string) :
  all_space p = true -> all_space q = true -> strip (p ++ s ++ q) = strip s.
Proof.
  intros Hp Hq. unfold strip. rewrite lstrip_app_space by exact Hp.
  apply (strip_app_space_r s q Hq).
Qed.

Lemma is_space_code (c : ascii) :
  is_space c = true -> (nat_of_ascii c <? 128)%nat = true.
Proof.
  destruct c as [[] [] [] [] [] [] [] []]; vm_compute; intros H;
    first [reflexivity | discriminate H].
Qed.

Lemma all_space_is_ascii (s : string) : all_space s = true -> is_ascii s = true.
Proof.
  induction s as [|c s IH]; simpl; [reflexivity|].
  intros H; apply andb_true_iff in H as [Hc Hs].
  now rewrite (is_space_code c Hc), IH.
Qed.

Lemma is_ascii_lstrip (s : string) : is_ascii s = true -> is_ascii (lstrip s) = true.
Proof.
  induction s as [|c s IH]; simpl; [reflexivity|].
  intros H. destruct (is_space c); [|exact H].
  apply andb_true_iff in H as [_ H]. now apply IH.
Qed.

Lemma is_ascii_rstrip (s : string) : is_ascii s = true -> is_ascii (rstrip s) = true.
Proof.
  induction s as [|c s IH]; simpl; [reflexivity|].
  intros H; apply andb_true_iff in H as [Hc Hs]. specialize (IH Hs).
  destruct (rstrip s) as [|d r].
  - destruct (is_space c); simpl; [reflexivity | now rewrite Hc].
  - change (is_ascii (String c (String d r)))
      with ((nat_of_ascii c <? 128)%nat && is_ascii (String d r)).
    now rewrite Hc, IH.
Qed.

Lemma is_ascii_strip (s : string) : is_ascii s = true -> is_ascii (strip s) = true.
Proof. intros H. now apply is_ascii_rstrip, is_ascii_lstrip. Qed.

Lemma lstrip_empty (s : string) : lstrip s = EmptyString -> all_space s = true.
Proof.
  induction s as [|c s IH]; simpl; [reflexivity|].
  destruct (is_space c); [exact IH | discriminate].
Qed.

Lemma rstrip_empty (s : string) : rstrip s = EmptyString -> all_space s = true.
Proof.
  induction s as [|c s IH]; simpl; [reflexivity|].
  destruct (rstrip s) as [|d r]; [|discriminate].
  destruct (is_space c); [intros _; now apply IH | discriminate].
Qed.

Lemma strip_empty_iff (s : string) :
  strip s = EmptyString <-> all_space s = true.
Proof.
  split; [|apply strip_all_space].
  unfold strip. intros H. apply rstrip_empty in H.
  apply lstrip_empty. pose proof (lstrip_tight s) as Ht.
  destruct (lstrip s) as [|c t]; [reflexivity|].
  simpl in H, Ht. apply andb_true_iff in H as [Hc _].
  rewrite Hc in Ht. discriminate.
Qed.

Lemma strip_blank (s : string) :
  strip s = EmptyString <-> s = EmptyString \/ isspace s = true.
Proof.
  rewrite strip_empty_iff. destruct s as [|c s].
  - split; [now left | reflexivity].
  - unfold isspace. split; [now right | intros [H|H]; [discriminate | exact H]].
Qed.

(** What [strip] removes: white space before and after, and all of it. *)
Lemma lstrip_decompose (s : string) :
  exists p, s = (p ++ lstrip s)%string /\ all_space p = true.
Proof.
  induction s as [|c s (p & E & Hp)]; simpl.
  - now exists EmptyString.
  - destruct (is_space c) eqn:Ec.
    + exists (String c p). simpl. rewrite Ec, Hp. split; [now rewrite <- E | reflexivity].
    + now exists EmptyString.
Qed.

Lemma rstrip_decompose (s : string) :
  exists q, s = (rstrip s ++ q)%string /\ all_space q = true.
Proof.
  induction s as [|c s (q & E & Hq)]; simpl.
  - now exists EmptyString.
  - destruct (rstrip s) as [|d r] eqn:Er.
    + simpl in E. subst q. destruct (is_space c) eqn:Ec.
      * exists (String c s). simpl. now rewrite Ec, Hq.
      * exists s. now split.
    + exists q. split; [|exact Hq]. simpl. simpl in E. now rewrite <- E.
Qed.

Lemma strip_decompose (s : string) :
  exists p q, s = (p ++ strip s ++ q)%string /\
              all_space p = true /\ all_space q = true.
Proof.
  destruct (lstrip_decompose s) as (p & Ep & Hp).
  destruct (rstrip_decompose (lstrip s)) as (q & Eq & Hq).
  exists p, q. unfold strip. now rewrite <- Eq, <- Ep.
Qed.

Lemma strip_tight_left (s : string) : tight_left (strip s) = true.
Proof. apply rstrip_tight, lstrip_tight. Qed.

Lemma rstrip_last (s t : string) (c : ascii) :
  rstrip s = (t ++ String c EmptyString)%string -> is_space c = false.
Proof.
  revert t; induction s as [|a s IH]; intros t; simpl.
  - destruct t; discriminate.
  - destruct (rstrip s) as [|d r] eqn:Er.
    + destruct (is_space a) eqn:Ea.
      * destruct t; discriminate.
      * destruct t as [|b t]; simpl; intros H; inversion H; subst; [exact Ea|].
        destruct t; discriminate.
    + destruct t as [|b t]; simpl; intros H; inversion H; subst.
      apply (IH t). assumption.
Qed.

Lemma strip_last (s t : string) (c : ascii) :
  strip s = (t ++ String c EmptyString)%string -> is_space c = false.
Proof. apply rstrip_last. Qed.

(** What [lower] does: character by character, A to Z become a to z. *)
Lemma lower_get (s : string) (i : nat) :
  String.get i (lower s) = option_map lower_char (String.get i s).
Proof.
  revert i; induction s as [|c s IH]; intros [|i]; simpl; auto.
Qed.

Lemma lower_char_upper (c : ascii) :
  65 <= nat_of_ascii c <= 90 ->
  nat_of_ascii (lower_char c) = nat_of_ascii c + 32.
Proof.
  intros [H1 H2]. unfold lower_char.
  apply Nat.leb_le in H1 as E1. apply Nat.leb_le in H2 as E2.
  rewrite E1, E2. simpl. apply nat_ascii_embedding. lia.
Qed.

Lemma lower_char_other (c : ascii) :
  ~ (65 <= nat_of_ascii c <= 90) -> lower_char c = c.
Proof.
  intros H. unfold lower_char.
  destruct (65 <=? nat_of_ascii c)%nat eqn:E1;
    destruct (nat_of_ascii c <=? 90)%nat eqn:E2; simpl; try reflexivity.
  exfalso. apply H. apply Nat.leb_le in E1, E2. lia.
Qed.

End PyStrFacts.

Set Implicit Arguments.

(** ** The replacements table *)

(** A column header as [analyze_column] may receive it: a value for which
    [pd.isna] holds, or a value whose [str()] is [s]. *)
Inductive header : Type :=
| HNull
| HStr (s : string).

(** The [replacements] dict literal, in source order. *)
Definition replacements : list (string * string) :=
  [ ("truck", "truck");
    ("vehicle", "truck");
    ("unit", "truck");
    ("truck_no", "truck_number");
    ("truck_nbr", "truck_number");
    ("truck_num", "truck_number");
    ("truck#", "truck_number");
    ("trk", "truck");
    ("loc", "location");
    ("gps", "location");
    ("position", "location");
    ("coord", "location");
    ("lat", "latitude");
    ("lon", "longitude");
    ("long", "longitude");
    ("status", "status");
    ("state", "status");
    ("condition", "status");
    ("date", "date");
    ("time", "time");
    ("timestamp", "datetime");
    ("driver", "driver");
    ("operator", "driver");
    ("load", "load");
    ("cargo", "load");
    ("weight", "weight");
    ("destination", "destination");
    ("dest", "destination");
    ("origin", "origin");
    ("src", "origin");
    ("speed", "speed");
    ("velocity", "speed");
    ("fuel", "fuel");
    ("mileage", "mileage");
    ("odometer", "mileage");
    ("temp", "temperature");
    ("temperature", "temperature") ].

(** The loop [for key, value in replacements.items(): if key in col_str:
    return value]; [None] when the loop falls through. *)
Fixpoint first_match (table : list (string * string)) (col_str : string)
  : option string :=
  match table with
  | [] => None
  | (key, value) :: rest =>
      if PyStr.contains key col_str then Some value
      else first_match rest col_str
  end.

(** ** Exceptions *)

Inductive exn : Type :=
| KeyError (key : string)
| ValueError (msg : string).

Inductive result (A : Type) : Type :=
| Ok (a : A)
| Raise (e : exn).

Arguments Ok {A} a.
Arguments Raise {A} e.

Definition bind {A B : Type} (r : result A) (k : A -> result B) : result B :=
  match r with
  | Ok a => k a
  | Raise e => Raise e
  end.

Notation "x <- c ;; k" := (bind c (fun x => k))
  (at level 61, c at next level, right associativity).

(** ** dict, in insertion order *)

Module Dict.
Section Ops.
Variable V : Type.

Definition t : Type := list (string * V).

Fixpoint get (d : t) (k : string) : option V :=
  match d with
  | [] => None
  | (k', v) :: d' => if String.eqb k' k then Some v else get d' k
  end.

(** [d[k] = v]: an existing key keeps its place, a new one goes last. *)
Fixpoint set (d : t) (k : string) (v : V) : t :=
  match d with
  | [] => [(k, v)]
  | (k', v') :: d' =>
      if String.eqb k' k then (k', v) :: d' else (k', v') :: set d' k v
  end.

Definition keys (d : t) : list string := map fst d.

Definition wf (d : t) : Prop := NoDup (keys d).
End Ops.
End Dict.

(** ** Cells *)

Inductive cell : Type :=
| NaN
| CStr (s : string)
| CNum (q : Q)
| CBool (b : bool)
| CTime (t : Z).

(** The number a cell counts as in a comparison: [True == 1] and
    [False == 0] in Python. *)
Definition as_number (c : cell) : option Q :=
  match c with
  | CNum q => Some q
  | CBool true => Some 1%Q
  | CBool false => Some 0%Q
  | _ => None
  end.

(** The equality of [duplicated]: two missing values are equal, texts and
    dates are equal to themselves only, numbers and booleans are compared
    by value. *)
Definition same (a b : cell) : bool :=
  match a, b with
  | NaN, NaN => true
  | CStr s, CStr t => String.eqb s t
  | CTime s, CTime t => Z.eqb s t
  | _, _ =>
      match as_number a, as_number b with
      | Some x, Some y => Qeq_bool x y
      | _, _ => false
      end
  end.

(** A cell that is neither a number nor a boolean. *)
Definition is_plain (c : cell) : bool :=
  match c with
  | CNum _ | CBool _ => false
  | _ => true
  end.

(** ** What the model takes from Python and pandas *)

Class Library : Type := mkLibrary {
  (* str.strip(), str.lower() and str.isspace() *)
  u_strip : string -> string;
  u_lower : string -> string;
  u_isspace : string -> bool;
  (* The column pd.concat builds from the pieces of one column, one piece
     per frame: the pieces in order, brought to a common dtype. *)
  unify : list (list cell) -> list cell;
  u_strip_ascii :
    forall s, PyStr.is_ascii s = true -> u_strip s = PyStr.strip s;
  u_lower_ascii :
    forall s, PyStr.is_ascii s = true -> u_lower s = PyStr.lower s;
  u_strip_blank :
    forall s, u_strip s = "" <-> s = "" \/ u_isspace s = true;
  u_strip_idem : forall s, u_strip (u_strip s) = u_strip s;
  u_lower_idem : forall s, u_lower (u_lower s) = u_lower s;
  u_strip_lower : forall s, u_strip (u_lower s) = u_lower (u_strip s);
  u_strip_padded :
    forall p s q,
      PyStr.all_space p = true -> PyStr.all_space q = true ->
      u_strip (p ++ s ++ q)%string = u_strip s;
  unify_length :
    forall pieces, List.length (unify pieces) = List.length (List.concat pieces);
  unify_plain :
    forall pieces,
      forallb (forallb is_plain) pieces = true ->
      unify pieces = List.concat pieces;
  unify_same :
    forall piece n, unify (repeat piece n) = List.concat (repeat piece n)
}.

(** The library on ASCII text and on columns that need no conversion. *)
#[global] Instance plain_library : Library :=
  {| u_strip := PyStr.strip;
     u_lower := PyStr.lower;
     u_isspace := PyStr.isspace;
     unify := @List.concat cell;
     u_strip_ascii := fun s _ => eq_refl;
     u_lower_ascii := fun s _ => eq_refl;
     u_strip_blank := PyStrFacts.strip_blank;
     u_strip_idem := PyStrFacts.strip_idem;
     u_lower_idem := PyStrFacts.lower_idem;
     u_strip_lower := PyStrFacts.strip_lower;
     u_strip_padded := PyStrFacts.strip_padded;
     unify_length := fun _ => eq_refl;
     unify_plain := fun _ _ => eq_refl;
     unify_same := fun _ _ => eq_refl |}.

Section Model.
Context `{L : Library}.

(** ** analyze_column *)

Definition analyze_column (column_name : header) : string :=
  match column_name with
  | HNull => ""
  | HStr s =>
      let col_str := u_lower (u_strip s) in
      match first_match replacements col_str with
      | Some value => value
      | None => col_str
      end
  end.

(** ** Frames *)

Definition row : Type := list cell.

(** Two rows of values equal cell by cell. *)
Fixpoint row_same (r1 r2 : row) : bool :=
  match r1, r2 with
  | [], [] => true
  | a :: r1', b :: r2' => same a b && row_same r1' r2'
  | _, _ => false
  end.

Record DataFrame : Type := mkFrame {
  labels : list string;      (* df.columns *)
  rows : list row            (* one list of cells per index entry *)
}.

(** [pd.DataFrame()] *)
Definition empty_frame : DataFrame := mkFrame [] [].

(** [len(df)] *)
Definition index_len (f : DataFrame) : nat := List.length (rows f).

(** [df.empty]: one of the two axes has length 0. *)
Definition is_empty (f : DataFrame) : bool :=
  (List.length (labels f) =? 0)%nat || (index_len f =? 0)%nat.

Fixpoint index_of (l : string) (ls : list string) : option nat :=
  match ls with
  | [] => None
  | x :: ls' =>
      if String.eqb x l then Some 0
      else match index_of l ls' with
           | Some i => Some (S i)
           | None => None
           end
  end.

(** [l in df.columns] *)
Definition label_in (l : string) (f : DataFrame) : bool :=
  existsb (String.eqb l) (labels f).

(** The cell of row [r] of frame [f] under label [l]. *)
Definition cell_at (f : DataFrame) (r : row) (l : string) : cell :=
  match index_of l (labels f) with
  | Some i => nth i r NaN
  | None => NaN
  end.

(** The positions of the columns labelled [l], counted from [i]. *)
Fixpoint positions (l : string) (ls : list string) (i : nat) : list nat :=
  match ls with
  | [] => []
  | x :: ls' =>
      if String.eqb x l then i :: positions l ls' (S i)
      else positions l ls' (S i)
  end.

(** The values of the column at position [i]. *)
Definition column_at (f : DataFrame) (i : nat) : list cell :=
  map (fun r => nth i r NaN) (rows f).

(** What [df[l]] evaluates to. *)
Inductive selection : Type :=
| Series (values : list cell)
| Frame (columns : list (list cell)).

(** [df[l]]: [KeyError] when no column has the label, the series of the
    column when one has, the frame of the columns when several have. *)
Definition getitem (f : DataFrame) (l : string) : result selection :=
  match positions l (labels f) 0 with
  | [] => Raise (KeyError l)
  | [i] => Ok (Series (column_at f i))
  | several => Ok (Frame (map (column_at f) several))
  end.

Fixpoint replace_nth (i : nat) (v : cell) (r : row) : row :=
  match r, i with
  | [], _ => []
  | _ :: r', O => v :: r'
  | x :: r', S i' => x :: replace_nth i' v r'
  end.

(** Store [vals], one per row, under [key]: in place when the label
    exists, as a new last column otherwise. *)
Definition put_column (f : DataFrame) (key : string) (vals : list cell)
  : DataFrame :=
  match index_of key (labels f) with
  | Some i =>
      mkFrame (labels f)
              (map (fun rv => replace_nth i (snd rv) (fst rv))
                   (combine (rows f) vals))
  | None =>
      mkFrame (labels f ++ [key])
              (map (fun rv => fst rv ++ [snd rv]) (combine (rows f) vals))
  end.

(** A range-indexed series aligned to a range index of length [n]. *)
Definition fit (vals : list cell) (n : nat) : list cell :=
  firstn n vals ++ repeat NaN (n - List.length vals).

(** [_ensure_valid_index]: a frame whose index is empty takes the index
    of the first non-empty series stored in it; the columns it already has
    are filled with NaN. *)
Definition ensure_valid_index (f : DataFrame) (vals : list cell)
  : DataFrame :=
  if (index_len f =? 0)%nat && (0 <? List.length vals)%nat
  then mkFrame (labels f) (repeat (repeat NaN (List.length (labels f))) (List.length vals))
  else f.

(** [f[key] = series] *)
Definition setitem_series (f : DataFrame) (key : string) (vals : list cell)
  : DataFrame :=
  let f' := ensure_valid_index f vals in
  put_column f' key (fit vals (index_len f')).

(** [f[key] = value] for what [df[l]] returned: a frame can be stored
    under one key only when it has exactly one column. *)
Definition setitem (f : DataFrame) (key : string) (value : selection)
  : result DataFrame :=
  match value with
  | Series vals => Ok (setitem_series f key vals)
  | Frame [vals] => Ok (setitem_series f key vals)
  | Frame _ =>
      Raise (ValueError
               ("Cannot set a DataFrame with multiple columns to the single column "
                ++ key)%string)
  end.

(** [f[key] = scalar]: the scalar is broadcast along the index as it is. *)
Definition setitem_scalar (f : DataFrame) (key : string) (v : cell)
  : DataFrame :=
  put_column f key (repeat v (index_len f)).

(** Keep the elements whose key was not seen before, in order. *)
Fixpoint keep_first_by {A K : Type} (K_eqb : K -> K -> bool) (key : A -> K)
    (seen : list K) (l : list A) : list A :=
  match l with
  | [] => []
  | x :: l' =>
      if existsb (K_eqb (key x)) seen
      then keep_first_by K_eqb key seen l'
      else x :: keep_first_by K_eqb key (key x :: seen) l'
  end.

(** The values of [f] under label [l], one per row; all missing when [f]
    has no such column. *)
Definition column (f : DataFrame) (l : string) : list cell :=
  map (fun r => cell_at f r l) (rows f).

(** [pd.concat(frames, ignore_index=True)] for frames whose labels are
    pairwise distinct, as the projected frames are: the labels are the
    union in order of first appearance; under each label the pieces of the
    frames are stacked in order and unified, a frame without the label
    giving missing values. *)
Definition concat (frames : list DataFrame) : DataFrame :=
  let ls := keep_first_by String.eqb (fun l => l) [] (flat_map labels frames) in
  let stacked := map (fun l => unify (map (fun f => column f l) frames)) ls in
  mkFrame ls
          (map (fun i => map (fun col => nth i col NaN) stacked)
               (seq 0 (list_sum (map index_len frames)))).

(** The values of a row on the labels of [subset]. *)
Definition row_key (f : DataFrame) (subset : list string) (r : row) : row :=
  map (cell_at f r) subset.

(** [df.drop_duplicates(subset=subset, keep='first')] *)
Definition drop_duplicates (f : DataFrame) (subset : list string)
  : DataFrame :=
  mkFrame (labels f) (keep_first_by row_same (row_key f subset) [] (rows f)).

Definition provenance_columns : list string :=
  ["source_file"; "source_sheet"; "merge_timestamp"].

Definition is_provenance (c : string) : bool :=
  existsb (String.eqb c) provenance_columns.

(** [[col for col in master_df.columns if col not in [...]]] *)
Definition data_columns (f : DataFrame) : list string :=
  filter (fun c => negb (is_provenance c)) (labels f).

(** ** Loading: extract_dataframes *)

(** [Path(p).name] for a POSIX path: the last component, where empty
    components and [.] do not count. *)
Fixpoint path_components (p : string) : list string :=
  match p with
  | EmptyString => [EmptyString]
  | String c p' =>
      let parts := path_components p' in
      if Ascii.eqb c "/"%char then EmptyString :: parts
      else match parts with
           | part :: others => String c part :: others
           | [] => [String c EmptyString]
           end
  end.

Definition path_name (p : string) : string :=
  last (filter (fun c => negb (String.eqb c "") && negb (String.eqb c "."))
               (path_components p))
       "".

(** [str(col)] of a header as the reader returns it. *)
Definition py_str (h : header) : string :=
  match h with
  | HNull => "nan"
  | HStr s => s
  end.

(** What [pd.read_excel] returns for one sheet. *)
Record RawSheet : Type := mkRawSheet {
  raw_labels : list header;
  raw_rows : list row
}.

Record Sheet : Type := mkSheet {
  sh_name : string;
  read_excel : result RawSheet
}.

(** One path of [excel_files] with what [pd.ExcelFile] gives for it. *)
Record Workbook : Type := mkWorkbook {
  wb_path : string;
  wb_sheets : result (list Sheet)
}.

(** One entry of [all_data]. *)
Record DataInfo : Type := mkDataInfo {
  file_path : string;
  sheet_name : string;
  original_columns : list string;
  standardized_columns : Dict.t string;
  dataframe : DataFrame;
  row_count : nat
}.

(** The loop that fills [standardized_cols]; an empty [std_col] is falsy. *)
Definition standardize (columns : list string) : Dict.t string :=
  fold_left
    (fun d col =>
       let std_col := analyze_column (HStr col) in
       if String.eqb std_col "" then d else Dict.set d col std_col)
    columns [].

(** The body of the inner [try]: nothing for a sheet that cannot be read
    or that is empty, one [DataInfo] otherwise. *)
Definition extract_sheet (path : string) (sh : Sheet) : list DataInfo :=
  match read_excel sh with
  | Raise _ => []
  | Ok raw =>
      if (List.length (raw_labels raw) =? 0)%nat
         || (List.length (raw_rows raw) =? 0)%nat
      then []
      else
        let columns := map (fun h => u_strip (py_str h)) (raw_labels raw) in
        let df := mkFrame columns (raw_rows raw) in
        [ mkDataInfo path (sh_name sh) columns (standardize columns) df
                     (index_len df) ]
  end.

Definition extract_dataframes (excel_files : list Workbook) : list DataInfo :=
  flat_map
    (fun wb =>
       match wb_sheets wb with
       | Raise _ => []
       | Ok sheets => flat_map (extract_sheet (wb_path wb)) sheets
       end)
    excel_files.

(** ** create_column_mapping *)

(** The iteration order of a Python [set] of strings is not fixed by the
    language: any enumeration of the distinct elements may come out. *)
Record SetOrder : Type := mkSetOrder {
  set_iter : list string -> list string;
  set_iter_nodup : forall l, NoDup (set_iter l);
  set_iter_elems : forall l x, In x (set_iter l) <-> In x l
}.

(** [max(xs, key=key)]: the first element whose key is not exceeded. *)
Definition py_max_by (key : string -> nat) (xs : list string) : result string :=
  match xs with
  | [] => Raise (ValueError "max() arg is an empty sequence")
  | x :: rest =>
      Ok (fold_left (fun best y => if (key best <? key y)%nat then y else best)
                    rest x)
  end.

Definition occurrence : Type := (string * string * string)%type.

(** [all_std_columns[std_col].append(occ)] on a [defaultdict(list)]. *)
Definition dict_append (d : Dict.t (list occurrence)) (k : string)
    (occ : occurrence) : Dict.t (list occurrence) :=
  match Dict.get d k with
  | Some occs => Dict.set d k (occs ++ [occ])
  | None => Dict.set d k [occ]
  end.

Definition collect_std_columns (data_info_list : list DataInfo)
  : Dict.t (list occurrence) :=
  fold_left
    (fun acc data_info =>
       fold_left
         (fun acc' item =>
            dict_append acc' (snd item)
                        (file_path data_info, sheet_name data_info, fst item))
         (standardized_columns data_info) acc)
    data_info_list [].

Fixpoint choose_names (so : SetOrder)
    (groups : list (string * list occurrence))
    (column_mapping : Dict.t string) : result (Dict.t string) :=
  match groups with
  | [] => Ok column_mapping
  | (std_col, occurrences) :: rest =>
      if (0 <? List.length occurrences)%nat then
        let original_columns := map snd occurrences in
        most_common <- py_max_by (count_occ string_dec original_columns)
                                 (set_iter so original_columns) ;;
        choose_names so rest (Dict.set column_mapping std_col most_common)
      else choose_names so rest column_mapping
  end.

Definition create_column_mapping (so : SetOrder)
    (data_info_list : list DataInfo) : result (Dict.t string) :=
  choose_names so (collect_std_columns data_info_list) [].

(** ** merge_dataframes *)

(** The body of [for std_col, orig_col in column_mapping.items()]. *)
Definition project_column (df standardized_df : DataFrame)
    (std_col orig_col : string) : result DataFrame :=
  if label_in orig_col df then
    value <- getitem df orig_col ;;
    setitem standardized_df std_col value
  else
    match find (fun df_col => String.eqb (analyze_column (HStr df_col)) std_col)
               (labels df) with
    | Some df_col =>
        value <- getitem df df_col ;;
        setitem standardized_df std_col value
    | None => Ok (setitem_scalar standardized_df std_col NaN)
    end.

Fixpoint project_columns (df standardized_df : DataFrame)
    (column_mapping : Dict.t string) : result DataFrame :=
  match column_mapping with
  | [] => Ok standardized_df
  | (std_col, orig_col) :: rest =>
      standardized_df' <- project_column df standardized_df std_col orig_col ;;
      project_columns df standardized_df' rest
  end.

(** The body of [for data_info in data_info_list]; [now] is the value
    [datetime.now()] returns in this iteration. *)
Definition project (now : Z) (data_info : DataInfo)
    (column_mapping : Dict.t string) : result DataFrame :=
  standardized_df <- project_columns (dataframe data_info) empty_frame
                                     column_mapping ;;
  let f1 := setitem_scalar standardized_df "source_file"
                           (CStr (path_name (file_path data_info))) in
  let f2 := setitem_scalar f1 "source_sheet" (CStr (sheet_name data_info)) in
  Ok (setitem_scalar f2 "merge_timestamp" (CTime now)).

(** The whole loop; [tick] counts the clock readings taken so far. *)
Fixpoint project_all (clock : nat -> Z) (tick : nat)
    (data_info_list : list DataInfo) (column_mapping : Dict.t string)
  : result (list DataFrame) :=
  match data_info_list with
  | [] => Ok []
  | data_info :: rest =>
      standardized_df <- project (clock tick) data_info column_mapping ;;
      merged_data <- project_all clock (S tick) rest column_mapping ;;
      Ok (standardized_df :: merged_data)
  end.

(** [master_df] before duplicates are removed; [None] when [merged_data]
    is empty and nothing is concatenated. *)
Definition concat_projected (clock : nat -> Z) (tick : nat)
    (data_info_list : list DataInfo) (column_mapping : Dict.t string)
  : result (option DataFrame) :=
  merged_data <- project_all clock tick data_info_list column_mapping ;;
  match merged_data with
  | [] => Ok None
  | _ :: _ => Ok (Some (concat merged_data))
  end.

(** The step [if len(data_columns) > 0: drop_duplicates]. *)
Definition remove_duplicates (master_df : DataFrame) : DataFrame :=
  if (0 <? List.length (data_columns master_df))%nat
  then drop_duplicates master_df (data_columns master_df)
  else master_df.

Definition merge_dataframes (clock : nat -> Z) (tick : nat)
    (data_info_list : list DataInfo) (column_mapping : Dict.t string)
  : result DataFrame :=
  pre <- concat_projected clock tick data_info_list column_mapping ;;
  match pre with
  | Some master_df => Ok (remove_duplicates master_df)
  | None => Ok empty_frame
  end.

(** ** generate_summary_report and merge_excel_files *)

(** The counters of the summary; the per-file details are left out. *)

Record Summary : Type := mkSummary {
  total_files_processed : nat;
  total_sheets_processed : nat;
  total_rows_before_merge : nat;
  total_rows_after_merge : nat;
  unique_columns_found : nat;
  summary_timestamp : Z
}.

Definition generate_summary_report (now : Z) (master_df : DataFrame)
    (data_info_list : list DataInfo) : Summary :=
  mkSummary
    (List.length (nodup string_dec (map file_path data_info_list)))
    (List.length data_info_list)
    (list_sum (map row_count data_info_list))
    (index_len master_df)
    (if is_empty master_df then 0 else List.length (labels master_df))
    now.

(** What [merge_excel_files] hands back: [(None, None)] or the merged
    frame with its summary. *)
Inductive outcome : Type :=
| NothingToMerge
| Merged (master_df : DataFrame) (summary : Summary).

(** [merge_excel_files(excel_files=...)] from the test [if not excel_files]
    on.  [export] stands for [export_to_excel], which writes the workbook
    and may fail. *)
Definition merge_excel_files (so : SetOrder) (clock : nat -> Z)
    (export : DataFrame -> Summary -> Dict.t string -> result unit)
    (excel_files : list Workbook) : result outcome :=
  match excel_files with
  | [] => Ok NothingToMerge
  | _ :: _ =>
      let data_info_list := extract_dataframes excel_files in
      match data_info_list with
      | [] => Ok NothingToMerge
      | _ :: _ =>
          column_mappings <- create_column_mapping so data_info_list ;;
          master_df <- merge_dataframes clock 0 data_info_list column_mappings ;;
          if is_empty master_df then Ok NothingToMerge
          else
            let summary :=
              generate_summary_report (clock (List.length data_info_list))
                                      master_df data_info_list in
            _ <- export master_df summary column_mappings ;;
            Ok (Merged master_df summary)
      end
  end.

(** One admissible iteration order: the one of [nodup]. *)
Definition nodup_order : SetOrder :=
  mkSetOrder (nodup string_dec) (NoDup_nodup string_dec) (nodup_In string_dec).

(** [export_to_excel] when the disk accepts the file. *)
Definition export_ok (_ : DataFrame) (_ : Summary) (_ : Dict.t string)
  : result unit := Ok tt.

(** The test of step 2 and 3 of the projection: does frame [df] hold a
    column for the mapping entry [std_col -> orig_col]? *)
Definition has_source (df : DataFrame) (std_col orig_col : string) : bool :=
  label_in orig_col df
  || existsb (fun df_col => String.eqb (analyze_column (HStr df_col)) std_col)
             (labels df).

(** The original names that normalise to [std_col], in load order. *)
Definition occurrences_of (std_col : string) (data_info_list : list DataInfo)
  : list string :=
  flat_map
    (fun data_info =>
       map fst (filter (fun item => String.eqb (snd item) std_col)
                       (standardized_columns data_info)))
    data_info_list.

End Model.

Arguments analyze_column {L} column_name : simpl never.

Unset Implicit Arguments.

(** * Properties of the normaliser *)

Module Normalizer.
Import PyStr PyStrFacts.

Lemma first_match_at (table : list (string * string)) (c : string) :
  forall i key value,
    nth_error table i = Some (key, value) ->
    contains key c = true ->
    (forall j key' value', j < i -> nth_error table j = Some (key', value') ->
                           contains key' c = false) ->
    first_match table c = Some value.
Proof.
  induction table as [|[k v] table IH]; intros i key value Hi Hc Hbefore.
  - destruct i; discriminate.
  - destruct i as [|i]; simpl in *.
    + inversion Hi; subst. now rewrite Hc.
    + rewrite (Hbefore 0 k v) by (simpl; auto with arith).
      apply (IH i key value Hi Hc).
      intros j k' v' Hj Hn. apply (Hbefore (S j) k' v'); [lia | exact Hn].
Qed.

Lemma first_match_none (table : list (string * string)) (c : string) :
  (forall key value, In (key, value) table -> contains key c = false) ->
  first_match table c = None.
Proof.
  induction table as [|[k v] table IH]; intros H; simpl; [reflexivity|].
  rewrite (H k v) by now left.
  apply IH. intros key value Hin. apply (H key value). now right.
Qed.

Lemma first_match_some (table : list (string * string)) (c v : string) :
  first_match table c = Some v ->
  exists key, In (key, v) table /\ contains key c = true.
Proof.
  induction table as [|[k w] table IH]; simpl; [discriminate|].
  destruct (contains k c) eqn:E.
  - intros H; inversion H; subst. exists k. auto.
  - intros H. destruct (IH H) as (key & Hin & Hc). exists key. auto.
Qed.

(** No key of the table occurs in the empty string. *)
Lemma first_match_empty : first_match replacements "" = None.
Proof. reflexivity. Qed.

Section WithLibrary.
Context `{L : Library}.

Lemma u_strip_empty : u_strip "" = "".
Proof. now rewrite u_strip_ascii. Qed.

Lemma u_lower_empty : u_lower "" = "".
Proof. now rewrite u_lower_ascii. Qed.

Lemma analyze_column_empty : analyze_column (HStr "") = "".
Proof. unfold analyze_column. now rewrite u_strip_empty, u_lower_empty. Qed.

(** On ASCII text the trimmed lower-cased header is computed by [PyStr]. *)
Lemma u_lower_strip_ascii (s : string) :
  is_ascii s = true -> u_lower (u_strip s) = lower (strip s).
Proof.
  intros H. rewrite (u_strip_ascii s H).
  apply u_lower_ascii, is_ascii_strip, H.
Qed.

Lemma analyze_column_ascii (s : string) :
  is_ascii s = true ->
  analyze_column (HStr s) = analyze_column (L := plain_library) (HStr s).
Proof.
  intros H. unfold analyze_column. now rewrite (u_lower_strip_ascii s H).
Qed.

(** Whatever the scan returns is a fixed point of [analyze_column]: the
    entries whose value is not (truck_number, datetime) are shadowed by an
    earlier entry whose key they contain. *)
Lemma first_match_fixed (c v : string) :
  first_match replacements c = Some v -> analyze_column (HStr v) = v.
Proof.
  unfold replacements; simpl.
  repeat match goal with
         | |- (if contains ?k c then _ else _) = _ -> _ =>
             destruct (contains k c) eqn:?
         end;
    intros H; inversion H; subst;
    try (rewrite analyze_column_ascii by reflexivity; reflexivity); exfalso;
    match goal with
    | Hs : contains ?short ?x = false, Hl : contains ?long ?x = true |- _ =>
        assert (contains short long = true) as Hsl by reflexivity;
        pose proof (contains_trans _ _ _ Hsl Hl); congruence
    end.
Qed.

Lemma analyze_column_lower_strip (s : string) :
  analyze_column (HStr (u_lower (u_strip s))) = analyze_column (HStr s).
Proof.
  unfold analyze_column.
  now rewrite u_strip_lower, u_strip_idem, u_lower_idem.
Qed.

(** [analyze_column] applied to its own output returns that output. *)
Lemma analyze_column_idempotent (h : header) :
  analyze_column (HStr (analyze_column h)) = analyze_column h.
Proof.
  destruct h as [|s]; [apply analyze_column_empty|].
  unfold analyze_column at 2 3.
  destruct (first_match replacements (u_lower (u_strip s))) as [v|] eqn:E.
  - exact (first_match_fixed _ _ E).
  - unfold analyze_column.
    rewrite u_strip_lower, u_strip_idem, u_lower_idem, E. reflexivity.
Qed.

(** Padding a header with white space does not change its key. *)
Lemma analyze_column_padding (p s q : string) :
  all_space p = true -> all_space q = true ->
  analyze_column (HStr (p ++ s ++ q)%string) = analyze_column (HStr s).
Proof.
  intros Hp Hq. unfold analyze_column. now rewrite u_strip_padded.
Qed.

(** Two headers that differ in letter case only have the same key. *)
Lemma analyze_column_case (s1 s2 : string) :
  u_lower s1 = u_lower s2 ->
  analyze_column (HStr s1) = analyze_column (HStr s2).
Proof.
  intros H. unfold analyze_column.
  now rewrite <- !u_strip_lower, H.
Qed.

(** The keys truck_number and datetime are never returned. *)
Lemma analyze_column_unreachable (h : header) :
  analyze_column h <> "truck_number" /\ analyze_column h <> "datetime".
Proof.
  split; intros E; pose proof (analyze_column_idempotent h) as H;
    rewrite E in H; rewrite analyze_column_ascii in H by reflexivity;
    vm_compute in H; discriminate H.
Qed.

(** A header that [strip] empties has the empty key. *)
Lemma analyze_column_blank (s : string) :
  u_strip s = "" -> analyze_column (HStr s) = "".
Proof.
  intros H. unfold analyze_column. now rewrite H, u_lower_empty.
Qed.

(** White space of the ASCII range is white space for [strip]. *)
Lemma all_space_blank (s : string) : all_space s = true -> u_strip s = "".
Proof.
  intros H. rewrite (u_strip_ascii s (all_space_is_ascii s H)).
  now apply strip_all_space.
Qed.

(** C3: [analyze_column] returns the empty string for a null header;
    otherwise the value of the first entry of [replacements], in table
    order, whose key occurs in the trimmed lower-cased header; and that
    trimmed lower-cased header itself when no key occurs in it.  The
    trimmed lower-cased header is [str.lower] of [str.strip] of the header;
    on ASCII text it is the header without the white space before and
    after it, none of which is left, with every letter A to Z replaced by
    a to z, so that GPS Location between blanks gives location and
    Remarks after a blank gives remarks. *)
Theorem C3_analyze_column_first_match :
  analyze_column HNull = "" /\
  (forall s i key value,
      nth_error replacements i = Some (key, value) ->
      occurs_in key (u_lower (u_strip s)) ->
      (forall j key' value',
          j < i -> nth_error replacements j = Some (key', value') ->
          ~ occurs_in key' (u_lower (u_strip s))) ->
      analyze_column (HStr s) = value) /\
  (forall s,
      (forall key value, In (key, value) replacements ->
                         ~ occurs_in key (u_lower (u_strip s))) ->
      analyze_column (HStr s) = u_lower (u_strip s)) /\
  (forall s, is_ascii s = true -> u_lower (u_strip s) = lower (strip s)) /\
  (forall s,
      exists p q,
        s = (p ++ strip s ++ q)%string /\
        all_space p = true /\ all_space q = true /\
        (forall c t, strip s = String c t -> is_space c = false) /\
        (forall t c, strip s = (t ++ String c "")%string -> is_space c = false)) /\
  (forall s i,
      String.get i (lower s) = option_map lower_char (String.get i s)) /\
  (forall c,
      (65 <= nat_of_ascii c <= 90 ->
       nat_of_ascii (lower_char c) = nat_of_ascii c + 32) /\
      (~ (65 <= nat_of_ascii c <= 90) -> lower_char c = c)) /\
  analyze_column (HStr "  GPS Location ") = "location" /\
  analyze_column (HStr " Remarks") = "remarks".
Proof.
  split; [reflexivity|]. split; [|split; [|split; [|split; [|split; [|split]]]]].
  - intros s i key value Hi Hocc Hbefore. unfold analyze_column.
    rewrite (first_match_at replacements (u_lower (u_strip s)) i key value Hi).
    + reflexivity.
    + now apply contains_spec.
    + intros j k' v' Hj Hn.
      destruct (contains k' (u_lower (u_strip s))) eqn:E; [|reflexivity].
      exfalso. apply (Hbefore j k' v' Hj Hn). now apply contains_spec.
  - intros s Hnone. unfold analyze_column.
    rewrite first_match_none; [reflexivity|].
    intros key value Hin.
    destruct (contains key (u_lower (u_strip s))) eqn:E; [|reflexivity].
    exfalso. apply (Hnone key value Hin). now apply contains_spec.
  - exact u_lower_strip_ascii.
  - intros s. destruct (strip_decompose s) as (p & q & E & Hp & Hq).
    exists p, q. split; [exact E|]. split; [exact Hp|]. split; [exact Hq|].
    split.
    + intros c t Hs. pose proof (strip_tight_left s) as Ht.
      rewrite Hs in Ht. simpl in Ht. now destruct (is_space c).
    + intros t c. apply strip_last.
  - exact lower_get.
  - intros c. split; [apply lower_char_upper | apply lower_char_other].
  - split; rewrite analyze_column_ascii by reflexivity; reflexivity.
Qed.

(** C4: on the header Truck_No the scan stops at the entry truck, which
    comes before truck_no, and returns truck; on a header containing
    timestamp it stops at the entry time and returns time; TRK# gives
    truck.  The keys truck_number and datetime are returned for no header. *)
Theorem C4_shadowed_entries :
  analyze_column (HStr "Truck_No") = "truck" /\
  analyze_column (HStr "TRK#") = "truck" /\
  analyze_column (HStr "timestamp") = "time" /\
  analyze_column (HStr "Event Timestamp") = "time" /\
  (forall h, analyze_column h <> "truck_number" /\
             analyze_column h <> "datetime").
Proof.
  repeat split;
    try (rewrite analyze_column_ascii by reflexivity; reflexivity);
    apply analyze_column_unreachable.
Qed.

End WithLibrary.
End Normalizer.

(** * Properties of frames *)

(** Split a conjunction into its parts, and nothing else. *)
Ltac split_all :=
  repeat lazymatch goal with
         | |- _ /\ _ => split
         end.

Module FrameFacts.

(** The labels of a frame once [key] has been stored in it. *)
Definition add_label (ls : list string) (key : string) : list string :=
  match index_of key ls with
  | Some _ => ls
  | None => ls ++ [key]
  end.

(** What storing [v] under [key] does to one row of [f]. *)
Definition upd_row (f : DataFrame) (key : string) (v : cell) (r : row) : row :=
  match index_of key (labels f) with
  | Some i => replace_nth i v r
  | None => r ++ [v]
  end.

(** A well-formed frame: distinct labels, one cell per label in each row. *)
Definition wf_frame (f : DataFrame) : Prop :=
  NoDup (labels f) /\
  Forall (fun r => List.length r = List.length (labels f)) (rows f).

Lemma index_of_in (l : string) (ls : list string) :
  In l ls -> exists i, index_of l ls = Some i.
Proof.
  induction ls as [|x ls IH]; simpl; [tauto|].
  intros H. destruct (String.eqb x l) eqn:E; [now exists 0|].
  apply String.eqb_neq in E. destruct H as [H|H]; [contradiction|].
  destruct (IH H) as [i Hi]. rewrite Hi. now exists (S i).
Qed.

Lemma index_of_some (l : string) (ls : list string) (i : nat) :
  index_of l ls = Some i -> nth_error ls i = Some l.
Proof.
  revert i; induction ls as [|x ls IH]; simpl; intros i; [discriminate|].
  destruct (String.eqb x l) eqn:E.
  - apply String.eqb_eq in E. intros H; inversion H; subst. reflexivity.
  - destruct (index_of l ls) as [j|]; [|discriminate].
    intros H; inversion H; subst. simpl. now apply IH.
Qed.

Lemma index_of_lt (l : string) (ls : list string) (i : nat) :
  index_of l ls = Some i -> i < List.length ls.
Proof.
  intros H. apply index_of_some in H. apply nth_error_Some. congruence.
Qed.

Lemma index_of_some_in (l : string) (ls : list string) (i : nat) :
  index_of l ls = Some i -> In l ls.
Proof. intros H. apply index_of_some in H. eapply nth_error_In; eauto. Qed.

Lemma index_of_none (l : string) (ls : list string) :
  index_of l ls = None <-> ~ In l ls.
Proof.
  split.
  - intros H Hin. destruct (index_of_in l ls Hin) as [i Hi]. congruence.
  - intros H. destruct (index_of l ls) as [i|] eqn:E; [|reflexivity].
    exfalso. apply H. eapply index_of_some_in; eauto.
Qed.

Lemma index_of_inj (a b : string) (ls : list string) (i : nat) :
  index_of a ls = Some i -> index_of b ls = Some i -> a = b.
Proof.
  intros Ha Hb. apply index_of_some in Ha, Hb. congruence.
Qed.

Lemma index_of_app_l (l : string) (ls ls' : list string) (i : nat) :
  index_of l ls = Some i -> index_of l (ls ++ ls') = Some i.
Proof.
  revert i; induction ls as [|x ls IH]; simpl; intros i; [discriminate|].
  destruct (String.eqb x l); [auto|].
  destruct (index_of l ls) as [j|]; [|discriminate].
  intros H. now rewrite (IH j eq_refl).
Qed.

Lemma index_of_app_new (l : string) (ls : list string) :
  ~ In l ls -> index_of l (ls ++ [l]) = Some (List.length ls).
Proof.
  induction ls as [|x ls IH]; simpl; intros H.
  - now rewrite String.eqb_refl.
  - destruct (String.eqb x l) eqn:E.
    + apply String.eqb_eq in E. exfalso; auto.
    + rewrite IH by auto. reflexivity.
Qed.

Lemma index_of_app_other (l k : string) (ls : list string) :
  ~ In l ls -> l <> k -> index_of l (ls ++ [k]) = None.
Proof.
  intros Hl Hk. apply index_of_none. intros H.
  apply in_app_or in H as [H|[H|[]]]; auto.
Qed.

Lemma label_in_iff (l : string) (f : DataFrame) :
  label_in l f = true <-> In l (labels f).
Proof.
  unfold label_in. rewrite existsb_exists. split.
  - intros (x & Hx & E). apply String.eqb_eq in E. now subst.
  - intros H. exists l. split; [exact H | apply String.eqb_refl].
Qed.

Lemma in_add_label (ls : list string) (key l : string) :
  In l (add_label ls key) <-> In l ls \/ l = key.
Proof.
  unfold add_label. destruct (index_of key ls) as [i|] eqn:E.
  - apply index_of_some_in in E. split; [auto|]. intros [H|H]; subst; auto.
  - rewrite in_app_iff. simpl. split; intros [H|H]; auto.
    + destruct H as [H|[]]; auto.
Qed.

Lemma NoDup_add_label (ls : list string) (key : string) :
  NoDup ls -> NoDup (add_label ls key).
Proof.
  intros H. unfold add_label. destruct (index_of key ls) as [i|] eqn:E; [exact H|].
  apply index_of_none in E.
  apply NoDup_app; auto.
  - constructor; [intros [] | constructor].
  - intros x Hx [Hk|[]]. subst. contradiction.
Qed.

Lemma nth_replace_nth_same (i : nat) (v : cell) (r : row) :
  i < List.length r -> nth i (replace_nth i v r) NaN = v.
Proof.
  revert i; induction r as [|x r IH]; intros [|i]; simpl; intros H;
    try lia; [reflexivity | apply IH; lia].
Qed.

Lemma nth_replace_nth_other (i j : nat) (v : cell) (r : row) :
  i <> j -> nth j (replace_nth i v r) NaN = nth j r NaN.
Proof.
  revert i j; induction r as [|x r IH]; intros [|i] [|j] H; simpl;
    try reflexivity; try lia. apply IH; lia.
Qed.

Lemma length_replace_nth (i : nat) (v : cell) (r : row) :
  List.length (replace_nth i v r) = List.length r.
Proof.
  revert i; induction r as [|x r IH]; intros [|i]; simpl; auto.
Qed.

Lemma labels_put_column (f : DataFrame) (key : string) (vals : list cell) :
  labels (put_column f key vals) = add_label (labels f) key.
Proof.
  unfold put_column, add_label. now destruct (index_of key (labels f)).
Qed.

Lemma rows_put_column (f : DataFrame) (key : string) (vals : list cell) :
  rows (put_column f key vals) =
  map (fun rv => upd_row f key (snd rv) (fst rv)) (combine (rows f) vals).
Proof.
  unfold put_column, upd_row. now destruct (index_of key (labels f)).
Qed.

Lemma length_upd_row (f : DataFrame) (key : string) (v : cell) (r : row) :
  List.length r = List.length (labels f) ->
  List.length (upd_row f key v r) = List.length (add_label (labels f) key).
Proof.
  intros H. unfold upd_row, add_label.
  destruct (index_of key (labels f)).
  - now rewrite length_replace_nth.
  - rewrite !length_app. simpl. lia.
Qed.

Lemma cell_at_upd_same (f : DataFrame) (key : string) (vals : list cell)
    (v : cell) (r : row) :
  List.length r = List.length (labels f) ->
  cell_at (put_column f key vals) (upd_row f key v r) key = v.
Proof.
  intros Hr. unfold cell_at. rewrite labels_put_column.
  unfold add_label, upd_row.
  destruct (index_of key (labels f)) as [i|] eqn:E.
  - rewrite E. apply nth_replace_nth_same.
    rewrite Hr. eapply index_of_lt; eauto.
  - apply index_of_none in E. rewrite index_of_app_new by exact E.
    rewrite <- Hr. rewrite app_nth2 by lia. now rewrite Nat.sub_diag.
Qed.

Lemma cell_at_upd_other (f : DataFrame) (key l : string) (vals : list cell)
    (v : cell) (r : row) :
  l <> key ->
  List.length r = List.length (labels f) ->
  cell_at (put_column f key vals) (upd_row f key v r) l = cell_at f r l.
Proof.
  intros Hl Hr. unfold cell_at. rewrite labels_put_column.
  unfold add_label, upd_row.
  destruct (index_of key (labels f)) as [i|] eqn:E.
  - destruct (index_of l (labels f)) as [j|] eqn:El; [|reflexivity].
    apply nth_replace_nth_other. intros ->.
    apply Hl. eapply index_of_inj; eauto.
  - destruct (index_of l (labels f)) as [j|] eqn:El.
    + rewrite (index_of_app_l _ _ _ _ El).
      apply app_nth1. rewrite Hr. eapply index_of_lt; eauto.
    + apply index_of_none in El. now rewrite index_of_app_other.
Qed.

Lemma wf_put_column (f : DataFrame) (key : string) (vals : list cell) :
  wf_frame f -> wf_frame (put_column f key vals).
Proof.
  intros [Hnd Hrows]. split.
  - rewrite labels_put_column. now apply NoDup_add_label.
  - rewrite rows_put_column, labels_put_column.
    apply Forall_forall. intros r' Hin.
    apply in_map_iff in Hin as ([r v] & <- & Hin). simpl.
    apply length_upd_row.
    apply in_combine_l in Hin.
    rewrite Forall_forall in Hrows. now apply Hrows.
Qed.

Lemma wf_empty_frame : wf_frame empty_frame.
Proof. split; simpl; constructor. Qed.

Lemma labels_ensure_valid_index (f : DataFrame) (vals : list cell) :
  labels (ensure_valid_index f vals) = labels f.
Proof.
  unfold ensure_valid_index.
  now destruct ((index_len f =? 0)%nat && (0 <? List.length vals)%nat).
Qed.

Lemma wf_ensure_valid_index (f : DataFrame) (vals : list cell) :
  wf_frame f -> wf_frame (ensure_valid_index f vals).
Proof.
  intros Hwf. unfold ensure_valid_index.
  destruct ((index_len f =? 0)%nat && (0 <? List.length vals)%nat); [|exact Hwf].
  destruct Hwf as [Hnd _]. split; simpl; [exact Hnd|].
  apply Forall_forall. intros r Hr. apply repeat_spec in Hr. subst.
  apply repeat_length.
Qed.

Lemma index_len_ensure_valid_index (f : DataFrame) (vals : list cell) :
  index_len (ensure_valid_index f vals) =
  if (index_len f =? 0)%nat then List.length vals else index_len f.
Proof.
  unfold ensure_valid_index.
  destruct (index_len f =? 0)%nat eqn:E0; simpl; [|reflexivity].
  destruct (0 <? List.length vals)%nat eqn:E1; unfold index_len; simpl.
  - apply repeat_length.
  - apply Nat.eqb_eq in E0. apply Nat.ltb_ge in E1.
    unfold index_len in E0. lia.
Qed.

Lemma length_fit (vals : list cell) (n : nat) : List.length (fit vals n) = n.
Proof.
  unfold fit. rewrite length_app, length_firstn, repeat_length. lia.
Qed.

Lemma fit_exact (vals : list cell) : fit vals (List.length vals) = vals.
Proof.
  unfold fit. rewrite firstn_all, Nat.sub_diag. simpl. apply app_nil_r.
Qed.

Lemma index_len_put_column (f : DataFrame) (key : string) (vals : list cell) :
  List.length vals = index_len f -> index_len (put_column f key vals) = index_len f.
Proof.
  intros H. unfold index_len in *. rewrite rows_put_column, length_map, length_combine.
  lia.
Qed.

Lemma wf_setitem_series (f : DataFrame) (key : string) (vals : list cell) :
  wf_frame f -> wf_frame (setitem_series f key vals).
Proof. intros H. apply wf_put_column, wf_ensure_valid_index, H. Qed.

Lemma wf_setitem_scalar (f : DataFrame) (key : string) (v : cell) :
  wf_frame f -> wf_frame (setitem_scalar f key v).
Proof. intros H. now apply wf_put_column. Qed.

Lemma labels_setitem_series (f : DataFrame) (key : string) (vals : list cell) :
  labels (setitem_series f key vals) = add_label (labels f) key.
Proof.
  unfold setitem_series. now rewrite labels_put_column, labels_ensure_valid_index.
Qed.

Lemma labels_setitem_scalar (f : DataFrame) (key : string) (v : cell) :
  labels (setitem_scalar f key v) = add_label (labels f) key.
Proof. apply labels_put_column. Qed.

Lemma index_len_setitem_series (f : DataFrame) (key : string) (vals : list cell) :
  index_len (setitem_series f key vals) =
  if (index_len f =? 0)%nat then List.length vals else index_len f.
Proof.
  unfold setitem_series.
  rewrite index_len_put_column by apply length_fit.
  apply index_len_ensure_valid_index.
Qed.

Lemma index_len_setitem_scalar (f : DataFrame) (key : string) (v : cell) :
  index_len (setitem_scalar f key v) = index_len f.
Proof.
  unfold setitem_scalar. apply index_len_put_column, repeat_length.
Qed.

Lemma map_combine_repeat {A B C : Type} (g : A * B -> C) (l : list A) (v : B) :
  map g (combine l (repeat v (List.length l))) = map (fun x => g (x, v)) l.
Proof. induction l as [|x l IH]; simpl; [reflexivity | now rewrite IH]. Qed.

Lemma rows_setitem_scalar (f : DataFrame) (key : string) (v : cell) :
  rows (setitem_scalar f key v) = map (upd_row f key v) (rows f).
Proof.
  unfold setitem_scalar. rewrite rows_put_column.
  unfold index_len. now rewrite map_combine_repeat.
Qed.

End FrameFacts.

(** * Properties of the projection of one table *)

Module Projection.
Import FrameFacts.

(** Column [k] of [f] exists and holds NaN in every row. *)
Definition col_nan (f : DataFrame) (k : string) : Prop :=
  In k (labels f) /\ forall r, In r (rows f) -> cell_at f r k = NaN.

Lemma is_provenance_iff (c : string) :
  is_provenance c = true <-> In c provenance_columns.
Proof.
  unfold is_provenance. rewrite existsb_exists. split.
  - intros (x & Hx & E). apply String.eqb_eq in E. now subst.
  - intros H. exists c. split; [exact H | apply String.eqb_refl].
Qed.

Lemma positions_none (l : string) (ls : list string) (k : nat) :
  ~ In l ls -> positions l ls k = [].
Proof.
  revert k; induction ls as [|x ls IH]; intros k H; simpl; [reflexivity|].
  destruct (String.eqb x l) eqn:E.
  - apply String.eqb_eq in E. exfalso. apply H. now left.
  - apply IH. intros Hin. apply H. now right.
Qed.

Lemma positions_unique (l : string) (ls : list string) (k i : nat) :
  NoDup ls -> index_of l ls = Some i -> positions l ls k = [k + i].
Proof.
  revert k i; induction ls as [|x ls IH]; intros k i Hnd; simpl; [discriminate|].
  inversion Hnd as [|? ? Hx Hnd']; subst.
  destruct (String.eqb x l) eqn:E.
  - apply String.eqb_eq in E. subst x. intros H; inversion H; subst.
    rewrite positions_none by exact Hx. now rewrite Nat.add_0_r.
  - destruct (index_of l ls) as [j|] eqn:Ej; [|discriminate].
    intros H; inversion H; subst.
    rewrite (IH (S k) j Hnd' eq_refl). f_equal. lia.
Qed.

Lemma length_column (df : DataFrame) (l : string) :
  List.length (column df l) = index_len df.
Proof. apply length_map. Qed.

(** A label that names one column selects the series of that column. *)
Lemma getitem_unique (df : DataFrame) (l : string) :
  NoDup (labels df) -> In l (labels df) ->
  getitem df l = Ok (Series (column df l)).
Proof.
  intros Hnd Hin. destruct (index_of_in l (labels df) Hin) as [i Hi].
  unfold getitem. rewrite (positions_unique l (labels df) 0 i Hnd Hi). simpl.
  do 2 f_equal. unfold column_at, column. apply map_ext. intros r.
  unfold cell_at. now rewrite Hi.
Qed.

(** A selection that could be stored is a column of the frame it was
    taken from. *)
Lemma getitem_setitem (df sdf sdf' : DataFrame) (k l : string) (v : selection) :
  getitem df l = Ok v -> setitem sdf k v = Ok sdf' ->
  exists s, List.length s = index_len df /\ sdf' = setitem_series sdf k s.
Proof.
  unfold getitem. destruct (positions l (labels df) 0) as [|i [|j rest]];
    intros H; inversion H; subst; simpl; intros E; inversion E; subst.
  exists (column_at df i). split; [apply length_map | reflexivity].
Qed.

Lemma find_none_existsb {A : Type} (p : A -> bool) (l : list A) :
  existsb p l = false -> find p l = None.
Proof.
  induction l as [|x l IH]; simpl; [reflexivity|].
  destruct (p x); simpl; [discriminate | exact IH].
Qed.

Section WithLibrary.
Context `{L : Library}.

(** The two outcomes of one iteration of the inner loop that does not
    raise. *)
Lemma project_column_cases (df sdf sdf' : DataFrame) (k o : string) :
  project_column df sdf k o = Ok sdf' ->
  (has_source df k o = true /\
   exists s, List.length s = index_len df /\ sdf' = setitem_series sdf k s) \/
  (has_source df k o = false /\ sdf' = setitem_scalar sdf k NaN).
Proof.
  unfold has_source, project_column.
  destruct (label_in o df) eqn:Ein; simpl.
  - intros E. left. split; [reflexivity|].
    destruct (getitem df o) as [v|e] eqn:Eg; simpl in E; [|discriminate].
    eapply getitem_setitem; eauto.
  - destruct (find (fun c => String.eqb (analyze_column (HStr c)) k) (labels df))
      as [c|] eqn:Ef.
    + intros E. left. apply find_some in Ef as [Hc Hk]. split.
      * apply existsb_exists. eauto.
      * destruct (getitem df c) as [v|e] eqn:Eg; simpl in E; [|discriminate].
        eapply getitem_setitem; eauto.
    + intros E; inversion E; subst. right. split; [|reflexivity].
      destruct (existsb _ (labels df)) eqn:Ex; [|reflexivity].
      apply existsb_exists in Ex as (c & Hc & Hk).
      pose proof (find_none _ _ Ef c Hc) as Hn. simpl in Hn. congruence.
Qed.

(** An entry without a source column is filled with NaN, whatever the
    labels of the table. *)
Lemma project_column_missing (df sdf : DataFrame) (k o : string) :
  has_source df k o = false ->
  project_column df sdf k o = Ok (setitem_scalar sdf k NaN).
Proof.
  unfold has_source, project_column. intros H.
  apply orb_false_iff in H as [H1 H2]. rewrite H1.
  now rewrite (find_none_existsb _ _ H2).
Qed.

(** On a table whose labels are pairwise distinct the iteration does not
    raise. *)
Lemma project_column_total (df sdf : DataFrame) (k o : string) :
  NoDup (labels df) -> exists sdf', project_column df sdf k o = Ok sdf'.
Proof.
  intros Hnd. unfold project_column.
  destruct (label_in o df) eqn:Ein.
  - apply label_in_iff in Ein. rewrite (getitem_unique df o Hnd Ein). simpl. eauto.
  - destruct (find (fun c => String.eqb (analyze_column (HStr c)) k) (labels df))
      as [c|] eqn:Ef; [|eauto].
    apply find_some in Ef as [Hc _].
    rewrite (getitem_unique df c Hnd Hc). simpl. eauto.
Qed.

Lemma in_fold_add_label (keys ls : list string) (l : string) :
  In l (fold_left add_label keys ls) <-> In l ls \/ In l keys.
Proof.
  revert ls; induction keys as [|k keys IH]; intros ls; simpl; [tauto|].
  rewrite IH, in_add_label. intuition congruence.
Qed.

Lemma fold_add_label_fresh (keys ls : list string) :
  NoDup keys -> (forall k, In k keys -> ~ In k ls) ->
  fold_left add_label keys ls = ls ++ keys.
Proof.
  revert ls; induction keys as [|k keys IH]; intros ls Hnd Hfresh; simpl.
  - now rewrite app_nil_r.
  - inversion Hnd as [|? ? Hk Hnd']; subst.
    assert (add_label ls k = ls ++ [k]) as ->.
    { unfold add_label.
      replace (index_of k ls) with (@None nat); [reflexivity|].
      symmetry. apply index_of_none. apply Hfresh. now left. }
    rewrite IH; [now rewrite <- app_assoc | exact Hnd' |].
    intros k' Hk' Hin. apply in_app_or in Hin as [Hin|[->|[]]].
    + apply (Hfresh k'); [now right | exact Hin].
    + contradiction.
Qed.

(** The result of the inner loop is well formed, its labels are the labels
    it started from followed by the new keys, and its index is the one of
    [df] as soon as one column was copied. *)
Lemma project_columns_spec (df : DataFrame) (mapping : Dict.t string) :
  forall sdf sdf',
    wf_frame sdf ->
    index_len sdf = 0 \/ index_len sdf = index_len df ->
    project_columns df sdf mapping = Ok sdf' ->
    wf_frame sdf' /\
    labels sdf' = fold_left add_label (Dict.keys mapping) (labels sdf) /\
    (index_len sdf' = 0 \/ index_len sdf' = index_len df) /\
    (index_len sdf = index_len df \/
     (exists k o, In (k, o) mapping /\ has_source df k o = true) ->
     index_len sdf' = index_len df).
Proof.
  induction mapping as [|[k o] mapping IH]; intros sdf sdf' Hwf Hlen; simpl.
  - intros E; inversion E; subst. split_all; auto.
    intros [H|(k & o & [] & _)]. exact H.
  - destruct (project_column df sdf k o) as [sdf1|e] eqn:E1; simpl;
      [|discriminate].
    intros Hok.
    destruct (project_column_cases df sdf sdf1 k o E1)
      as [(Hsrc & s & Hs & ->) | (Hsrc & ->)].
    + assert (index_len (setitem_series sdf k s) = index_len df) as Hlen'.
      { rewrite index_len_setitem_series, Hs.
        destruct (index_len sdf =? 0)%nat eqn:E; [reflexivity|].
        apply Nat.eqb_neq in E. destruct Hlen; [contradiction | assumption]. }
      destruct (IH (setitem_series sdf k s) sdf') as (Hwf' & Hl & Hi & Hn); auto.
      * now apply wf_setitem_series.
      * rewrite labels_setitem_series in Hl. split_all; auto.
    + destruct (IH (setitem_scalar sdf k NaN) sdf') as (Hwf' & Hl & Hi & Hn); auto.
      * now apply wf_setitem_scalar.
      * now rewrite index_len_setitem_scalar.
      * rewrite labels_setitem_scalar in Hl. split_all; auto.
        intros [H|(k' & o' & [E|Hin] & Hsrc')]; apply Hn.
        -- left. now rewrite index_len_setitem_scalar.
        -- inversion E; subst. congruence.
        -- right. eauto.
Qed.

(** The inner loop does not raise on a table whose labels are pairwise
    distinct. *)
Lemma project_columns_total (df : DataFrame) (mapping : Dict.t string) :
  NoDup (labels df) ->
  forall sdf, exists sdf', project_columns df sdf mapping = Ok sdf'.
Proof.
  intros Hnd. induction mapping as [|[k o] mapping IH]; intros sdf; simpl; [eauto|].
  destruct (project_column_total df sdf k o Hnd) as [sdf1 ->]. simpl. apply IH.
Qed.

(** The loop body as a whole: the three provenance columns stored into
    the result of the inner loop. *)
Lemma project_inv (now : Z) (info : DataInfo) (mapping : Dict.t string)
    (out : DataFrame) :
  project now info mapping = Ok out ->
  exists sdf,
    project_columns (dataframe info) empty_frame mapping = Ok sdf /\
    wf_frame sdf /\
    labels sdf = fold_left add_label (Dict.keys mapping) [] /\
    (index_len sdf = 0 \/ index_len sdf = index_len (dataframe info)) /\
    ((exists k o, In (k, o) mapping /\ has_source (dataframe info) k o = true) ->
     index_len sdf = index_len (dataframe info)) /\
    out =
    setitem_scalar
      (setitem_scalar
         (setitem_scalar sdf "source_file" (CStr (path_name (file_path info))))
         "source_sheet" (CStr (sheet_name info)))
      "merge_timestamp" (CTime now).
Proof.
  unfold project.
  destruct (project_columns (dataframe info) empty_frame mapping)
    as [sdf|e] eqn:Hok; simpl; [|discriminate].
  intros E; inversion E; subst.
  destruct (project_columns_spec (dataframe info) mapping empty_frame sdf)
    as (Hwf & Hl & Hi & Hn); auto.
  - apply wf_empty_frame.
  - exists sdf. split_all; auto.
Qed.

(** The projection of a table with pairwise distinct labels never raises. *)
Lemma project_total (now : Z) (info : DataInfo) (mapping : Dict.t string) :
  NoDup (labels (dataframe info)) ->
  exists sdf, project now info mapping = Ok sdf.
Proof.
  intros Hnd. unfold project.
  destruct (project_columns_total (dataframe info) mapping Hnd empty_frame)
    as [sdf ->].
  simpl. eauto.
Qed.

Lemma project_unfold (now : Z) (info : DataInfo) (mapping : Dict.t string) :
  NoDup (labels (dataframe info)) ->
  exists sdf,
    project_columns (dataframe info) empty_frame mapping = Ok sdf /\
    wf_frame sdf /\
    labels sdf = fold_left add_label (Dict.keys mapping) [] /\
    (index_len sdf = 0 \/ index_len sdf = index_len (dataframe info)) /\
    ((exists k o, In (k, o) mapping /\ has_source (dataframe info) k o = true) ->
     index_len sdf = index_len (dataframe info)) /\
    project now info mapping =
    Ok (setitem_scalar
          (setitem_scalar
             (setitem_scalar sdf "source_file"
                             (CStr (path_name (file_path info))))
             "source_sheet" (CStr (sheet_name info)))
          "merge_timestamp" (CTime now)).
Proof.
  intros Hnd. destruct (project_total now info mapping Hnd) as [out Hout].
  destruct (project_inv now info mapping out Hout)
    as (sdf & H1 & H2 & H3 & H4 & H5 & ->).
  exists sdf. split_all; auto.
Qed.

(** The labels of a projected table: the keys of the mapping, then the
    provenance labels that are not keys already. *)
Lemma project_labels (now : Z) (info : DataInfo) (mapping : Dict.t string)
    (sdf : DataFrame) :
  project now info mapping = Ok sdf ->
  labels sdf =
  fold_left add_label (Dict.keys mapping ++ provenance_columns) [].
Proof.
  intros H. destruct (project_inv now info mapping sdf H)
    as (f & _ & _ & Hl & _ & _ & ->).
  rewrite !labels_setitem_scalar, Hl, fold_left_app. reflexivity.
Qed.

Lemma project_wf (now : Z) (info : DataInfo) (mapping : Dict.t string)
    (sdf : DataFrame) :
  project now info mapping = Ok sdf -> wf_frame sdf.
Proof.
  intros H. destruct (project_inv now info mapping sdf H)
    as (f & _ & Hwf & _ & _ & _ & ->).
  now repeat apply wf_setitem_scalar.
Qed.

Lemma project_index_len (now : Z) (info : DataInfo) (mapping : Dict.t string)
    (sdf : DataFrame) :
  project now info mapping = Ok sdf ->
  (exists k o, In (k, o) mapping /\ has_source (dataframe info) k o = true) ->
  index_len sdf = index_len (dataframe info).
Proof.
  intros H Hsrc. destruct (project_inv now info mapping sdf H)
    as (f & _ & _ & _ & _ & Hn & ->).
  rewrite !index_len_setitem_scalar. auto.
Qed.

End WithLibrary.

Lemma NoDup_keys_provenance (mapping : Dict.t string) :
  Dict.wf mapping ->
  (forall k, In k (Dict.keys mapping) -> is_provenance k = false) ->
  NoDup (Dict.keys mapping ++ provenance_columns).
Proof.
  intros Hwf Hprov. apply NoDup_app.
  - exact Hwf.
  - unfold provenance_columns.
    repeat constructor; simpl; intuition discriminate.
  - intros k Hk Hp. apply is_provenance_iff in Hp.
    rewrite (Hprov k Hk) in Hp. discriminate.
Qed.

End Projection.

(** * Runs on ASCII headers and plain cells

    On workbooks whose headers are ASCII text and whose cells are neither
    numbers nor booleans, every [Library] computes what [plain_library]
    computes. *)

Module Plain.
Import PyStr PyStrFacts Normalizer.

Definition sheet_ascii (sh : Sheet) : bool :=
  match read_excel sh with
  | Ok raw => forallb (fun h => is_ascii (py_str h)) (raw_labels raw)
  | Raise _ => true
  end.

Definition files_ascii (files : list Workbook) : bool :=
  forallb (fun wb => match wb_sheets wb with
                     | Ok sheets => forallb sheet_ascii sheets
                     | Raise _ => true
                     end)
          files.

Definition tables_ascii (infos : list DataInfo) : bool :=
  forallb (fun info => forallb is_ascii (labels (dataframe info))) infos.

Definition frames_plain (frames : list DataFrame) : bool :=
  forallb (fun f => forallb (forallb is_plain) (rows f)) frames.

(** The frames projected from [infos] hold plain cells only. *)
Definition projections_plain (clock : nat -> Z) (tick : nat)
    (infos : list DataInfo) (mapping : Dict.t string) : bool :=
  match project_all (L := plain_library) clock tick infos mapping with
  | Ok frames => frames_plain frames
  | Raise _ => true
  end.

(** The whole run stays within ASCII headers and plain cells. *)
Definition run_plain (so : SetOrder) (clock : nat -> Z)
    (files : list Workbook) : bool :=
  files_ascii files &&
  let infos := extract_dataframes (L := plain_library) files in
  tables_ascii infos &&
  match create_column_mapping so infos with
  | Ok mapping => projections_plain clock 0 infos mapping
  | Raise _ => true
  end.

Lemma find_ext_in {A : Type} (p q : A -> bool) (l : list A) :
  (forall x, In x l -> p x = q x) -> find p l = find q l.
Proof.
  induction l as [|x l IH]; intros H; simpl; [reflexivity|].
  rewrite (H x) by now left.
  destruct (q x); [reflexivity|]. apply IH. intros y Hy. apply H. now right.
Qed.

Lemma existsb_ext_in {A : Type} (p q : A -> bool) (l : list A) :
  (forall x, In x l -> p x = q x) -> existsb p l = existsb q l.
Proof.
  induction l as [|x l IH]; intros H; simpl; [reflexivity|].
  rewrite (H x) by now left. f_equal. apply IH. intros y Hy. apply H. now right.
Qed.

Lemma is_plain_cell_at (f : DataFrame) (r : row) (l : string) :
  forallb is_plain r = true -> is_plain (cell_at f r l) = true.
Proof.
  intros H. unfold cell_at. destruct (index_of l (labels f)) as [i|]; [|reflexivity].
  destruct (nth_in_or_default i r NaN) as [Hin| ->]; [|reflexivity].
  rewrite forallb_forall in H. now apply H.
Qed.

Section WithLibrary.
Context `{L : Library}.

Lemma standardize_plain (columns : list string) :
  forallb is_ascii columns = true ->
  standardize columns = standardize (L := plain_library) columns.
Proof.
  unfold standardize. generalize (@nil (string * string)) as d.
  induction columns as [|c columns IH]; intros d H; simpl; [reflexivity|].
  simpl in H. apply andb_true_iff in H as [Hc H].
  rewrite (analyze_column_ascii c Hc). now apply IH.
Qed.

Lemma extract_sheet_plain (path : string) (sh : Sheet) :
  sheet_ascii sh = true ->
  extract_sheet path sh = extract_sheet (L := plain_library) path sh.
Proof.
  unfold sheet_ascii, extract_sheet. destruct (read_excel sh) as [raw|e]; [|reflexivity].
  intros H.
  destruct ((List.length (raw_labels raw) =? 0)%nat
            || (List.length (raw_rows raw) =? 0)%nat); [reflexivity|].
  assert (map (fun h => u_strip (py_str h)) (raw_labels raw) =
          map (fun h => strip (py_str h)) (raw_labels raw)) as E.
  { apply map_ext_in. intros h Hh. apply u_strip_ascii.
    rewrite forallb_forall in H. now apply H. }
  change (map (fun h => @u_strip plain_library (py_str h)) (raw_labels raw))
    with (map (fun h => strip (py_str h)) (raw_labels raw)).
  rewrite E. rewrite standardize_plain; [reflexivity|].
  apply forallb_forall. intros c Hc. apply in_map_iff in Hc as (h & <- & Hh).
  apply is_ascii_strip. rewrite forallb_forall in H. now apply H.
Qed.

Lemma extract_dataframes_plain (files : list Workbook) :
  files_ascii files = true ->
  extract_dataframes files = extract_dataframes (L := plain_library) files.
Proof.
  unfold files_ascii, extract_dataframes.
  induction files as [|wb files IH]; simpl; [reflexivity|].
  intros H. apply andb_true_iff in H as [Hwb H]. rewrite (IH H). f_equal.
  destruct (wb_sheets wb) as [sheets|e]; [|reflexivity].
  induction sheets as [|sh sheets IHs]; simpl; [reflexivity|].
  simpl in Hwb. apply andb_true_iff in Hwb as [Hsh Hwb].
  now rewrite (extract_sheet_plain (wb_path wb) sh Hsh), (IHs Hwb).
Qed.

Lemma has_source_plain (df : DataFrame) (k o : string) :
  forallb is_ascii (labels df) = true ->
  has_source df k o = has_source (L := plain_library) df k o.
Proof.
  intros H. unfold has_source. f_equal. apply existsb_ext_in.
  intros c Hc. rewrite forallb_forall in H.
  now rewrite (analyze_column_ascii c (H c Hc)).
Qed.

Lemma project_column_plain (df sdf : DataFrame) (k o : string) :
  forallb is_ascii (labels df) = true ->
  project_column df sdf k o = project_column (L := plain_library) df sdf k o.
Proof.
  intros H. unfold project_column.
  destruct (label_in o df); [reflexivity|].
  rewrite (find_ext_in
             (fun c => String.eqb (analyze_column (HStr c)) k)
             (fun c => String.eqb (analyze_column (L := plain_library) (HStr c)) k));
    [reflexivity|].
  intros c Hc. rewrite forallb_forall in H.
  now rewrite (analyze_column_ascii c (H c Hc)).
Qed.

Lemma project_columns_plain (df : DataFrame) (mapping : Dict.t string) :
  forallb is_ascii (labels df) = true ->
  forall sdf,
    project_columns df sdf mapping =
    project_columns (L := plain_library) df sdf mapping.
Proof.
  intros H. induction mapping as [|[k o] mapping IH]; intros sdf; simpl; [reflexivity|].
  rewrite (project_column_plain df sdf k o H).
  destruct (project_column (L := plain_library) df sdf k o); simpl; [apply IH|reflexivity].
Qed.

Lemma project_plain (now : Z) (info : DataInfo) (mapping : Dict.t string) :
  forallb is_ascii (labels (dataframe info)) = true ->
  project now info mapping = project (L := plain_library) now info mapping.
Proof.
  intros H. unfold project. now rewrite (project_columns_plain _ mapping H).
Qed.

Lemma project_all_plain (clock : nat -> Z) (infos : list DataInfo)
    (mapping : Dict.t string) :
  tables_ascii infos = true ->
  forall tick,
    project_all clock tick infos mapping =
    project_all (L := plain_library) clock tick infos mapping.
Proof.
  unfold tables_ascii.
  induction infos as [|info infos IH]; intros H tick; simpl; [reflexivity|].
  simpl in H. apply andb_true_iff in H as [Hi H].
  now rewrite (project_plain (clock tick) info mapping Hi), (IH H).
Qed.

Lemma concat_plain (frames : list DataFrame) :
  frames_plain frames = true ->
  concat frames = concat (L := plain_library) frames.
Proof.
  intros H. unfold concat.
  set (ls := keep_first_by String.eqb (fun l => l) [] (flat_map labels frames)).
  assert (map (fun l => unify (map (fun f => column f l) frames)) ls =
          map (fun l => @unify plain_library (map (fun f => column f l) frames)) ls)
    as E; [|now rewrite E].
  apply map_ext. intros l. apply unify_plain.
  apply forallb_forall. intros piece Hp.
  apply in_map_iff in Hp as (f & <- & Hf).
  apply forallb_forall. intros c Hc.
  apply in_map_iff in Hc as (r & <- & Hr).
  apply is_plain_cell_at.
  unfold frames_plain in H. rewrite forallb_forall in H.
  specialize (H f Hf). rewrite forallb_forall in H. now apply H.
Qed.

Lemma merge_dataframes_plain (clock : nat -> Z) (tick : nat)
    (infos : list DataInfo) (mapping : Dict.t string) :
  tables_ascii infos = true ->
  projections_plain clock tick infos mapping = true ->
  merge_dataframes clock tick infos mapping =
  merge_dataframes (L := plain_library) clock tick infos mapping.
Proof.
  intros Ha Hp. unfold merge_dataframes, concat_projected, projections_plain in *.
  rewrite (project_all_plain clock infos mapping Ha).
  destruct (project_all (L := plain_library) clock tick infos mapping)
    as [frames|e]; simpl; [|reflexivity].
  destruct frames as [|f frames]; [reflexivity|].
  now rewrite (concat_plain (f :: frames) Hp).
Qed.

Lemma merge_excel_files_plain (so : SetOrder) (clock : nat -> Z)
    (export : DataFrame -> Summary -> Dict.t string -> result unit)
    (files : list Workbook) :
  run_plain so clock files = true ->
  merge_excel_files so clock export files =
  merge_excel_files (L := plain_library) so clock export files.
Proof.
  unfold run_plain. intros H. apply andb_true_iff in H as [Hf H].
  cbv zeta in H. apply andb_true_iff in H as [Ht Hp].
  unfold merge_excel_files. destruct files as [|wb files]; [reflexivity|].
  rewrite (extract_dataframes_plain (wb :: files) Hf).
  destruct (extract_dataframes (L := plain_library) (wb :: files))
    as [|info infos] eqn:Ei; [reflexivity|].
  destruct (create_column_mapping so (info :: infos)) as [mapping|e];
    simpl; [|reflexivity].
  now rewrite (merge_dataframes_plain clock 0 (info :: infos) mapping Ht Hp).
Qed.

(** A single frame is concatenated alike by every library: its columns
    are stacked on nothing. *)
Lemma concat_single (f : DataFrame) :
  concat [f] = concat (L := plain_library) [f].
Proof.
  unfold concat.
  set (ls := keep_first_by String.eqb (fun l => l) [] (flat_map labels [f])).
  assert (map (fun l => unify (map (fun g => column g l) [f])) ls =
          map (fun l => @unify plain_library (map (fun g => column g l) [f])) ls)
    as E; [|now rewrite E].
  apply map_ext. intros l. apply (unify_same (column f l) 1).
Qed.

Lemma merge_dataframes_single (clock : nat -> Z) (tick : nat)
    (info : DataInfo) (mapping : Dict.t string) :
  forallb is_ascii (labels (dataframe info)) = true ->
  merge_dataframes clock tick [info] mapping =
  merge_dataframes (L := plain_library) clock tick [info] mapping.
Proof.
  intros Ha. unfold merge_dataframes, concat_projected. simpl project_all.
  rewrite (project_plain (clock tick) info mapping Ha).
  destruct (project (L := plain_library) (clock tick) info mapping)
    as [f|e]; simpl; [|reflexivity].
  now rewrite (concat_single f).
Qed.

Lemma merge_excel_files_single (so : SetOrder) (clock : nat -> Z)
    (export : DataFrame -> Summary -> Dict.t string -> result unit)
    (files : list Workbook) (info : DataInfo) :
  files_ascii files = true ->
  extract_dataframes (L := plain_library) files = [info] ->
  forallb is_ascii (labels (dataframe info)) = true ->
  merge_excel_files so clock export files =
  merge_excel_files (L := plain_library) so clock export files.
Proof.
  intros Hf Hi Ha. unfold merge_excel_files.
  destruct files as [|wb files]; [reflexivity|].
  rewrite (extract_dataframes_plain (wb :: files) Hf), Hi.
  destruct (create_column_mapping so [info]) as [mapping|e];
    simpl; [|reflexivity].
  now rewrite (merge_dataframes_single clock 0 info mapping Ha).
Qed.

End WithLibrary.
End Plain.

(** * Concrete workbooks *)

Module Scenario.

(** A sheet with the headers Truck#, GPS Location, Status and one row. *)
Definition wb_trucks : Workbook :=
  mkWorkbook "data/trucks.xlsx"
    (Ok [mkSheet "Sheet1"
           (Ok (mkRawSheet [HStr "Truck#"; HStr "GPS Location"; HStr "Status"]
                           [[CStr "T1"; CStr "A"; CStr "OK"]]))]).

(** The same row under the headers vehicle, position, condition. *)
Definition wb_vehicles : Workbook :=
  mkWorkbook "data/vehicles.xlsx"
    (Ok [mkSheet "Sheet1"
           (Ok (mkRawSheet [HStr "vehicle"; HStr "position"; HStr "condition"]
                           [[CStr "T1"; CStr "A"; CStr "OK"]]))]).

(** A sheet whose only column is headed source_file, as the Master_Data
    sheet of an earlier output has it; two rows. *)
Definition wb_prov : Workbook :=
  mkWorkbook "data/old_master.xlsx"
    (Ok [mkSheet "Master_Data"
           (Ok (mkRawSheet [HStr "source_file"] [[CStr "x.xlsx"]; [CStr "y.xlsx"]]))]).

(** A sheet whose only header is white space; two rows. *)
Definition wb_blank : Workbook :=
  mkWorkbook "data/blank.xlsx"
    (Ok [mkSheet "Sheet1"
           (Ok (mkRawSheet [HStr "  "] [[CStr "x"]; [CStr "y"]]))]).

(** A sheet with the headers remarks and Truck; two rows. *)
Definition wb_remarks : Workbook :=
  mkWorkbook "data/remarks.xlsx"
    (Ok [mkSheet "Log"
           (Ok (mkRawSheet [HStr "remarks"; HStr "Truck"]
                           [[CStr "late"; CStr "T2"]; [CStr "ok"; CStr "T3"]]))]).

(** A sheet with the headers Truck and Truck followed by a blank, which
    are the same once cleaned; one row. *)
Definition wb_dup : Workbook :=
  mkWorkbook "data/dup.xlsx"
    (Ok [mkSheet "Sheet1"
           (Ok (mkRawSheet [HStr "Truck"; HStr "Truck "]
                           [[CStr "T1"; CStr "T9"]]))]).

(** A sheet with the header Load and the cells 1, TRUE and 2. *)
Definition wb_flags : Workbook :=
  mkWorkbook "data/flags.xlsx"
    (Ok [mkSheet "Sheet1"
           (Ok (mkRawSheet [HStr "Load"]
                           [[CNum 1%Q]; [CBool true]; [CNum 2%Q]]))]).

Definition info_of `{L : Library} (wb : Workbook) : DataInfo :=
  hd (mkDataInfo "" "" [] [] empty_frame 0) (extract_dataframes [wb]).

(** A clock that advances between two readings. *)
Definition ticking (n : nat) : Z := (1000 + Z.of_nat n)%Z.

Lemma info_of_plain `{L : Library} (wb : Workbook) :
  Plain.files_ascii [wb] = true ->
  info_of wb = info_of (L := plain_library) wb.
Proof.
  intros H. unfold info_of. now rewrite (Plain.extract_dataframes_plain [wb] H).
Qed.

End Scenario.

(** Replace the run of library [L] on a concrete ASCII workbook by the
    run of [plain_library], which computes. *)
Ltac to_plain L :=
  repeat first
    [ rewrite (@Scenario.info_of_plain L) by reflexivity
    | rewrite (@Plain.extract_dataframes_plain L) by reflexivity
    | rewrite (@Plain.merge_excel_files_plain L) by reflexivity
    | rewrite (@Plain.merge_dataframes_plain L) by reflexivity
    | rewrite (@Plain.project_plain L) by reflexivity
    | rewrite (@Plain.has_source_plain L) by reflexivity ].

Ltac to_plain_in L H :=
  repeat first
    [ rewrite (@Scenario.info_of_plain L) in H by reflexivity
    | rewrite (@Plain.extract_dataframes_plain L) in H by reflexivity
    | rewrite (@Plain.merge_excel_files_plain L) in H by reflexivity
    | rewrite (@Plain.merge_dataframes_plain L) in H by reflexivity
    | rewrite (@Plain.project_plain L) in H by reflexivity
    | rewrite (@Plain.has_source_plain L) in H by reflexivity ].

Module ProjectionClaims.
Import FrameFacts Projection Scenario.

Section WithLibrary.
Context `{L : Library}.

(** C1 (amended): for a table whose cleaned column names are pairwise
    distinct, a mapping with pairwise distinct keys none of which is
    source_file, source_sheet or merge_timestamp, and at least one entry of
    the mapping that finds a column in the table, the projection does not
    raise, its columns are the keys of the mapping followed by the three
    provenance columns (len(mapping)+3 of them), and it has as many rows as
    the source table. *)
Theorem C1_projection_shape (now : Z) (info : DataInfo)
    (mapping : Dict.t string) :
  NoDup (labels (dataframe info)) ->
  Dict.wf mapping ->
  (forall k, In k (Dict.keys mapping) -> is_provenance k = false) ->
  (exists k o, In (k, o) mapping /\ has_source (dataframe info) k o = true) ->
  exists sdf,
    project now info mapping = Ok sdf /\
    labels sdf = Dict.keys mapping ++ provenance_columns /\
    List.length (labels sdf) = List.length mapping + 3 /\
    index_len sdf = index_len (dataframe info).
Proof.
  intros Hnd Hwf Hprov Hsrc.
  destruct (project_total now info mapping Hnd) as [sdf Hsdf].
  exists sdf. split; [exact Hsdf|].
  assert (labels sdf = Dict.keys mapping ++ provenance_columns) as Hl.
  { rewrite (project_labels now info mapping sdf Hsdf).
    apply (fold_add_label_fresh _ []).
    - now apply NoDup_keys_provenance.
    - intros k _ []. }
  split; [exact Hl|]. split.
  - rewrite Hl, length_app. unfold Dict.keys. now rewrite length_map.
  - now apply (project_index_len now info mapping).
Qed.

End WithLibrary.

Lemma C1_projection_shape_witness :
  exists sdf,
    project 0 (info_of wb_vehicles)
            [("truck", "Truck#"); ("location", "GPS Location");
             ("status", "Status")] = Ok sdf /\
    labels sdf = ["truck"; "location"; "status"] ++ provenance_columns /\
    List.length (labels sdf) = 3 + 3 /\
    index_len sdf = 1.
Proof.
  apply (C1_projection_shape 0 (info_of wb_vehicles)
           [("truck", "Truck#"); ("location", "GPS Location");
            ("status", "Status")]).
  - vm_compute. repeat constructor; simpl; intuition discriminate.
  - repeat constructor; simpl; intuition discriminate.
  - intros k [<-|[<-|[<-|[]]]]; reflexivity.
  - exists "truck", "Truck#". split; [now left | reflexivity].
Defined.

(** C1 as stated fails: a loaded sheet with a column headed source_file
    gives the mapping key source_file, which the provenance column of the
    same name then replaces; the projection has 3 columns for a mapping of
    1 key.  This holds whatever the library. *)
Lemma C1_counterexample_provenance_key :
  (forall L : Library,
      extract_dataframes [wb_prov] = [info_of wb_prov] /\
      NoDup (labels (dataframe (info_of wb_prov))) /\
      create_column_mapping nodup_order [info_of wb_prov]
      = Ok [("source_file", "source_file")] /\
      project 0 (info_of wb_prov) [("source_file", "source_file")]
      = Ok (mkFrame ["source_file"; "source_sheet"; "merge_timestamp"]
                    [[CStr "old_master.xlsx"; CStr "Master_Data"; CTime 0];
                     [CStr "old_master.xlsx"; CStr "Master_Data"; CTime 0]])) /\
  (forall L : Library,
      ~ (forall (so : SetOrder) (files : list Workbook) (info : DataInfo)
                (mapping : Dict.t string) (now : Z),
            In info (extract_dataframes files) ->
            create_column_mapping so (extract_dataframes files) = Ok mapping ->
            exists sdf,
              project now info mapping = Ok sdf /\
              List.length (labels sdf) = List.length mapping + 3 /\
              index_len sdf = index_len (dataframe info))).
Proof.
  split.
  - intros L. to_plain L. split; [reflexivity|]. split.
    + vm_compute. repeat constructor; simpl; intuition discriminate.
    + split; reflexivity.
  - intros L H.
    destruct (H nodup_order [wb_prov] (info_of wb_prov)
                [("source_file", "source_file")] 0%Z)
      as (sdf & E & Hl & _).
    + to_plain L. now left.
    + to_plain L. reflexivity.
    + to_plain_in L E. vm_compute in E. inversion E; subst. discriminate Hl.
Qed.

Lemma nth_repeat_nan (i n : nat) : nth i (repeat NaN n) NaN = NaN.
Proof. revert i; induction n as [|n IH]; intros [|i]; simpl; auto. Qed.

Lemma col_nan_ensure (f : DataFrame) (vals : list cell) (k : string) :
  col_nan f k -> col_nan (ensure_valid_index f vals) k.
Proof.
  intros [Hin Hnan]. unfold ensure_valid_index.
  destruct ((index_len f =? 0)%nat && (0 <? List.length vals)%nat);
    [|now split].
  split; simpl; [exact Hin|].
  intros r Hr. apply repeat_spec in Hr. subst r.
  unfold cell_at; simpl. destruct (index_of k (labels f)); [|reflexivity].
  apply nth_repeat_nan.
Qed.

Lemma col_nan_put_other (f : DataFrame) (k' k : string) (vals : list cell) :
  wf_frame f -> k' <> k -> col_nan f k -> col_nan (put_column f k' vals) k.
Proof.
  intros [_ Hrows] Hne [Hin Hnan]. split.
  - rewrite labels_put_column. apply in_add_label. now left.
  - intros r' Hr'. rewrite rows_put_column in Hr'.
    apply in_map_iff in Hr' as ([r v] & <- & Hc). simpl.
    apply in_combine_l in Hc.
    rewrite cell_at_upd_other.
    + now apply Hnan.
    + congruence.
    + rewrite Forall_forall in Hrows. now apply Hrows.
Qed.

Lemma col_nan_setitem_scalar_same (f : DataFrame) (k : string) :
  wf_frame f -> col_nan (setitem_scalar f k NaN) k.
Proof.
  intros [_ Hrows]. split.
  - rewrite labels_setitem_scalar. apply in_add_label. now right.
  - intros r' Hr'. rewrite rows_setitem_scalar in Hr'.
    apply in_map_iff in Hr' as (r & <- & Hr).
    apply (cell_at_upd_same f k (repeat NaN (index_len f))).
    rewrite Forall_forall in Hrows. now apply Hrows.
Qed.

Lemma col_nan_getitem (f : DataFrame) (k : string) :
  wf_frame f -> col_nan f k ->
  getitem f k = Ok (Series (repeat NaN (index_len f))).
Proof.
  intros [Hnd _] [Hin Hnan]. rewrite (getitem_unique f k Hnd Hin).
  do 2 f_equal. unfold column, index_len.
  induction (rows f) as [|r rs IH]; simpl; [reflexivity|].
  rewrite Hnan by now left. f_equal. apply IH. intros r' Hr'. apply Hnan. now right.
Qed.

Section WithLibrary.
Context `{L : Library}.

Lemma project_column_keeps_nan (df sdf sdf' : DataFrame) (k' o' k : string) :
  wf_frame sdf -> k' <> k -> col_nan sdf k ->
  project_column df sdf k' o' = Ok sdf' ->
  wf_frame sdf' /\ col_nan sdf' k.
Proof.
  intros Hwf Hne Hnan E.
  destruct (project_column_cases df sdf sdf' k' o' E)
    as [(_ & s & _ & ->) | (_ & ->)].
  - split; [now apply wf_setitem_series|].
    apply col_nan_put_other; auto.
    + now apply wf_ensure_valid_index.
    + now apply col_nan_ensure.
  - split; [now apply wf_setitem_scalar|].
    now apply col_nan_put_other.
Qed.

Lemma project_columns_keep_nan (df : DataFrame) (k : string)
    (mapping : Dict.t string) :
  forall sdf sdf',
    wf_frame sdf -> col_nan sdf k -> ~ In k (Dict.keys mapping) ->
    project_columns df sdf mapping = Ok sdf' ->
    wf_frame sdf' /\ col_nan sdf' k.
Proof.
  induction mapping as [|[k' o'] mapping IH]; intros sdf sdf' Hwf Hnan Hk; simpl.
  - intros E; inversion E; subst. now split.
  - destruct (project_column df sdf k' o') as [sdf1|e] eqn:E1; simpl;
      [|discriminate].
    simpl in Hk.
    destruct (project_column_keeps_nan df sdf sdf1 k' o' k) as [Hwf1 Hnan1];
      auto.
    apply IH; auto.
Qed.

Lemma project_columns_fill_nan (df : DataFrame) (k o : string)
    (mapping : Dict.t string) :
  forall sdf sdf',
    wf_frame sdf -> Dict.wf mapping -> In (k, o) mapping ->
    has_source df k o = false ->
    project_columns df sdf mapping = Ok sdf' ->
    wf_frame sdf' /\ col_nan sdf' k.
Proof.
  induction mapping as [|[k' o'] mapping IH];
    intros sdf sdf' Hwf Hnd Hin Hsrc; simpl; [destruct Hin|].
  inversion Hnd as [|? ? Hk' Hnd']; subst.
  destruct Hin as [E|Hin].
  - inversion E; subst.
    rewrite (project_column_missing df sdf k o Hsrc). simpl.
    apply project_columns_keep_nan; auto.
    + now apply wf_setitem_scalar.
    + now apply col_nan_setitem_scalar_same.
  - destruct (project_column df sdf k' o') as [sdf1|e] eqn:E1; simpl;
      [|discriminate].
    apply IH; auto.
    destruct (project_column_cases df sdf sdf1 k' o' E1)
      as [(_ & s & _ & ->) | (_ & ->)].
    + now apply wf_setitem_series.
    + now apply wf_setitem_scalar.
Qed.

(** C2 (amended): for a table whose cleaned column names are pairwise
    distinct, a mapping with pairwise distinct keys and an entry whose key
    is not a provenance label and for which the table has neither a column
    of the chosen original name nor a column normalising to the key, the
    projection does not raise and holds that column with NaN in every row;
    its rows are as many as the table's when some entry of the mapping
    finds a column in the table. *)
Theorem C2_missing_column_is_null (now : Z) (info : DataInfo)
    (mapping : Dict.t string) (k o : string) :
  NoDup (labels (dataframe info)) ->
  Dict.wf mapping ->
  In (k, o) mapping ->
  is_provenance k = false ->
  has_source (dataframe info) k o = false ->
  exists sdf,
    project now info mapping = Ok sdf /\
    getitem sdf k = Ok (Series (repeat NaN (index_len sdf))) /\
    ((exists k' o', In (k', o') mapping /\
                    has_source (dataframe info) k' o' = true) ->
     index_len sdf = index_len (dataframe info)).
Proof.
  intros Hdf Hwf Hin Hprov Hsrc.
  destruct (project_unfold now info mapping Hdf)
    as (f & Hf & Hwff & _ & _ & _ & Hp).
  destruct (project_columns_fill_nan (dataframe info) k o mapping
              empty_frame f wf_empty_frame Hwf Hin Hsrc Hf) as [_ Hnan].
  eexists. split; [exact Hp|]. split.
  - apply col_nan_getitem.
    + now repeat apply wf_setitem_scalar.
    + assert (forall c, In c provenance_columns -> c <> k) as Hne.
      { intros c Hc ->. apply is_provenance_iff in Hc. congruence. }
      repeat apply col_nan_put_other;
        repeat apply wf_setitem_scalar; auto; apply Hne; simpl; auto.
  - intros Hsome. eapply project_index_len; eauto.
Qed.

End WithLibrary.

Lemma C2_missing_column_is_null_witness :
  exists sdf,
    project 0 (info_of wb_remarks)
            [("remarks", "remarks"); ("truck", "Truck"); ("status", "Status")]
    = Ok sdf /\
    getitem sdf "status" = Ok (Series (repeat NaN (index_len sdf))) /\
    ((exists k' o',
         In (k', o') [("remarks", "remarks"); ("truck", "Truck");
                      ("status", "Status")] /\
         has_source (dataframe (info_of wb_remarks)) k' o' = true) ->
     index_len sdf = index_len (dataframe (info_of wb_remarks))).
Proof.
  apply (C2_missing_column_is_null 0 (info_of wb_remarks)
           [("remarks", "remarks"); ("truck", "Truck"); ("status", "Status")]
           "status" "Status").
  - vm_compute. repeat constructor; simpl; intuition discriminate.
  - repeat constructor; simpl; intuition discriminate.
  - simpl; auto.
  - reflexivity.
  - reflexivity.
Defined.

(** C2 as stated fails: with the sheets of [wb_prov] and [wb_remarks]
    loaded, the mapping has the key source_file, the second sheet has no
    column for it, and its projection holds the file name in that column,
    not NaN.  This holds whatever the library. *)
Lemma C2_counterexample_provenance_key :
  (forall L : Library,
      create_column_mapping nodup_order (extract_dataframes [wb_prov; wb_remarks])
      = Ok [("source_file", "source_file"); ("remarks", "remarks");
            ("truck", "Truck")] /\
      NoDup (labels (dataframe (info_of wb_remarks))) /\
      has_source (dataframe (info_of wb_remarks)) "source_file" "source_file"
      = false /\
      project 0 (info_of wb_remarks)
              [("source_file", "source_file"); ("remarks", "remarks");
               ("truck", "Truck")]
      = Ok (mkFrame ["source_file"; "remarks"; "truck"; "source_sheet";
                     "merge_timestamp"]
                    [[CStr "remarks.xlsx"; CStr "late"; CStr "T2"; CStr "Log";
                      CTime 0];
                     [CStr "remarks.xlsx"; CStr "ok"; CStr "T3"; CStr "Log";
                      CTime 0]])) /\
  (forall L : Library,
      ~ (forall (so : SetOrder) (files : list Workbook) (info : DataInfo)
                (mapping : Dict.t string) (now : Z) (k o : string),
            In info (extract_dataframes files) ->
            create_column_mapping so (extract_dataframes files) = Ok mapping ->
            In (k, o) mapping ->
            has_source (dataframe info) k o = false ->
            exists sdf,
              project now info mapping = Ok sdf /\
              getitem sdf k
              = Ok (Series (repeat NaN (index_len (dataframe info)))))).
Proof.
  split.
  - intros L. to_plain L. split; [reflexivity|]. split.
    + vm_compute. repeat constructor; simpl; intuition discriminate.
    + split; reflexivity.
  - intros L H.
    destruct (H nodup_order [wb_prov; wb_remarks] (info_of wb_remarks)
                [("source_file", "source_file"); ("remarks", "remarks");
                 ("truck", "Truck")] 0%Z "source_file" "source_file")
      as (sdf & E & Hg).
    + to_plain L. simpl; auto.
    + to_plain L. reflexivity.
    + simpl; auto.
    + to_plain L. reflexivity.
    + to_plain_in L E. vm_compute in E. inversion E; subst.
      vm_compute in Hg. discriminate Hg.
Qed.

(** The sheet of [wb_dup] has two columns named Truck once its headers
    are cleaned: selecting the name gives a frame of two columns, and the
    projection raises when it stores that frame under one key. *)
Example duplicate_headers_raise :
  forall L : Library,
    labels (dataframe (info_of wb_dup)) = ["Truck"; "Truck"] /\
    project 0 (info_of wb_dup) [("truck", "Truck")]
    = Raise (ValueError
               "Cannot set a DataFrame with multiple columns to the single column truck").
Proof.
  intros L. to_plain L. split; reflexivity.
Qed.

End ProjectionClaims.

(** * Properties of keep_first_by, concat and drop_duplicates *)

Module DedupFacts.
Import FrameFacts.

(** A boolean equivalence relation. *)
Definition equiv_bool {K : Type} (eqb : K -> K -> bool) : Prop :=
  (forall a, eqb a a = true) /\
  (forall a b, eqb a b = eqb b a) /\
  (forall a b c, eqb a b = true -> eqb b c = true -> eqb a c = true).

Section KeepFirst.
Variables A K : Type.
Variable K_eqb : K -> K -> bool.
Variable key : A -> K.
Hypothesis K_equiv : equiv_bool K_eqb.

Lemma seen_trans (x y : K) (seen : list K) :
  K_eqb x y = true -> existsb (K_eqb y) seen = true ->
  existsb (K_eqb x) seen = true.
Proof.
  destruct K_equiv as (_ & _ & Htrans).
  intros Hxy H. apply existsb_exists in H as (z & Hz & Hyz).
  apply existsb_exists. exists z. split; [exact Hz|]. eapply Htrans; eauto.
Qed.

Lemma keep_first_seen_ext (l : list A) :
  forall seen seen',
    (forall y, existsb (K_eqb y) seen = existsb (K_eqb y) seen') ->
    keep_first_by K_eqb key seen l = keep_first_by K_eqb key seen' l.
Proof.
  induction l as [|x l IH]; intros seen seen' H; simpl; [reflexivity|].
  rewrite (H (key x)).
  destruct (existsb (K_eqb (key x)) seen'); [now apply IH|].
  f_equal. apply IH. intros y; simpl. now rewrite H.
Qed.

Lemma keep_first_app (l1 l2 : list A) :
  forall seen,
    keep_first_by K_eqb key seen (l1 ++ l2) =
    keep_first_by K_eqb key seen l1 ++
    keep_first_by K_eqb key (map key l1 ++ seen) l2.
Proof.
  induction l1 as [|x l1 IH]; intros seen; simpl; [reflexivity|].
  destruct (existsb (K_eqb (key x)) seen) eqn:E.
  - rewrite IH. f_equal. apply keep_first_seen_ext.
    intros y; simpl.
    destruct (K_eqb y (key x)) eqn:Ey; simpl; [|reflexivity].
    rewrite existsb_app, (seen_trans y (key x) seen Ey E).
    apply orb_true_r.
  - simpl. rewrite IH. do 2 f_equal. apply keep_first_seen_ext.
    intros y; simpl. rewrite !existsb_app. simpl.
    destruct (K_eqb y (key x)), (existsb (K_eqb y) (map key l1)); reflexivity.
Qed.

Lemma keep_first_all_seen (l : list A) (seen : list K) :
  (forall x, In x l -> existsb (K_eqb (key x)) seen = true) ->
  keep_first_by K_eqb key seen l = [].
Proof.
  induction l as [|x l IH]; intros H; simpl; [reflexivity|].
  rewrite (H x) by now left.
  apply IH. intros y Hy. apply H. now right.
Qed.

Lemma keep_first_map_key (l : list A) :
  forall seen,
    map key (keep_first_by K_eqb key seen l) =
    keep_first_by K_eqb (fun k => k) seen (map key l).
Proof.
  induction l as [|x l IH]; intros seen; simpl; [reflexivity|].
  destruct (existsb (K_eqb (key x)) seen); simpl; now rewrite IH.
Qed.

Lemma keep_first_in (l : list A) :
  forall seen x, In x (keep_first_by K_eqb key seen l) -> In x l.
Proof.
  induction l as [|y l IH]; intros seen x; simpl; [tauto|].
  destruct (existsb (K_eqb (key y)) seen); simpl; intros H.
  - right. eapply IH; eauto.
  - destruct H as [H|H]; [now left | right; eapply IH; eauto].
Qed.

Lemma length_keep_first (l : list A) :
  forall seen,
    List.length (keep_first_by K_eqb key seen l) <= List.length l.
Proof.
  induction l as [|x l IH]; intros seen; simpl; [lia|].
  destruct (existsb (K_eqb (key x)) seen); simpl.
  - specialize (IH seen). lia.
  - specialize (IH (key x :: seen)). lia.
Qed.

Lemma keep_first_fresh (l : list A) :
  forall seen x,
    In x (keep_first_by K_eqb key seen l) ->
    existsb (K_eqb (key x)) seen = false.
Proof.
  induction l as [|y l IH]; intros seen x; simpl; [tauto|].
  destruct (existsb (K_eqb (key y)) seen) eqn:E; simpl; intros H.
  - eapply IH; eauto.
  - destruct H as [<-|H]; [exact E|].
    apply IH in H. simpl in H. now apply orb_false_iff in H as [_ H].
Qed.

(** No two kept elements have equivalent keys. *)
Lemma keep_first_distinct (l : list A) :
  forall seen i j x y,
    i < j ->
    nth_error (keep_first_by K_eqb key seen l) i = Some x ->
    nth_error (keep_first_by K_eqb key seen l) j = Some y ->
    K_eqb (key x) (key y) = false.
Proof.
  destruct K_equiv as (_ & Hsym & _).
  induction l as [|a l IH]; intros seen i j x y Hij; simpl.
  - destruct i; discriminate.
  - destruct (existsb (K_eqb (key a)) seen); [now apply IH|].
    destruct j as [|j]; [lia|]. destruct i as [|i]; simpl.
    + intros Hx Hy. inversion Hx; subst.
      apply nth_error_In, keep_first_fresh in Hy. simpl in Hy.
      apply orb_false_iff in Hy as [Hy _]. now rewrite Hsym.
    + apply IH. lia.
Qed.

(** The position-wise description of the scan: the element at position
    [i] is kept exactly when its key is new and no element before it has
    an equivalent key. *)
Lemma keep_first_mask (l : list A) :
  forall seen,
  exists mask : list bool,
    List.length mask = List.length l /\
    keep_first_by K_eqb key seen l = map snd (filter fst (combine mask l)) /\
    forall i x,
      nth_error l i = Some x ->
      (nth_error mask i = Some true <->
       existsb (K_eqb (key x)) seen = false /\
       forall j y, j < i -> nth_error l j = Some y ->
                   K_eqb (key y) (key x) = false).
Proof.
  destruct K_equiv as (_ & Hsym & _).
  induction l as [|a l IH]; intros seen.
  - exists []. split; [reflexivity|]. split; [reflexivity|].
    intros [|i] x H; discriminate.
  - simpl. destruct (existsb (K_eqb (key a)) seen) eqn:E.
    + destruct (IH seen) as (mask & Hlen & Hrows & Hmask).
      exists (false :: mask). split; [simpl; congruence|].
      split; [exact Hrows|].
      intros [|i] x Hx; simpl in *.
      * inversion Hx; subst. split; [discriminate|]. intros [Hn _]. congruence.
      * rewrite (Hmask i x Hx). split; intros [Hn Hb]; split; auto.
        -- intros [|j] y Hj Hy; simpl in Hy.
           ++ inversion Hy; subst.
              destruct (K_eqb (key y) (key x)) eqn:Eyx; [|reflexivity].
              rewrite Hsym in Eyx.
              rewrite (seen_trans (key x) (key y) seen Eyx E) in Hn.
              discriminate.
           ++ apply (Hb j y); [lia | exact Hy].
        -- intros j y Hj Hy. apply (Hb (S j) y); [lia | exact Hy].
    + destruct (IH (key a :: seen)) as (mask & Hlen & Hrows & Hmask).
      exists (true :: mask). split; [simpl; congruence|].
      split; [simpl; now rewrite Hrows|].
      intros [|i] x Hx; simpl in *.
      * inversion Hx; subst. split; [|reflexivity].
        intros _. split; [exact E|]. intros j y Hj. lia.
      * rewrite (Hmask i x Hx). split.
        -- intros [Hn Hb]. apply orb_false_iff in Hn as [Hxa Hn].
           split; [exact Hn|].
           intros [|j] y Hj Hy; simpl in Hy.
           ++ inversion Hy; subst. now rewrite Hsym.
           ++ apply (Hb j y); [lia | exact Hy].
        -- intros [Hn Hb]. split.
           ++ apply orb_false_iff. split; [|exact Hn].
              rewrite Hsym. apply (Hb 0 a); [lia | reflexivity].
           ++ intros j y Hj Hy. apply (Hb (S j) y); [lia | exact Hy].
Qed.

(** Scanning the result again removes nothing. *)
Lemma keep_first_idem (l : list A) :
  forall seen,
    keep_first_by K_eqb key seen (keep_first_by K_eqb key seen l) =
    keep_first_by K_eqb key seen l.
Proof.
  induction l as [|x l IH]; intros seen; simpl; [reflexivity|].
  destruct (existsb (K_eqb (key x)) seen) eqn:E; [apply IH|].
  simpl. rewrite E. f_equal.
  rewrite <- (IH (key x :: seen)) at 2.
  reflexivity.
Qed.

End KeepFirst.

Lemma string_eqb_equiv : equiv_bool String.eqb.
Proof.
  split; [apply String.eqb_refl|]. split; [apply String.eqb_sym|].
  intros a b c H1 H2. apply String.eqb_eq in H1, H2. subst. apply String.eqb_refl.
Qed.

Lemma same_refl (a : cell) : same a a = true.
Proof.
  destruct a as [|s|q|[]|t]; simpl; try reflexivity.
  - apply String.eqb_refl.
  - apply Qeq_bool_refl.
  - apply Z.eqb_refl.
Qed.

Lemma same_sym (a b : cell) : same a b = same b a.
Proof.
  destruct a as [|s|q|[]|t], b as [|s'|q'|[]|t']; simpl; try reflexivity;
    first [apply String.eqb_sym | apply Z.eqb_sym | apply Qeq_bool_comm].
Qed.

Lemma same_trans (a b c : cell) :
  same a b = true -> same b c = true -> same a c = true.
Proof.
  destruct a as [|s|q|[]|t], b as [|s'|q'|[]|t'], c as [|s''|q''|[]|t''];
    simpl; intros H1 H2; try discriminate; try reflexivity;
    first [ assumption
          | apply String.eqb_eq in H1, H2; subst; apply String.eqb_refl
          | apply Z.eqb_eq in H1, H2; subst; apply Z.eqb_refl
          | eapply Qeq_bool_trans; eassumption ].
Qed.

(** What [same] decides: numbers and booleans are equal when they have
    the same value, any other two cells when they are the same cell. *)
Lemma same_spec (a b : cell) :
  same a b = true <->
  match as_number a, as_number b with
  | Some x, Some y => (x == y)%Q
  | None, None => a = b
  | _, _ => False
  end.
Proof.
  destruct a as [|s|q|[]|t], b as [|s'|q'|[]|t']; simpl;
    try apply Qeq_bool_iff;
    try (split; [discriminate | intros H; discriminate H]);
    try (split; [discriminate | intros H; contradiction H]).
  - split; reflexivity.
  - rewrite String.eqb_eq. split; [intros ->; reflexivity | intros H; now inversion H].
  - rewrite Z.eqb_eq. split; [intros ->; reflexivity | intros H; now inversion H].
Qed.

Lemma row_same_refl (r : row) : row_same r r = true.
Proof. induction r as [|a r IH]; simpl; [reflexivity | now rewrite same_refl]. Qed.

Lemma row_same_sym (r1 r2 : row) : row_same r1 r2 = row_same r2 r1.
Proof.
  revert r2; induction r1 as [|a r1 IH]; intros [|b r2]; simpl; try reflexivity.
  now rewrite same_sym, IH.
Qed.

Lemma row_same_trans (r1 r2 r3 : row) :
  row_same r1 r2 = true -> row_same r2 r3 = true -> row_same r1 r3 = true.
Proof.
  revert r2 r3; induction r1 as [|a r1 IH]; intros [|b r2] [|c r3]; simpl;
    try discriminate; try reflexivity.
  intros H1 H2. apply andb_true_iff in H1 as [Ha H1], H2 as [Hb H2].
  now rewrite (same_trans a b c Ha Hb), (IH r2 r3 H1 H2).
Qed.

Lemma row_same_equiv : equiv_bool row_same.
Proof.
  split; [apply row_same_refl|]. split; [apply row_same_sym|].
  apply row_same_trans.
Qed.

Lemma keep_first_id_NoDup (l : list string) :
  forall seen,
    NoDup l -> (forall x, In x l -> ~ In x seen) ->
    keep_first_by String.eqb (fun k => k) seen l = l.
Proof.
  induction l as [|x l IH]; intros seen Hnd Hfresh; simpl; [reflexivity|].
  inversion Hnd as [|? ? Hx Hnd']; subst.
  replace (existsb (String.eqb x) seen) with false.
  - f_equal. apply IH; [exact Hnd'|].
    intros y Hy [<-|Hin]; [contradiction|].
    apply (Hfresh y); [now right | exact Hin].
  - symmetry. apply not_true_is_false. intros E.
    apply existsb_exists in E as (y & Hy & E). apply String.eqb_eq in E. subst y.
    apply (Hfresh x); [now left | exact Hy].
Qed.

Lemma existsb_eqb_in (x : string) (seen : list string) :
  In x seen -> existsb (String.eqb x) seen = true.
Proof.
  intros H. apply existsb_exists. exists x. split; [exact H | apply String.eqb_refl].
Qed.

Lemma index_of_nth_error (ls : list string) (i : nat) (l : string) :
  NoDup ls -> nth_error ls i = Some l -> index_of l ls = Some i.
Proof.
  intros Hnd Hi.
  assert (In l ls) as Hin by (eapply nth_error_In; eauto).
  destruct (index_of_in l ls Hin) as [j Hj]. rewrite Hj. f_equal.
  pose proof (index_of_some _ _ _ Hj) as Hj'.
  rewrite NoDup_nth_error in Hnd. symmetry. apply Hnd; [|congruence].
  apply nth_error_Some. congruence.
Qed.

(** Read back on its own labels, a row of a well-formed frame is itself. *)
Lemma reindex_same (f : DataFrame) (r : row) :
  NoDup (labels f) -> List.length r = List.length (labels f) ->
  map (cell_at f r) (labels f) = r.
Proof.
  intros Hnd Hlen. apply nth_error_ext. intros n.
  rewrite nth_error_map.
  destruct (nth_error (labels f) n) as [l|] eqn:El; simpl.
  - unfold cell_at. rewrite (index_of_nth_error _ _ _ Hnd El).
    symmetry. apply nth_error_nth'.
    rewrite Hlen. apply nth_error_Some. congruence.
  - symmetry. apply nth_error_None. rewrite Hlen.
    now apply nth_error_None.
Qed.

Lemma flat_map_eq_in {A B : Type} (g h : A -> list B) (l : list A) :
  (forall a, In a l -> g a = h a) -> flat_map g l = flat_map h l.
Proof.
  induction l as [|a l IH]; intros H; simpl; [reflexivity|].
  rewrite (H a) by now left. f_equal. apply IH. intros b Hb. apply H. now right.
Qed.

(** The rows a mask selects. *)
Lemma mask_all (A : Type) (l : list A) :
  map snd (filter fst (combine (repeat true (List.length l)) l)) = l.
Proof. induction l as [|x l IH]; simpl; [reflexivity | now rewrite IH]. Qed.

End DedupFacts.

(** * Properties of concat *)

Module ConcatFacts.
Import FrameFacts DedupFacts.

(** The labels of a concatenation. *)
Definition union_labels (frames : list DataFrame) : list string :=
  keep_first_by String.eqb (fun l => l) [] (flat_map labels frames).

(** The rows to stack, each with the frame it comes from. *)
Definition pairs (frames : list DataFrame) : list (DataFrame * row) :=
  flat_map (fun f => map (pair f) (rows f)) frames.

(** The pieces of the column [l], one per frame. *)
Definition pieces (frames : list DataFrame) (l : string) : list (list cell) :=
  map (fun f => column f l) frames.

(** For each row of the stack, the position of the frame it comes from,
    counted from [k]. *)
Fixpoint origins (k : nat) (frames : list DataFrame) : list nat :=
  match frames with
  | [] => []
  | f :: rest => repeat k (index_len f) ++ origins (S k) rest
  end.

Lemma length_pairs (frames : list DataFrame) :
  List.length (pairs frames) = list_sum (map index_len frames).
Proof.
  unfold pairs. induction frames as [|f frames IH]; simpl; [reflexivity|].
  rewrite length_app, length_map, IH. reflexivity.
Qed.

Lemma length_origins (frames : list DataFrame) :
  forall k, List.length (origins k frames) = list_sum (map index_len frames).
Proof.
  induction frames as [|f frames IH]; intros k; simpl; [reflexivity|].
  now rewrite length_app, repeat_length, IH.
Qed.

Lemma concat_pieces (frames : list DataFrame) (l : string) :
  List.concat (pieces frames l) =
  map (fun x => cell_at (fst x) (snd x) l) (pairs frames).
Proof.
  unfold pieces, pairs, column.
  induction frames as [|f frames IH]; simpl; [reflexivity|].
  now rewrite map_app, map_map, IH.
Qed.

Lemma length_concat_pieces (frames : list DataFrame) (l : string) :
  List.length (List.concat (pieces frames l)) = list_sum (map index_len frames).
Proof. now rewrite concat_pieces, length_map, length_pairs. Qed.

Lemma stack_rows (frames : list DataFrame) (ls : list string) :
  flat_map (fun f => map (fun r => map (cell_at f r) ls) (rows f)) frames =
  map (fun x => map (cell_at (fst x) (snd x)) ls) (pairs frames).
Proof.
  unfold pairs. induction frames as [|f frames IH]; simpl; [reflexivity|].
  now rewrite map_app, map_map, IH.
Qed.

Lemma transpose_pairs {X : Type} (g : X -> string -> cell) (ls : list string)
    (xs : list X) :
  map (fun i => map (fun l => nth i (map (fun x => g x l) xs) NaN) ls)
      (seq 0 (List.length xs))
  = map (fun x => map (g x) ls) xs.
Proof.
  induction xs as [|x xs IH]; simpl; [reflexivity|].
  f_equal. rewrite <- seq_shift, map_map. exact IH.
Qed.

Lemma nth_error_seq0 (n i : nat) :
  i < n -> nth_error (seq 0 n) i = Some i.
Proof.
  intros H. rewrite (nth_error_nth' (seq 0 n) 0) by now rewrite length_seq.
  now rewrite seq_nth.
Qed.

Lemma nth_map_label {B : Type} (g : string -> B) (ls : list string) (l : string)
    (k : nat) (d : B) :
  index_of l ls = Some k -> nth k (map g ls) d = g l.
Proof.
  intros H. apply index_of_some in H.
  apply nth_error_nth. rewrite nth_error_map, H. reflexivity.
Qed.

(** The frame a stacked value comes from. *)
Lemma nth_stack_origin {B : Type} (h : DataFrame -> list B)
    (frames : list DataFrame) :
  (forall f, List.length (h f) = index_len f) ->
  forall k i b,
    nth_error (flat_map h frames) i = Some b ->
    exists j f,
      nth_error (origins k frames) i = Some (k + j) /\
      nth_error frames j = Some f /\ In b (h f).
Proof.
  intros Hlen. induction frames as [|f frames IH]; intros k i b; simpl.
  - destruct i; discriminate.
  - destruct (Nat.lt_ge_cases i (List.length (h f))) as [Hi|Hi].
    + rewrite nth_error_app1 by exact Hi. intros Hb.
      exists 0, f. split; [|split; [reflexivity | eapply nth_error_In; eauto]].
      rewrite nth_error_app1 by now rewrite repeat_length, <- Hlen.
      rewrite Nat.add_0_r. apply nth_error_repeat. now rewrite <- Hlen.
    + rewrite nth_error_app2 by exact Hi. intros Hb.
      destruct (IH (S k) _ b Hb) as (j & g & Ho & Hg & Hin).
      exists (S j), g. split; [|split; [exact Hg | exact Hin]].
      rewrite nth_error_app2 by now rewrite repeat_length, <- Hlen.
      rewrite repeat_length, <- Hlen, Ho. f_equal. lia.
Qed.

Section WithLibrary.
Context `{L : Library}.

Lemma labels_concat (frames : list DataFrame) :
  labels (concat frames) = union_labels frames.
Proof. reflexivity. Qed.

Lemma index_len_concat (frames : list DataFrame) :
  index_len (concat frames) = list_sum (map index_len frames).
Proof.
  unfold index_len at 1, concat. simpl. now rewrite length_map, length_seq.
Qed.

(** The row at position [i] of a concatenation. *)
Lemma row_concat (frames : list DataFrame) (i : nat) (r : row) :
  nth_error (rows (concat frames)) i = Some r ->
  i < list_sum (map index_len frames) /\
  r = map (fun l => nth i (unify (pieces frames l)) NaN) (union_labels frames).
Proof.
  intros H.
  assert (i < list_sum (map index_len frames)) as Hi.
  { rewrite <- index_len_concat. apply nth_error_Some. unfold index_len. congruence. }
  split; [exact Hi|].
  unfold concat in H. simpl in H.
  rewrite nth_error_map, (nth_error_seq0 _ _ Hi) in H. simpl in H.
  inversion H. now rewrite map_map.
Qed.

Lemma cell_at_concat (frames : list DataFrame) (i : nat) (l : string) :
  In l (union_labels frames) ->
  cell_at (concat frames)
          (map (fun l => nth i (unify (pieces frames l)) NaN)
               (union_labels frames)) l
  = nth i (unify (pieces frames l)) NaN.
Proof.
  intros Hin. unfold cell_at. rewrite labels_concat.
  destruct (index_of_in l _ Hin) as [k Hk]. rewrite Hk.
  apply (nth_map_label (fun l => nth i (unify (pieces frames l)) NaN)).
  exact Hk.
Qed.

(** A cell of the stack under a column that [unify] leaves as it is: the
    cell of a row of the frame the position belongs to. *)
Lemma stacked_cell (frames : list DataFrame) (l : string) (i : nat) (r : row) :
  In l (union_labels frames) ->
  unify (pieces frames l) = List.concat (pieces frames l) ->
  nth_error (rows (concat frames)) i = Some r ->
  exists j f r',
    nth_error (origins 0 frames) i = Some j /\
    nth_error frames j = Some f /\ In r' (rows f) /\
    cell_at (concat frames) r l = cell_at f r' l.
Proof.
  intros Hin Hid Hr. destruct (row_concat frames i r Hr) as [Hi ->].
  rewrite (cell_at_concat frames i l Hin), Hid.
  unfold pieces. rewrite <- flat_map_concat_map.
  assert (i < List.length (flat_map (fun f => column f l) frames)) as Hlt.
  { rewrite flat_map_concat_map. fold (pieces frames l).
    now rewrite length_concat_pieces. }
  destruct (nth_error (flat_map (fun f => column f l) frames) i) as [b|] eqn:Eb;
    [|apply nth_error_None in Eb; lia].
  rewrite (nth_error_nth _ _ NaN Eb).
  destruct (nth_stack_origin (fun f => column f l) frames
              (fun f => length_map _ _) 0 i b Eb) as (j & f & Ho & Hf & Hb).
  unfold column in Hb. apply in_map_iff in Hb as (r' & <- & Hr').
  exists j, f, r'. auto.
Qed.

(** When [unify] leaves every column as it is, the rows of the frames are
    stacked, each read on the labels of the concatenation. *)
Lemma concat_stack (frames : list DataFrame) :
  (forall l, In l (union_labels frames) ->
             unify (pieces frames l) = List.concat (pieces frames l)) ->
  rows (concat frames) =
  flat_map (fun f => map (fun r => map (cell_at f r) (union_labels frames))
                         (rows f))
           frames.
Proof.
  intros H. unfold concat. simpl rows. fold (union_labels frames).
  rewrite stack_rows, <- length_pairs.
  rewrite <- (transpose_pairs (fun x l => cell_at (fst x) (snd x) l)).
  apply map_ext. intros i. rewrite map_map. apply map_ext_in. intros l Hl.
  fold (pieces frames l). now rewrite (H l Hl), concat_pieces.
Qed.

Lemma union_same_labels (ls : list string) (f : DataFrame)
    (frames : list DataFrame) :
  NoDup ls ->
  (forall g, In g (f :: frames) -> labels g = ls) ->
  union_labels (f :: frames) = ls.
Proof.
  intros Hnd H. unfold union_labels. simpl.
  rewrite (H f (or_introl eq_refl)).
  rewrite (keep_first_app string string String.eqb (fun l => l) string_eqb_equiv).
  rewrite keep_first_id_NoDup by (auto; intros x _ []).
  rewrite (keep_first_all_seen string string String.eqb (fun l => l));
    [apply app_nil_r|].
  intros x Hx. rewrite map_id, app_nil_r. apply existsb_eqb_in.
  apply in_flat_map in Hx as (g & Hg & Hx).
  now rewrite <- (H g (or_intror Hg)).
Qed.

(** Frames that share their labels are stacked by [concat] when [unify]
    leaves their columns as they are. *)
Lemma concat_same_labels (ls : list string) (f : DataFrame)
    (frames : list DataFrame) :
  (forall g, In g (f :: frames) -> wf_frame g /\ labels g = ls) ->
  (forall l, In l ls ->
             unify (pieces (f :: frames) l) = List.concat (pieces (f :: frames) l)) ->
  rows (concat (f :: frames)) = flat_map rows (f :: frames).
Proof.
  intros H Hid.
  assert (NoDup ls) as Hnd.
  { destruct (H f (or_introl eq_refl)) as [[Hn _] <-]. exact Hn. }
  assert (union_labels (f :: frames) = ls) as Hl.
  { apply union_same_labels; [exact Hnd|]. intros g Hg. now apply H. }
  rewrite concat_stack by (rewrite Hl; exact Hid).
  rewrite Hl. apply flat_map_eq_in. intros g Hg.
  destruct (H g Hg) as [[_ Hrows] Hlg]. rewrite Forall_forall in Hrows.
  rewrite <- (map_id (rows g)) at 2. apply map_ext_in. intros r Hr.
  rewrite <- Hlg. apply reindex_same.
  - rewrite Hlg. exact Hnd.
  - now apply Hrows.
Qed.

End WithLibrary.
End ConcatFacts.

(** * Properties of merge_dataframes *)

Module MergeFacts.
Import FrameFacts Projection DedupFacts ConcatFacts.

(** The labels every projected table has under [mapping]. *)
Definition projected_labels (mapping : Dict.t string) : list string :=
  fold_left add_label (Dict.keys mapping ++ provenance_columns) [].

Lemma cell_at_labels (f g : DataFrame) (r : row) (l : string) :
  labels f = labels g -> cell_at f r l = cell_at g r l.
Proof. intros H. unfold cell_at. now rewrite H. Qed.

Lemma row_key_labels (f g : DataFrame) (subset : list string) (r : row) :
  labels f = labels g -> row_key f subset r = row_key g subset r.
Proof.
  intros H. unfold row_key. apply map_ext. intros l. now apply cell_at_labels.
Qed.

Lemma labels_remove_duplicates (f : DataFrame) :
  labels (remove_duplicates f) = labels f.
Proof.
  unfold remove_duplicates.
  now destruct (0 <? List.length (data_columns f))%nat.
Qed.

Lemma rows_remove_duplicates_in (f : DataFrame) (r : row) :
  In r (rows (remove_duplicates f)) -> In r (rows f).
Proof.
  unfold remove_duplicates.
  destruct (0 <? List.length (data_columns f))%nat; [|auto].
  simpl. apply keep_first_in.
Qed.

Lemma index_len_remove_duplicates_le (f : DataFrame) :
  index_len (remove_duplicates f) <= index_len f.
Proof.
  unfold remove_duplicates.
  destruct (0 <? List.length (data_columns f))%nat; [|lia].
  unfold index_len. simpl. apply length_keep_first.
Qed.

(** The rows that are left are rows of the frame, selected in order. *)
Lemma remove_duplicates_mask (f : DataFrame) :
  exists mask : list bool,
    List.length mask = index_len f /\
    rows (remove_duplicates f) = map snd (filter fst (combine mask (rows f))).
Proof.
  unfold remove_duplicates.
  destruct (0 <? List.length (data_columns f))%nat.
  - destruct (keep_first_mask row row row_same
                (row_key f (data_columns f)) row_same_equiv (rows f) [])
      as (mask & Hlen & Hrows & _).
    exists mask. split; [exact Hlen | exact Hrows].
  - exists (repeat true (index_len f)). split; [apply repeat_length|].
    symmetry. apply mask_all.
Qed.

Lemma column_setitem_scalar_other (b : DataFrame) (key l : string) (v : cell) :
  wf_frame b -> l <> key -> column (setitem_scalar b key v) l = column b l.
Proof.
  intros [_ Hrows] Hne. unfold column.
  rewrite rows_setitem_scalar, map_map. apply map_ext_in. intros r Hr.
  apply (cell_at_upd_other b key l); [exact Hne|].
  rewrite Forall_forall in Hrows. now apply Hrows.
Qed.

Lemma provenance_in_projected (mapping : Dict.t string) (l : string) :
  is_provenance l = true -> In l (projected_labels mapping).
Proof.
  intros H. apply in_fold_add_label. right. apply in_app_iff. right.
  now apply is_provenance_iff.
Qed.

Section WithLibrary.
Context `{L : Library}.

Lemma project_all_inv (clock : nat -> Z) (mapping : Dict.t string)
    (infos : list DataInfo) :
  forall tick frames,
    project_all clock tick infos mapping = Ok frames ->
    List.length frames = List.length infos /\
    forall j info,
      nth_error infos j = Some info ->
      exists f, nth_error frames j = Some f /\
                project (clock (tick + j)) info mapping = Ok f.
Proof.
  induction infos as [|info0 infos IH]; intros tick frames; simpl.
  - intros E; inversion E; subst. split; [reflexivity|].
    intros [|j] info H; discriminate.
  - destruct (project (clock tick) info0 mapping) as [f0|e] eqn:Hf0; simpl;
      [|discriminate].
    destruct (project_all clock (S tick) infos mapping) as [fs|e] eqn:Hok; simpl;
      [|discriminate].
    intros E; inversion E; subst frames.
    destruct (IH (S tick) fs Hok) as (Hlen & Hnth).
    split; [simpl; congruence|].
    intros [|j] info Hj; simpl in *.
    + inversion Hj; subst. exists f0. now rewrite Nat.add_0_r.
    + destruct (Hnth j info Hj) as (f & Hf & Hp). exists f.
      split; [exact Hf|]. now rewrite Nat.add_succ_r.
Qed.

(** The loop does not raise when the labels of every table are pairwise
    distinct. *)
Lemma project_all_total (clock : nat -> Z) (mapping : Dict.t string)
    (infos : list DataInfo) :
  Forall (fun info => NoDup (labels (dataframe info))) infos ->
  forall tick, exists frames, project_all clock tick infos mapping = Ok frames.
Proof.
  induction 1 as [|info0 infos Hnd _ IH]; intros tick; simpl; [eauto|].
  destruct (project_total (clock tick) info0 mapping Hnd) as [f0 ->].
  destruct (IH (S tick)) as [fs ->]. simpl. eauto.
Qed.

(** Every frame of [merged_data] is the projection of the table at the
    same position, at the clock reading of that iteration. *)
Lemma project_all_nth (clock : nat -> Z) (tick : nat) (infos : list DataInfo)
    (mapping : Dict.t string) (frames : list DataFrame) (j : nat)
    (f : DataFrame) :
  project_all clock tick infos mapping = Ok frames ->
  nth_error frames j = Some f ->
  exists info,
    nth_error infos j = Some info /\
    project (clock (tick + j)) info mapping = Ok f.
Proof.
  intros Hok Hj.
  destruct (project_all_inv clock mapping infos tick frames Hok) as (Hlen & Hnth).
  assert (j < List.length infos) as Hlt.
  { rewrite <- Hlen. apply nth_error_Some. congruence. }
  destruct (nth_error infos j) as [info|] eqn:Ei;
    [|apply nth_error_None in Ei; lia].
  destruct (Hnth j info Ei) as (f' & Hf' & Hp).
  exists info. split; [reflexivity|]. congruence.
Qed.

Lemma project_all_in (clock : nat -> Z) (tick : nat) (infos : list DataInfo)
    (mapping : Dict.t string) (frames : list DataFrame) (f : DataFrame) :
  project_all clock tick infos mapping = Ok frames ->
  In f frames ->
  exists j info,
    nth_error infos j = Some info /\
    project (clock (tick + j)) info mapping = Ok f.
Proof.
  intros Hok Hin. apply In_nth_error in Hin as [j Hj].
  destruct (project_all_nth _ _ _ _ _ _ _ Hok Hj) as (info & Hi & Hp).
  eauto.
Qed.

Lemma project_all_frames (clock : nat -> Z) (tick : nat)
    (infos : list DataInfo) (mapping : Dict.t string)
    (frames : list DataFrame) :
  project_all clock tick infos mapping = Ok frames ->
  forall g, In g frames -> wf_frame g /\ labels g = projected_labels mapping.
Proof.
  intros Hok g Hg.
  destruct (project_all_in _ _ _ _ _ _ Hok Hg) as (j & info & _ & Hp).
  split; [eapply project_wf; eauto | eapply project_labels; eauto].
Qed.

Lemma projected_labels_NoDup (clock : nat -> Z) (tick : nat)
    (infos : list DataInfo) (mapping : Dict.t string)
    (f : DataFrame) (frames : list DataFrame) :
  project_all clock tick infos mapping = Ok (f :: frames) ->
  NoDup (projected_labels mapping).
Proof.
  intros Hok.
  destruct (project_all_frames _ _ _ _ _ Hok f (or_introl eq_refl))
    as [[Hnd _] <-].
  exact Hnd.
Qed.

(** The labels of the stacked table. *)
Lemma labels_concat_projected (clock : nat -> Z) (tick : nat)
    (infos : list DataInfo) (mapping : Dict.t string)
    (f : DataFrame) (frames : list DataFrame) :
  project_all clock tick infos mapping = Ok (f :: frames) ->
  labels (concat (f :: frames)) = projected_labels mapping.
Proof.
  intros Hok. rewrite labels_concat. apply union_same_labels.
  - eapply projected_labels_NoDup; eauto.
  - intros g Hg. now apply (project_all_frames _ _ _ _ _ Hok).
Qed.

(** The three provenance cells of every row of a projected table. *)
Lemma project_row_provenance (now : Z) (info : DataInfo)
    (mapping : Dict.t string) (f : DataFrame) (r : row) :
  project now info mapping = Ok f ->
  In r (rows f) ->
  cell_at f r "merge_timestamp" = CTime now /\
  cell_at f r "source_sheet" = CStr (sheet_name info) /\
  cell_at f r "source_file" = CStr (path_name (file_path info)).
Proof.
  intros E Hr.
  destruct (project_inv now info mapping f E)
    as (sdf & _ & Hwf & _ & _ & _ & ->).
  set (f1 := setitem_scalar sdf "source_file"
                            (CStr (path_name (file_path info)))) in *.
  set (f2 := setitem_scalar f1 "source_sheet" (CStr (sheet_name info))) in *.
  assert (wf_frame f1) as Hwf1 by now apply wf_setitem_scalar.
  assert (wf_frame f2) as Hwf2 by now apply wf_setitem_scalar.
  rewrite rows_setitem_scalar in Hr.
  apply in_map_iff in Hr as (r2 & <- & Hr2).
  assert (List.length r2 = List.length (labels f2)) as Hl2.
  { destruct Hwf2 as [_ H]. rewrite Forall_forall in H. now apply H. }
  unfold f2 in Hr2. rewrite rows_setitem_scalar in Hr2.
  apply in_map_iff in Hr2 as (r1 & <- & Hr1).
  assert (List.length r1 = List.length (labels f1)) as Hl1.
  { destruct Hwf1 as [_ H]. rewrite Forall_forall in H. now apply H. }
  unfold f1 in Hr1. rewrite rows_setitem_scalar in Hr1.
  apply in_map_iff in Hr1 as (r0 & <- & Hr0).
  assert (List.length r0 = List.length (labels sdf)) as Hl0.
  { destruct Hwf as [_ H]. rewrite Forall_forall in H. now apply H. }
  subst f1 f2. unfold setitem_scalar in *. split_all.
  - now apply cell_at_upd_same.
  - rewrite cell_at_upd_other by (auto; discriminate).
    now apply cell_at_upd_same.
  - rewrite cell_at_upd_other by (auto; discriminate).
    rewrite cell_at_upd_other by (auto; discriminate).
    now apply cell_at_upd_same.
Qed.

(** The provenance columns hold texts and dates: [unify] leaves them as
    they are. *)
Lemma provenance_unify (clock : nat -> Z) (tick : nat)
    (infos : list DataInfo) (mapping : Dict.t string)
    (frames : list DataFrame) (l : string) :
  project_all clock tick infos mapping = Ok frames ->
  is_provenance l = true ->
  unify (pieces frames l) = List.concat (pieces frames l).
Proof.
  intros Hok Hl. apply unify_plain.
  apply forallb_forall. intros piece Hp.
  apply in_map_iff in Hp as (f & <- & Hf).
  apply forallb_forall. intros c Hc.
  apply in_map_iff in Hc as (r & <- & Hr).
  destruct (project_all_in _ _ _ _ _ _ Hok Hf) as (j & info & _ & Hp).
  destruct (project_row_provenance _ _ _ _ _ Hp Hr) as (Ht & Hs & Hn).
  apply is_provenance_iff in Hl.
  destruct Hl as [<-|[<-|[<-|[]]]]; [rewrite Hn | rewrite Hs | rewrite Ht];
    reflexivity.
Qed.

(** Every row of the stacked table carries the provenance of the table
    its position belongs to. *)
Lemma concat_provenance (clock : nat -> Z) (tick : nat)
    (infos : list DataInfo) (mapping : Dict.t string)
    (f0 : DataFrame) (frames : list DataFrame) (i : nat) (r : row) :
  project_all clock tick infos mapping = Ok (f0 :: frames) ->
  nth_error (rows (concat (f0 :: frames))) i = Some r ->
  exists j info,
    nth_error (origins 0 (f0 :: frames)) i = Some j /\
    nth_error infos j = Some info /\
    cell_at (concat (f0 :: frames)) r "merge_timestamp"
    = CTime (clock (tick + j)) /\
    cell_at (concat (f0 :: frames)) r "source_sheet" = CStr (sheet_name info) /\
    cell_at (concat (f0 :: frames)) r "source_file"
    = CStr (path_name (file_path info)).
Proof.
  intros Hok Hr.
  assert (forall l, is_provenance l = true ->
            exists j f r',
              nth_error (origins 0 (f0 :: frames)) i = Some j /\
              nth_error (f0 :: frames) j = Some f /\ In r' (rows f) /\
              cell_at (concat (f0 :: frames)) r l = cell_at f r' l) as H.
  { intros l Hl. apply stacked_cell; [| |exact Hr].
    - rewrite <- labels_concat, (labels_concat_projected _ _ _ _ _ _ Hok).
      now apply provenance_in_projected.
    - eapply provenance_unify; eauto. }
  destruct (H "merge_timestamp" eq_refl) as (j & f & r1 & Ho & Hf & Hr1 & E1).
  destruct (H "source_sheet" eq_refl) as (j2 & f2 & r2 & Ho2 & Hf2 & Hr2 & E2).
  destruct (H "source_file" eq_refl) as (j3 & f3 & r3 & Ho3 & Hf3 & Hr3 & E3).
  assert (j2 = j) by congruence. assert (j3 = j) by congruence. subst j2 j3.
  assert (f2 = f) by congruence. assert (f3 = f) by congruence. subst f2 f3.
  destruct (project_all_nth _ _ _ _ _ _ _ Hok Hf) as (info & Hi & Hp).
  exists j, info. split; [exact Ho|]. split; [exact Hi|].
  rewrite E1, E2, E3.
  destruct (project_row_provenance _ _ _ _ _ Hp Hr1) as (Ht & _ & _).
  destruct (project_row_provenance _ _ _ _ _ Hp Hr2) as (_ & Hs & _).
  destruct (project_row_provenance _ _ _ _ _ Hp Hr3) as (_ & _ & Hn).
  auto.
Qed.

Lemma concat_projected_none (clock : nat -> Z) (tick : nat)
    (mapping : Dict.t string) :
  concat_projected clock tick [] mapping = Ok None.
Proof. reflexivity. Qed.

(** What a merge of at least one table that does not raise is made of. *)
Lemma merge_inv (clock : nat -> Z) (tick : nat) (infos : list DataInfo)
    (mapping : Dict.t string) (master : DataFrame) :
  infos <> [] ->
  merge_dataframes clock tick infos mapping = Ok master ->
  exists f frames,
    project_all clock tick infos mapping = Ok (f :: frames) /\
    concat_projected clock tick infos mapping = Ok (Some (concat (f :: frames))) /\
    master = remove_duplicates (concat (f :: frames)) /\
    labels (concat (f :: frames)) = projected_labels mapping.
Proof.
  intros Hne. unfold merge_dataframes, concat_projected.
  destruct (project_all clock tick infos mapping) as [frames|e] eqn:Hok; simpl;
    [|discriminate].
  destruct frames as [|f frames].
  - destruct (project_all_inv _ _ _ _ _ Hok) as [Hlen _].
    destruct infos; [contradiction | discriminate].
  - intros E; inversion E; subst. exists f, frames.
    split_all; auto. eapply labels_concat_projected; eauto.
Qed.

(** The merge does not raise when the labels of every table are pairwise
    distinct. *)
Lemma merge_total (clock : nat -> Z) (tick : nat) (infos : list DataInfo)
    (mapping : Dict.t string) :
  Forall (fun info => NoDup (labels (dataframe info))) infos ->
  exists master, merge_dataframes clock tick infos mapping = Ok master.
Proof.
  intros Hnd. unfold merge_dataframes, concat_projected.
  destruct (project_all_total clock mapping infos Hnd tick) as [frames ->].
  simpl. destruct frames; simpl; eauto.
Qed.

End WithLibrary.
End MergeFacts.

(** Decide that the labels of concrete tables are pairwise distinct. *)
Ltac distinct_labels :=
  vm_compute;
  repeat first [ apply Forall_nil | apply Forall_cons
               | apply NoDup_nil | apply NoDup_cons ];
  simpl; intuition discriminate.

Module MergeClaims.
Import FrameFacts Projection DedupFacts ConcatFacts MergeFacts Scenario.

(** The data columns of every frame projected under [mapping]. *)
Definition data_of (mapping : Dict.t string) : list string :=
  filter (fun c => negb (is_provenance c)) (projected_labels mapping).

Lemma data_of_nonempty (mapping : Dict.t string) :
  (exists k, In k (Dict.keys mapping) /\ is_provenance k = false) ->
  (0 <? List.length (data_of mapping))%nat = true.
Proof.
  intros (k & Hk & Hp). apply Nat.ltb_lt.
  assert (In k (data_of mapping)) as Hin.
  { apply filter_In. split; [|now rewrite Hp].
    apply in_fold_add_label. right. apply in_app_iff. now left. }
  destruct (data_of mapping); [destruct Hin | simpl; lia].
Qed.

Lemma data_of_not_provenance (mapping : Dict.t string) (l : string) :
  In l (data_of mapping) -> is_provenance l = false.
Proof.
  intros H. apply filter_In in H as [_ H]. now apply negb_true_iff in H.
Qed.

(** The keys of the rows [drop_duplicates] keeps: the first occurrences
    among the keys of the rows it is given. *)
Lemma dedup_keys (pre : DataFrame) (d : list string) :
  map (row_key (drop_duplicates pre d) d) (rows (drop_duplicates pre d)) =
  keep_first_by row_same (fun k => k) [] (map (row_key pre d) (rows pre)).
Proof.
  simpl rows.
  rewrite (map_ext (row_key (drop_duplicates pre d) d) (row_key pre d))
    by (intros r; now apply row_key_labels).
  apply keep_first_map_key.
Qed.

Section WithLibrary.
Context `{L : Library}.

(** With a table and a data column, a merge that does not raise is the
    first-occurrence filter of the stacked projections. *)
Lemma merged_dedup (clock : nat -> Z) (tick : nat) (infos : list DataInfo)
    (mapping : Dict.t string) (master : DataFrame) :
  infos <> [] ->
  (exists k, In k (Dict.keys mapping) /\ is_provenance k = false) ->
  merge_dataframes clock tick infos mapping = Ok master ->
  exists f frames,
    project_all clock tick infos mapping = Ok (f :: frames) /\
    concat_projected clock tick infos mapping
    = Ok (Some (concat (f :: frames))) /\
    labels (concat (f :: frames)) = projected_labels mapping /\
    master = drop_duplicates (concat (f :: frames)) (data_of mapping) /\
    data_columns (concat (f :: frames)) = data_of mapping /\
    data_columns master = data_of mapping.
Proof.
  intros Hne Hk Hm.
  destruct (merge_inv clock tick infos mapping master Hne Hm)
    as (f & frames & Hok & Hc & -> & Hl).
  assert (data_columns (concat (f :: frames)) = data_of mapping) as Hd.
  { unfold data_columns, data_of. now rewrite Hl. }
  assert (remove_duplicates (concat (f :: frames))
          = drop_duplicates (concat (f :: frames)) (data_of mapping)) as Hrd.
  { unfold remove_duplicates. now rewrite Hd, (data_of_nonempty mapping Hk). }
  exists f, frames. rewrite Hrd. split_all; auto.
Qed.

(** C5 (amended): the loop projects the j-th table in its own iteration,
    which reads the clock once, so the frame of the j-th table is projected
    at reading tick + j.  Every row of the stacked table lies in the block
    of one table: it carries the reading of that table's iteration as
    merge_timestamp, with the base name of the file and the name of the
    sheet of that table, so rows of one table share their timestamp and
    rows of different tables carry the readings of different iterations.
    The merged table has the labels of the stacked table and consists of
    rows of it, in their order. *)
Theorem C5_timestamp_per_table (clock : nat -> Z) (tick : nat)
    (infos : list DataInfo) (mapping : Dict.t string) (master : DataFrame) :
  merge_dataframes clock tick infos mapping = Ok master ->
  exists frames pre mask,
    project_all clock tick infos mapping = Ok frames /\
    (forall j info,
        nth_error infos j = Some info ->
        exists f, nth_error frames j = Some f /\
                  project (clock (tick + j)) info mapping = Ok f) /\
    (infos <> [] ->
     concat_projected clock tick infos mapping = Ok (Some pre)) /\
    index_len pre = List.length (origins 0 frames) /\
    (forall i r,
        nth_error (rows pre) i = Some r ->
        exists j info,
          nth_error (origins 0 frames) i = Some j /\
          nth_error infos j = Some info /\
          cell_at pre r "merge_timestamp" = CTime (clock (tick + j)) /\
          cell_at pre r "source_sheet" = CStr (sheet_name info) /\
          cell_at pre r "source_file" = CStr (path_name (file_path info))) /\
    (forall i i' r r',
        nth_error (rows pre) i = Some r ->
        nth_error (rows pre) i' = Some r' ->
        nth_error (origins 0 frames) i = nth_error (origins 0 frames) i' ->
        cell_at pre r "merge_timestamp" = cell_at pre r' "merge_timestamp") /\
    labels master = labels pre /\
    List.length mask = index_len pre /\
    rows master = map snd (filter fst (combine mask (rows pre))).
Proof.
  intros Hm. destruct infos as [|info0 infos'].
  - inversion Hm; subst. exists [], empty_frame, [].
    split_all; try reflexivity.
    + intros [|j] info H; discriminate.
    + intros H. now contradiction H.
    + intros [|i] r H; discriminate.
  - destruct (merge_inv clock tick (info0 :: infos') mapping master)
      as (f & frames & Hok & Hc & -> & Hl); [discriminate | exact Hm |].
    destruct (remove_duplicates_mask (concat (f :: frames)))
      as (mask & Hlen & Hrows).
    exists (f :: frames), (concat (f :: frames)), mask. split_all.
    + exact Hok.
    + apply (project_all_inv _ _ _ _ _ Hok).
    + intros _. exact Hc.
    + now rewrite index_len_concat, length_origins.
    + intros i r Hr. eapply concat_provenance; eauto.
    + intros i i' r r' Hr Hr' Ho.
      destruct (concat_provenance _ _ _ _ _ _ _ _ Hok Hr)
        as (j & _ & Hj & _ & -> & _).
      destruct (concat_provenance _ _ _ _ _ _ _ _ Hok Hr')
        as (j' & _ & Hj' & _ & -> & _).
      rewrite Hj, Hj' in Ho. now inversion Ho.
    + apply labels_remove_duplicates.
    + exact Hlen.
    + exact Hrows.
Qed.

End WithLibrary.

(** The merge of the sheets of [wb_remarks] and [wb_trucks] under their
    mapping, with the clock [ticking]. *)
Definition merged_remarks_trucks : DataFrame :=
  mkFrame
    ["remarks"; "truck"; "location"; "status"; "source_file"; "source_sheet";
     "merge_timestamp"]
    [[CStr "late"; CStr "T2"; NaN; NaN; CStr "remarks.xlsx"; CStr "Log";
      CTime 1000];
     [CStr "ok"; CStr "T3"; NaN; NaN; CStr "remarks.xlsx"; CStr "Log";
      CTime 1000];
     [NaN; CStr "T1"; CStr "A"; CStr "OK"; CStr "trucks.xlsx"; CStr "Sheet1";
      CTime 1001]].

(** The mapping of the sheets of [wb_remarks] and [wb_trucks]. *)
Definition mapping_remarks_trucks : Dict.t string :=
  [("remarks", "remarks"); ("truck", "Truck");
   ("location", "GPS Location"); ("status", "Status")].

Lemma C5_timestamp_per_table_witness :
  exists frames pre mask,
    project_all ticking 0 (extract_dataframes [wb_remarks; wb_trucks])
                mapping_remarks_trucks = Ok frames /\
    (forall j info,
        nth_error (extract_dataframes [wb_remarks; wb_trucks]) j = Some info ->
        exists f, nth_error frames j = Some f /\
                  project (ticking (0 + j)) info mapping_remarks_trucks = Ok f) /\
    (extract_dataframes [wb_remarks; wb_trucks] <> [] ->
     concat_projected ticking 0 (extract_dataframes [wb_remarks; wb_trucks])
                      mapping_remarks_trucks = Ok (Some pre)) /\
    index_len pre = List.length (origins 0 frames) /\
    (forall i r,
        nth_error (rows pre) i = Some r ->
        exists j info,
          nth_error (origins 0 frames) i = Some j /\
          nth_error (extract_dataframes [wb_remarks; wb_trucks]) j = Some info /\
          cell_at pre r "merge_timestamp" = CTime (ticking (0 + j)) /\
          cell_at pre r "source_sheet" = CStr (sheet_name info) /\
          cell_at pre r "source_file" = CStr (path_name (file_path info))) /\
    (forall i i' r r',
        nth_error (rows pre) i = Some r ->
        nth_error (rows pre) i' = Some r' ->
        nth_error (origins 0 frames) i = nth_error (origins 0 frames) i' ->
        cell_at pre r "merge_timestamp" = cell_at pre r' "merge_timestamp") /\
    labels merged_remarks_trucks = labels pre /\
    List.length mask = index_len pre /\
    rows merged_remarks_trucks = map snd (filter fst (combine mask (rows pre))).
Proof.
  apply (C5_timestamp_per_table ticking 0
           (extract_dataframes [wb_remarks; wb_trucks])
           mapping_remarks_trucks merged_remarks_trucks).
  reflexivity.
Defined.

(** C5 as stated fails: in one run over the sheets of [wb_remarks] and
    [wb_trucks] with a clock that advances, the rows of the first table
    carry the reading 1000 and the row of the second the reading 1001.
    This holds whatever the library. *)
Lemma C5_counterexample_two_tables :
  (forall L : Library,
      create_column_mapping nodup_order
                            (extract_dataframes [wb_remarks; wb_trucks])
      = Ok mapping_remarks_trucks /\
      merge_excel_files nodup_order ticking export_ok [wb_remarks; wb_trucks]
      = Ok (Merged merged_remarks_trucks (mkSummary 2 2 3 3 7 1002))) /\
  (forall L : Library,
      ~ (forall (so : SetOrder) (clock : nat -> Z)
                (export : DataFrame -> Summary -> Dict.t string -> result unit)
                (files : list Workbook) (master : DataFrame)
                (summary : Summary),
            merge_excel_files so clock export files
            = Ok (Merged master summary) ->
            forall r1 r2,
              In r1 (rows master) -> In r2 (rows master) ->
              cell_at master r1 "merge_timestamp"
              = cell_at master r2 "merge_timestamp")).
Proof.
  split.
  - intros L. to_plain L. split; reflexivity.
  - intros L H.
    assert (merge_excel_files nodup_order ticking export_ok
                              [wb_remarks; wb_trucks]
            = Ok (Merged merged_remarks_trucks (mkSummary 2 2 3 3 7 1002)))
      as Hrun by (to_plain L; reflexivity).
    specialize (H nodup_order ticking export_ok [wb_remarks; wb_trucks]
                  merged_remarks_trucks (mkSummary 2 2 3 3 7 1002) Hrun
                  [CStr "late"; CStr "T2"; NaN; NaN; CStr "remarks.xlsx";
                   CStr "Log"; CTime 1000]
                  [NaN; CStr "T1"; CStr "A"; CStr "OK"; CStr "trucks.xlsx";
                   CStr "Sheet1"; CTime 1001]).
    discriminate H; simpl; auto.
Qed.

Section WithLibrary.
Context `{L : Library}.

(** C6 (amended): when at least one table is merged, the cleaned column
    names of every table are pairwise distinct and the mapping has a key
    that is not a provenance label, the merge does not raise and the merged
    table is the stacked table filtered by first occurrence: the row at
    position i of the stack is kept exactly when no row before it has equal
    values on all non-provenance columns (so of two rows that differ in
    provenance only the earlier one survives), the kept rows stay in order,
    and no two rows of the result have equal values on all non-provenance
    columns.  Values are equal as [drop_duplicates] compares them: missing
    equals missing, TRUE equals 1. *)
Theorem C6_first_occurrence_survives (clock : nat -> Z) (tick : nat)
    (infos : list DataInfo) (mapping : Dict.t string) :
  Forall (fun info => NoDup (labels (dataframe info))) infos ->
  infos <> [] ->
  (exists k, In k (Dict.keys mapping) /\ is_provenance k = false) ->
  exists pre master mask,
    concat_projected clock tick infos mapping = Ok (Some pre) /\
    merge_dataframes clock tick infos mapping = Ok master /\
    labels master = labels pre /\
    List.length mask = index_len pre /\
    rows master = map snd (filter fst (combine mask (rows pre))) /\
    (forall i r,
        nth_error (rows pre) i = Some r ->
        (nth_error mask i = Some true <->
         forall j r',
           j < i -> nth_error (rows pre) j = Some r' ->
           row_same (row_key pre (data_columns pre) r')
                    (row_key pre (data_columns pre) r) = false)) /\
    (forall i j r r',
        i < j ->
        nth_error (rows master) i = Some r ->
        nth_error (rows master) j = Some r' ->
        row_same (row_key master (data_columns master) r)
                 (row_key master (data_columns master) r') = false) /\
    (forall a b,
        same a b = true <->
        match as_number a, as_number b with
        | Some x, Some y => (x == y)%Q
        | None, None => a = b
        | _, _ => False
        end).
Proof.
  intros Hnd Hne Hk.
  destruct (merge_total clock tick infos mapping Hnd) as [master Hm].
  destruct (merged_dedup clock tick infos mapping master Hne Hk Hm)
    as (f & frames & _ & Hc & _ & Hmaster & Hd & Hd').
  set (pre := concat (f :: frames)) in *.
  destruct (keep_first_mask row row row_same
              (row_key pre (data_of mapping)) row_same_equiv (rows pre) [])
    as (mask & Hlen & Hrows & Hmask).
  exists pre, master, mask.
  split; [exact Hc|]. split; [exact Hm|].
  split; [now subst master|]. split; [exact Hlen|].
  split; [subst master; exact Hrows|]. split; [|split; [|exact same_spec]].
  - intros i r Hi. rewrite Hd, (Hmask i r Hi). split.
    + intros [_ H]. exact H.
    + intros H. split; [reflexivity | exact H].
  - intros i j r r' Hij Hi Hj. rewrite Hd'. subst master. simpl in Hi, Hj.
    rewrite !(row_key_labels (drop_duplicates pre (data_of mapping)) pre)
      by reflexivity.
    exact (keep_first_distinct row row row_same
             (row_key pre (data_of mapping)) row_same_equiv (rows pre) []
             i j r r' Hij Hi Hj).
Qed.

End WithLibrary.

Lemma C6_first_occurrence_survives_witness :
  exists pre master mask,
    concat_projected ticking 0 (extract_dataframes [wb_trucks; wb_vehicles])
      [("truck", "Truck#"); ("location", "GPS Location");
       ("status", "Status")] = Ok (Some pre) /\
    merge_dataframes ticking 0 (extract_dataframes [wb_trucks; wb_vehicles])
      [("truck", "Truck#"); ("location", "GPS Location");
       ("status", "Status")] = Ok master /\
    labels master = labels pre /\
    List.length mask = index_len pre /\
    rows master = map snd (filter fst (combine mask (rows pre))) /\
    (forall i r,
        nth_error (rows pre) i = Some r ->
        (nth_error mask i = Some true <->
         forall j r',
           j < i -> nth_error (rows pre) j = Some r' ->
           row_same (row_key pre (data_columns pre) r')
                    (row_key pre (data_columns pre) r) = false)) /\
    (forall i j r r',
        i < j ->
        nth_error (rows master) i = Some r ->
        nth_error (rows master) j = Some r' ->
        row_same (row_key master (data_columns master) r)
                 (row_key master (data_columns master) r') = false) /\
    (forall a b,
        same a b = true <->
        match as_number a, as_number b with
        | Some x, Some y => (x == y)%Q
        | None, None => a = b
        | _, _ => False
        end).
Proof.
  apply (C6_first_occurrence_survives ticking 0
           (extract_dataframes [wb_trucks; wb_vehicles])
           [("truck", "Truck#"); ("location", "GPS Location");
            ("status", "Status")]).
  - distinct_labels.
  - discriminate.
  - exists "truck". split; [simpl; auto | reflexivity].
Defined.

(** C6 as stated fails: the sheet of [wb_prov] has the single column
    source_file, so the merged table has no non-provenance column, the test
    [len(data_columns) > 0] skips drop_duplicates, and both rows stay
    although they agree on all (zero) non-provenance fields.  This holds
    whatever the library. *)
Lemma C6_counterexample_no_data_column :
  (forall L : Library,
      merge_excel_files nodup_order ticking export_ok [wb_prov]
      = Ok (Merged
              (mkFrame ["source_file"; "source_sheet"; "merge_timestamp"]
                       [[CStr "old_master.xlsx"; CStr "Master_Data"; CTime 1000];
                        [CStr "old_master.xlsx"; CStr "Master_Data"; CTime 1000]])
              (mkSummary 1 1 2 2 3 1001))) /\
  (forall L : Library,
      ~ (forall (so : SetOrder) (clock : nat -> Z)
                (export : DataFrame -> Summary -> Dict.t string -> result unit)
                (files : list Workbook) (master : DataFrame)
                (summary : Summary),
            merge_excel_files so clock export files
            = Ok (Merged master summary) ->
            forall i j r r',
              i < j ->
              nth_error (rows master) i = Some r ->
              nth_error (rows master) j = Some r' ->
              row_same (row_key master (data_columns master) r)
                       (row_key master (data_columns master) r') = false)).
Proof.
  split.
  - intros L. to_plain L. reflexivity.
  - intros L H.
    assert (merge_excel_files nodup_order ticking export_ok [wb_prov]
            = Ok (Merged
                    (mkFrame ["source_file"; "source_sheet"; "merge_timestamp"]
                       [[CStr "old_master.xlsx"; CStr "Master_Data"; CTime 1000];
                        [CStr "old_master.xlsx"; CStr "Master_Data"; CTime 1000]])
                    (mkSummary 1 1 2 2 3 1001)))
      as Hrun by (to_plain L; reflexivity).
    specialize (H nodup_order ticking export_ok [wb_prov] _ _ Hrun
                  0 1 _ _ (Nat.lt_0_1) eq_refl eq_refl).
    discriminate H.
Qed.

(** In the sheet of [wb_flags] the cell TRUE comes after the cell 1: it
    is a duplicate of it and is dropped, whatever the library. *)
Example true_is_a_duplicate_of_one :
  forall L : Library,
    merge_excel_files nodup_order ticking export_ok [wb_flags]
    = Ok (Merged
            (mkFrame ["load"; "source_file"; "source_sheet"; "merge_timestamp"]
                     [[CNum 1%Q; CStr "flags.xlsx"; CStr "Sheet1"; CTime 1000];
                      [CNum 2%Q; CStr "flags.xlsx"; CStr "Sheet1"; CTime 1000]])
            (mkSummary 1 1 3 2 4 1001)).
Proof.
  intros L.
  rewrite (Plain.merge_excel_files_single nodup_order ticking export_ok
             [wb_flags] (info_of (L := plain_library) wb_flags)
             eq_refl eq_refl eq_refl).
  reflexivity.
Qed.

Section WithLibrary.
Context `{L : Library}.

(** The data fields of the rows of a projection do not depend on the
    clock reading. *)
Lemma project_data_column (info : DataInfo) (mapping : Dict.t string)
    (now now' : Z) (f f' : DataFrame) (l : string) :
  project now info mapping = Ok f ->
  project now' info mapping = Ok f' ->
  l <> "merge_timestamp" ->
  column f l = column f' l.
Proof.
  intros E E' Hl.
  destruct (project_inv now info mapping f E)
    as (sdf & Hsdf & Hwf & _ & _ & _ & ->).
  destruct (project_inv now' info mapping f' E')
    as (sdf' & Hsdf' & _ & _ & _ & _ & ->).
  rewrite Hsdf in Hsdf'. inversion Hsdf'; subst sdf'; clear Hsdf'.
  rewrite !(column_setitem_scalar_other _ "merge_timestamp" l);
    auto; now repeat apply wf_setitem_scalar.
Qed.

Lemma project_data_keys (info : DataInfo) (mapping : Dict.t string)
    (now now' : Z) (f f' : DataFrame) :
  project now info mapping = Ok f ->
  project now' info mapping = Ok f' ->
  map (row_key f (data_of mapping)) (rows f) =
  map (row_key f' (data_of mapping)) (rows f').
Proof.
  intros E E'.
  destruct (project_inv now info mapping f E)
    as (sdf & Hsdf & Hwf & _ & _ & _ & ->).
  destruct (project_inv now' info mapping f' E')
    as (sdf' & Hsdf' & _ & _ & _ & _ & ->).
  rewrite Hsdf in Hsdf'. inversion Hsdf'; subst sdf'; clear Hsdf'.
  set (b := setitem_scalar
              (setitem_scalar sdf "source_file"
                              (CStr (path_name (file_path info))))
              "source_sheet" (CStr (sheet_name info))).
  assert (wf_frame b) as Hwfb by now repeat apply wf_setitem_scalar.
  assert (forall v,
             map (row_key (setitem_scalar b "merge_timestamp" v)
                          (data_of mapping))
                 (rows (setitem_scalar b "merge_timestamp" v))
             = map (row_key b (data_of mapping)) (rows b)) as Hindep.
  { intros v. rewrite rows_setitem_scalar, map_map.
    apply map_ext_in. intros r Hr. unfold row_key.
    apply map_ext_in. intros l Hl.
    apply (cell_at_upd_other b "merge_timestamp" l).
    - intros ->. apply data_of_not_provenance in Hl. discriminate Hl.
    - destruct Hwfb as [_ H]. rewrite Forall_forall in H. now apply H. }
  now rewrite !Hindep.
Qed.

(** C7 (amended): for every table whose cleaned column names are pairwise
    distinct and every mapping with at least one key that is not a
    provenance label, merging the table twice gives the same labels and the
    same sequence of non-provenance rows as merging it once, whatever the
    clock reads. *)
Theorem C7_merge_twice_same_data (clock clock' : nat -> Z) (tick tick' : nat)
    (info : DataInfo) (mapping : Dict.t string) :
  NoDup (labels (dataframe info)) ->
  (exists k, In k (Dict.keys mapping) /\ is_provenance k = false) ->
  exists m2 m1,
    merge_dataframes clock tick [info; info] mapping = Ok m2 /\
    merge_dataframes clock' tick' [info] mapping = Ok m1 /\
    labels m2 = labels m1 /\
    map (row_key m2 (data_columns m2)) (rows m2) =
    map (row_key m1 (data_columns m1)) (rows m1).
Proof.
  intros Hnd Hk.
  destruct (merge_total clock tick [info; info] mapping) as [m2 Hm2];
    [repeat constructor; exact Hnd|].
  destruct (merge_total clock' tick' [info] mapping) as [m1 Hm1];
    [repeat constructor; exact Hnd|].
  exists m2, m1. split; [exact Hm2|]. split; [exact Hm1|].
  destruct (merged_dedup clock tick [info; info] mapping m2)
    as (a & fs2 & Hok2 & _ & Hl2 & -> & _ & Hd2);
    [discriminate | exact Hk | exact Hm2 |].
  destruct (merged_dedup clock' tick' [info] mapping m1)
    as (c & fs1 & Hok1 & _ & Hl1 & -> & _ & Hd1);
    [discriminate | exact Hk | exact Hm1 |].
  split; [exact (eq_trans Hl2 (eq_sym Hl1))|].
  rewrite Hd2, Hd1, !dedup_keys.
  destruct (project_all_inv clock mapping [info; info] tick (a :: fs2) Hok2)
    as (Hlen2 & Hnth2).
  destruct (project_all_inv clock' mapping [info] tick' (c :: fs1) Hok1)
    as (Hlen1 & Hnth1).
  destruct fs2 as [|b [|? ?]]; try discriminate Hlen2.
  destruct fs1 as [|? ?]; try discriminate Hlen1.
  destruct (Hnth2 0 info eq_refl) as (a' & Ea & Ha).
  destruct (Hnth2 1 info eq_refl) as (b' & Eb & Hb).
  destruct (Hnth1 0 info eq_refl) as (c' & Ec & Hc).
  simpl in Ea, Eb, Ec. inversion Ea; inversion Eb; inversion Ec.
  subst a' b' c'. clear Ea Eb Ec.
  pose proof (project_all_frames _ _ _ _ _ Hok2) as Hfr2.
  pose proof (project_all_frames _ _ _ _ _ Hok1) as Hfr1.
  assert (rows (concat [a; b]) = flat_map rows [a; b]) as Hr2.
  { apply (concat_same_labels (projected_labels mapping) a [b] Hfr2).
    intros l Hl. destruct (is_provenance l) eqn:Ep.
    - eapply provenance_unify; eauto.
    - unfold pieces. simpl.
      rewrite (project_data_column info mapping _ _ a b l Ha Hb)
        by (intros ->; discriminate Ep).
      apply (unify_same (column b l) 2). }
  assert (rows (concat [c]) = flat_map rows [c]) as Hr1.
  { apply (concat_same_labels (projected_labels mapping) c [] Hfr1).
    intros l Hl. apply (unify_same (column c l) 1). }
  rewrite Hr2, Hr1. simpl flat_map. rewrite !app_nil_r, map_app.
  assert (forall g pre, labels pre = projected_labels mapping ->
            In g [a; b; c] ->
            map (row_key pre (data_of mapping)) (rows g)
            = map (row_key c (data_of mapping)) (rows c)) as Hkeys.
  { intros g pre Hpre Hg.
    assert (labels pre = labels g /\
            exists now, project now info mapping = Ok g) as [Hlg [now Hpg]].
    { destruct Hg as [<-|[<-|[<-|[]]]].
      - split; [|eauto]. rewrite Hpre. symmetry. eapply project_labels; eauto.
      - split; [|eauto]. rewrite Hpre. symmetry. eapply project_labels; eauto.
      - split; [|eauto]. rewrite Hpre. symmetry. eapply project_labels; eauto. }
    rewrite (map_ext (row_key pre (data_of mapping))
                     (row_key g (data_of mapping)))
      by (intros r; now apply row_key_labels).
    exact (project_data_keys info mapping _ _ g c Hpg Hc). }
  rewrite (Hkeys a (concat [a; b]) Hl2) by (simpl; auto).
  rewrite (Hkeys b (concat [a; b]) Hl2) by (simpl; auto).
  rewrite (Hkeys c (concat [c]) Hl1) by (simpl; auto).
  rewrite (keep_first_app row row row_same (fun k => k) row_same_equiv).
  rewrite (keep_first_all_seen row row row_same (fun k => k)
             (map (row_key c (data_of mapping)) (rows c))
             (map (fun k => k) (map (row_key c (data_of mapping)) (rows c))
              ++ [])).
  - apply app_nil_r.
  - intros x Hx. rewrite map_id, app_nil_r.
    apply existsb_exists. exists x. split; [exact Hx | apply row_same_refl].
Qed.

End WithLibrary.

Lemma C7_merge_twice_same_data_witness :
  exists m2 m1,
    merge_dataframes ticking 0 [info_of wb_remarks; info_of wb_remarks]
                     [("remarks", "remarks"); ("truck", "Truck")] = Ok m2 /\
    merge_dataframes ticking 5 [info_of wb_remarks]
                     [("remarks", "remarks"); ("truck", "Truck")] = Ok m1 /\
    labels m2 = labels m1 /\
    map (row_key m2 (data_columns m2)) (rows m2) =
    map (row_key m1 (data_columns m1)) (rows m1).
Proof.
  apply (C7_merge_twice_same_data ticking ticking 0 5 (info_of wb_remarks)
           [("remarks", "remarks"); ("truck", "Truck")]).
  - distinct_labels.
  - exists "remarks". split; [simpl; auto | reflexivity].
Defined.

(** C7 as stated fails: under the mapping of [wb_prov], whose only key is
    source_file, no data column is left, duplicates are not removed, and
    merging the sheet twice gives four rows where merging it once gives
    two.  This holds whatever the library. *)
Lemma C7_counterexample_no_data_column :
  (forall L : Library,
      merge_dataframes ticking 0 [info_of wb_prov; info_of wb_prov]
                       [("source_file", "source_file")]
      = Ok (mkFrame ["source_file"; "source_sheet"; "merge_timestamp"]
                    [[CStr "old_master.xlsx"; CStr "Master_Data"; CTime 1000];
                     [CStr "old_master.xlsx"; CStr "Master_Data"; CTime 1000];
                     [CStr "old_master.xlsx"; CStr "Master_Data"; CTime 1001];
                     [CStr "old_master.xlsx"; CStr "Master_Data"; CTime 1001]]) /\
      merge_dataframes ticking 0 [info_of wb_prov]
                       [("source_file", "source_file")]
      = Ok (mkFrame ["source_file"; "source_sheet"; "merge_timestamp"]
                    [[CStr "old_master.xlsx"; CStr "Master_Data"; CTime 1000];
                     [CStr "old_master.xlsx"; CStr "Master_Data"; CTime 1000]])) /\
  (forall L : Library,
      ~ (forall (clock : nat -> Z) (tick : nat) (info : DataInfo)
                (mapping : Dict.t string) (m2 m1 : DataFrame),
            merge_dataframes clock tick [info; info] mapping = Ok m2 ->
            merge_dataframes clock tick [info] mapping = Ok m1 ->
            map (row_key m2 (data_columns m2)) (rows m2) =
            map (row_key m1 (data_columns m1)) (rows m1))).
Proof.
  split.
  - intros L. to_plain L. split; reflexivity.
  - intros L H.
    specialize (H ticking 0 (info_of wb_prov) [("source_file", "source_file")]).
    to_plain_in L H.
    specialize (H _ _ eq_refl eq_refl).
    discriminate H.
Qed.

End MergeClaims.

(** * Properties of create_column_mapping *)

Module MappingFacts.

Section DictFacts.
Variable V : Type.

Lemma get_set_same (d : Dict.t V) (k : string) (v : V) :
  Dict.get (Dict.set d k v) k = Some v.
Proof.
  induction d as [|[k' v'] d IH]; simpl.
  - now rewrite String.eqb_refl.
  - destruct (String.eqb k' k) eqn:E; simpl; now rewrite E.
Qed.

Lemma get_set_other (d : Dict.t V) (k k' : string) (v : V) :
  k' <> k -> Dict.get (Dict.set d k v) k' = Dict.get d k'.
Proof.
  intros Hne. induction d as [|[k0 v0] d IH]; simpl.
  - apply String.eqb_neq in Hne. rewrite String.eqb_sym in Hne.
    now rewrite Hne.
  - destruct (String.eqb k0 k) eqn:E; simpl.
    + apply String.eqb_eq in E. subst k0.
      destruct (String.eqb k k') eqn:E'; [|reflexivity].
      apply String.eqb_eq in E'. congruence.
    + destruct (String.eqb k0 k'); [reflexivity | exact IH].
Qed.

Lemma get_none (d : Dict.t V) (k : string) :
  Dict.get d k = None <-> ~ In k (Dict.keys d).
Proof.
  induction d as [|[k' v'] d IH]; simpl; [tauto|].
  destruct (String.eqb k' k) eqn:E.
  - apply String.eqb_eq in E. split; [discriminate | intros H; tauto].
  - apply String.eqb_neq in E. rewrite IH. tauto.
Qed.

Lemma keys_set (d : Dict.t V) (k : string) (v : V) :
  Dict.keys (Dict.set d k v) =
  match Dict.get d k with
  | Some _ => Dict.keys d
  | None => Dict.keys d ++ [k]
  end.
Proof.
  induction d as [|[k' v'] d IH]; simpl; [reflexivity|].
  destruct (String.eqb k' k) eqn:E; simpl; [reflexivity|].
  rewrite IH. now destruct (Dict.get d k).
Qed.

Lemma wf_set (d : Dict.t V) (k : string) (v : V) :
  Dict.wf d -> Dict.wf (Dict.set d k v).
Proof.
  unfold Dict.wf. intros H. rewrite keys_set.
  destruct (Dict.get d k) eqn:E; [exact H|].
  apply get_none in E. apply NoDup_app; auto.
  - constructor; [intros [] | constructor].
  - intros x Hx [<-|[]]. contradiction.
Qed.

Lemma get_in (d : Dict.t V) (k : string) (v : V) :
  Dict.wf d -> (Dict.get d k = Some v <-> In (k, v) d).
Proof.
  unfold Dict.wf. induction d as [|[k' v'] d IH]; simpl; intros Hnd.
  - split; [discriminate | tauto].
  - inversion Hnd as [|? ? Hk Hnd']; subst.
    destruct (String.eqb k' k) eqn:E.
    + apply String.eqb_eq in E. subst k'. split.
      * intros H; inversion H; subst. now left.
      * intros [H|H]; [congruence|].
        exfalso. apply Hk. change k with (fst (k, v)). now apply in_map.
    + apply String.eqb_neq in E. rewrite (IH Hnd'). split; [tauto|].
      intros [H|H]; [congruence | exact H].
Qed.
End DictFacts.

(** The pairs (canonical key, occurrence) in the order the two nested
    loops of [create_column_mapping] visit them. *)
Definition items (infos : list DataInfo) : list (string * occurrence) :=
  flat_map
    (fun info =>
       map (fun item => (snd item, (file_path info, sheet_name info, fst item)))
           (standardized_columns info))
    infos.

Definition step (acc : Dict.t (list occurrence)) (p : string * occurrence)
  : Dict.t (list occurrence) :=
  dict_append acc (fst p) (snd p).

(** The occurrences recorded under [k]. *)
Definition occs_of (k : string) (l : list (string * occurrence))
  : list occurrence :=
  map snd (filter (fun p => String.eqb (fst p) k) l).

(** [o] is one of the most frequent elements of [names]. *)
Definition most_common_in (names : list string) (o : string) : Prop :=
  In o names /\
  forall o', count_occ string_dec names o' <= count_occ string_dec names o.

Lemma collect_as_fold (infos : list DataInfo) :
  collect_std_columns infos = fold_left step (items infos) [].
Proof.
  unfold collect_std_columns. generalize (@nil (string * list occurrence)).
  induction infos as [|info infos IH]; intros acc; simpl; [reflexivity|].
  unfold items in *. simpl. rewrite fold_left_app, IH. f_equal.
  generalize acc. clear.
  induction (standardized_columns info) as [|item l IHl]; intros acc; simpl;
    [reflexivity | apply IHl].
Qed.

Lemma wf_step (d : Dict.t (list occurrence)) (p : string * occurrence) :
  Dict.wf d -> Dict.wf (step d p).
Proof.
  intros H. unfold step, dict_append.
  destruct (Dict.get d (fst p)); now apply wf_set.
Qed.

Lemma wf_fold_step (l : list (string * occurrence)) :
  forall d, Dict.wf d -> Dict.wf (fold_left step l d).
Proof.
  induction l as [|p l IH]; intros d H; simpl; [exact H|].
  apply IH. now apply wf_step.
Qed.

Lemma get_fold_step (l : list (string * occurrence)) (k : string) :
  forall d,
    Dict.get (fold_left step l d) k =
    match Dict.get d k, occs_of k l with
    | None, [] => None
    | None, os => Some os
    | Some occs, os => Some (occs ++ os)
    end.
Proof.
  induction l as [|[k0 occ] l IH]; intros d; simpl.
  - destruct (Dict.get d k); [now rewrite app_nil_r | reflexivity].
  - rewrite IH. unfold step, dict_append, occs_of; simpl.
    destruct (String.eqb k0 k) eqn:E; simpl.
    + apply String.eqb_eq in E. subst k0.
      destruct (Dict.get d k) as [occs|]; rewrite get_set_same.
      * now rewrite <- app_assoc.
      * reflexivity.
    + apply String.eqb_neq in E.
      assert (forall v, Dict.get (Dict.set d k0 v) k = Dict.get d k) as Hg.
      { intros v. apply get_set_other. congruence. }
      destruct (Dict.get d k0); now rewrite Hg.
Qed.

Lemma occs_of_app (k : string) (l1 l2 : list (string * occurrence)) :
  occs_of k (l1 ++ l2) = occs_of k l1 ++ occs_of k l2.
Proof. unfold occs_of. now rewrite filter_app, map_app. Qed.

Lemma names_of_occs_one (k : string) (info : DataInfo)
    (l : list (string * string)) :
  map snd
      (occs_of k
         (map (fun item =>
                 (snd item, (file_path info, sheet_name info, fst item))) l))
  = map fst (filter (fun item => String.eqb (snd item) k) l).
Proof.
  unfold occs_of. induction l as [|[c s] l IHl]; simpl; [reflexivity|].
  destruct (String.eqb s k); simpl; now rewrite IHl.
Qed.

Lemma names_of_occs (k : string) (infos : list DataInfo) :
  map snd (occs_of k (items infos)) = occurrences_of k infos.
Proof.
  induction infos as [|info infos IH]; [reflexivity|].
  change (items (info :: infos))
    with (map (fun item =>
                 (snd item, (file_path info, sheet_name info, fst item)))
              (standardized_columns info) ++ items infos).
  change (occurrences_of k (info :: infos))
    with (map fst (filter (fun item => String.eqb (snd item) k)
                          (standardized_columns info))
          ++ occurrences_of k infos).
  rewrite occs_of_app, map_app.
  f_equal; [apply names_of_occs_one | exact IH].
Qed.

(** The groups of [all_std_columns]: one per canonical key that occurs,
    holding its occurrences in load order. *)
Lemma collect_groups (infos : list DataInfo) :
  Dict.wf (collect_std_columns infos) /\
  forall k occs,
    In (k, occs) (collect_std_columns infos) <->
    occs <> [] /\ occs = occs_of k (items infos).
Proof.
  rewrite collect_as_fold.
  assert (Dict.wf (fold_left step (items infos) [])) as Hwf.
  { apply wf_fold_step. constructor. }
  split; [exact Hwf|].
  intros k occs. rewrite <- (get_in _ _ k occs Hwf), get_fold_step. simpl.
  destruct (occs_of k (items infos)) as [|o os].
  - split; [discriminate | intros [H ->]; contradiction].
  - split.
    + intros H; inversion H; subst. split; [discriminate | reflexivity].
    + intros [_ ->]. reflexivity.
Qed.

Lemma fold_max_spec (key : string -> nat) (rest : list string) :
  forall best,
    let m := fold_left (fun b y => if (key b <? key y)%nat then y else b)
                       rest best in
    (m = best \/ In m rest) /\
    key best <= key m /\
    forall y, In y rest -> key y <= key m.
Proof.
  induction rest as [|x rest IH]; intros best; simpl.
  - split_all; auto. intros y [].
  - destruct (key best <? key x)%nat eqn:E.
    + apply Nat.ltb_lt in E.
      destruct (IH x) as (Hm & Hb & Hall). split_all.
      * destruct Hm as [->|Hm]; auto.
      * lia.
      * intros y [<-|Hy]; [exact Hb | now apply Hall].
    + apply Nat.ltb_ge in E.
      destruct (IH best) as (Hm & Hb & Hall). split_all.
      * destruct Hm as [->|Hm]; auto.
      * exact Hb.
      * intros y [<-|Hy]; [lia | now apply Hall].
Qed.

Lemma py_max_by_spec (key : string -> nat) (xs : list string) :
  xs <> [] ->
  exists m, py_max_by key xs = Ok m /\ In m xs /\
            forall y, In y xs -> key y <= key m.
Proof.
  destruct xs as [|x rest]; [contradiction|]. intros _.
  destruct (fold_max_spec key rest x) as (Hm & Hb & Hall).
  eexists. split; [reflexivity|]. split.
  - destruct Hm as [->|Hm]; [now left | now right].
  - intros y [<-|Hy]; [exact Hb | now apply Hall].
Qed.

(** [max(set(names), key=names.count)] for a non-empty list of names. *)
Lemma most_common_spec (so : SetOrder) (names : list string) :
  names <> [] ->
  exists m,
    py_max_by (count_occ string_dec names) (set_iter so names) = Ok m /\
    most_common_in names m.
Proof.
  intros Hne.
  destruct (py_max_by_spec (count_occ string_dec names) (set_iter so names))
    as (m & Hok & Hin & Hmax).
  - destruct names as [|x names]; [contradiction|].
    intros E.
    assert (In x (set_iter so (x :: names))) as Hx
        by (apply set_iter_elems; now left).
    rewrite E in Hx. destruct Hx.
  - exists m. split; [exact Hok|]. split.
    + now apply set_iter_elems in Hin.
    + intros o'. destruct (in_dec string_dec o' names) as [Ho|Ho].
      * apply Hmax. now apply set_iter_elems.
      * apply (count_occ_not_In string_dec) in Ho. rewrite Ho. lia.
Qed.

Lemma choose_names_spec (so : SetOrder)
    (groups : list (string * list occurrence)) :
  forall mapping0,
    NoDup (map fst groups) ->
    (forall k occs, In (k, occs) groups -> occs <> []) ->
    Dict.wf mapping0 ->
    (forall k, In k (map fst groups) -> ~ In k (Dict.keys mapping0)) ->
    exists mapping,
      choose_names so groups mapping0 = Ok mapping /\
      Dict.wf mapping /\
      Dict.keys mapping = Dict.keys mapping0 ++ map fst groups /\
      forall k o,
        In (k, o) mapping ->
        In (k, o) mapping0 \/
        exists occs, In (k, occs) groups /\ most_common_in (map snd occs) o.
Proof.
  induction groups as [|[k occs] groups IH];
    intros mapping0 Hnd Hne Hwf Hfresh; simpl.
  - exists mapping0. rewrite app_nil_r. split_all; auto.
  - inversion Hnd as [|? ? Hk Hnd']; subst.
    assert (occs <> []) as Hocc by (apply (Hne k); now left).
    replace (0 <? List.length occs)%nat with true
      by (symmetry; apply Nat.ltb_lt; destruct occs; [contradiction | simpl; lia]).
    destruct (most_common_spec so (map snd occs)) as (m & Hm & Hmc).
    { destruct occs; [contradiction | discriminate]. }
    rewrite Hm. simpl bind.
    assert (Dict.get mapping0 k = None) as Hget.
    { apply get_none. apply Hfresh. now left. }
    destruct (IH (Dict.set mapping0 k m)) as (mapping & Hok & Hwf' & Hkeys & Hin).
    + exact Hnd'.
    + intros k' occs' H'. apply (Hne k'). now right.
    + now apply wf_set.
    + intros k' Hk'. rewrite keys_set, Hget. intros H.
      apply in_app_or in H as [H|[<-|[]]].
      * apply (Hfresh k'); [now right | exact H].
      * contradiction.
    + exists mapping. split; [exact Hok|]. split; [exact Hwf'|]. split.
      * rewrite Hkeys, keys_set, Hget, <- app_assoc. reflexivity.
      * intros k' o Ho. destruct (Hin k' o Ho) as [H|(occs' & H & Hc)].
        -- destruct (string_dec k' k) as [->|Hne'].
           ++ right. exists occs. split; [now left|].
              apply (get_in _ _ k o (wf_set _ _ k m Hwf)) in H.
              rewrite get_set_same in H. inversion H; subst. exact Hmc.
           ++ left. apply (get_in _ _ k' o (wf_set _ _ k m Hwf)) in H.
              rewrite get_set_other in H by exact Hne'.
              now apply (get_in _ _ k' o Hwf).
        -- right. exists occs'. split; [now right | exact Hc].
Qed.

End MappingFacts.

(** * The mapping builder and the pipeline as a whole *)
(** * The mapping builder and the pipeline as a whole *)

Module PipelineFacts.
Import FrameFacts Projection DedupFacts ConcatFacts MergeFacts MappingFacts.

(** [create_column_mapping] never raises; its keys are the canonical keys
    that occur, each mapped to a most frequent original name. *)
Lemma create_column_mapping_spec (so : SetOrder) (infos : list DataInfo) :
  exists mapping,
    create_column_mapping so infos = Ok mapping /\
    Dict.wf mapping /\
    (forall k, In k (Dict.keys mapping) <-> occurrences_of k infos <> []) /\
    (forall k o,
        Dict.get mapping k = Some o ->
        most_common_in (occurrences_of k infos) o).
Proof.
  destruct (collect_groups infos) as [Hwf Hgroups].
  destruct (choose_names_spec so (collect_std_columns infos) [])
    as (mapping & Hok & Hwfm & Hkeys & Hin).
  - exact Hwf.
  - intros k occs H. now apply Hgroups in H.
  - constructor.
  - intros k _ [].
  - exists mapping. split; [exact Hok|]. split; [exact Hwfm|]. split.
    + intros k. rewrite Hkeys. simpl. rewrite in_map_iff. split.
      * intros ([k' occs] & <- & H). simpl.
        apply Hgroups in H as [Hne ->]. rewrite <- names_of_occs.
        intros E. apply map_eq_nil in E. contradiction.
      * intros Hne. exists (k, occs_of k (items infos)). split; [reflexivity|].
        apply Hgroups. split; [|reflexivity].
        intros E. apply Hne. rewrite <- names_of_occs, E. reflexivity.
    + intros k o Hget. apply (get_in _ _ k o Hwfm) in Hget.
      destruct (Hin k o Hget) as [[]|(occs & H & Hmc)].
      apply Hgroups in H as [_ ->]. now rewrite names_of_occs in Hmc.
Qed.

Lemma index_len_remove_duplicates_empty (f : DataFrame) :
  rows f = [] -> index_len (remove_duplicates f) = 0.
Proof.
  intros Hr. unfold index_len.
  destruct (rows (remove_duplicates f)) as [|r rs] eqn:E; [reflexivity|].
  assert (In r (rows f)) as Hin.
  { apply rows_remove_duplicates_in. rewrite E. now left. }
  rewrite Hr in Hin. destruct Hin.
Qed.

Section WithLibrary.
Context `{L : Library}.

Lemma standardize_spec (columns : list string) :
  forall c std,
    In (c, std) (standardize columns) ->
    In c columns /\ std = analyze_column (HStr c) /\ std <> "".
Proof.
  unfold standardize.
  assert (forall acc : Dict.t string,
             Dict.wf acc ->
             (forall c std, In (c, std) acc ->
                            std = analyze_column (HStr c) /\ std <> "") ->
             let d := fold_left
                        (fun d col =>
                           let std_col := analyze_column (HStr col) in
                           if String.eqb std_col "" then d
                           else Dict.set d col std_col)
                        columns acc in
             Dict.wf d /\
             forall c std, In (c, std) d ->
                           (In (c, std) acc \/ In c columns) /\
                           std = analyze_column (HStr c) /\ std <> "") as H.
  { induction columns as [|col columns IH]; intros acc Hwf Hacc; simpl.
    - split; [exact Hwf|]. intros c std Hin. split; [now left | now apply Hacc].
    - destruct (String.eqb (analyze_column (HStr col)) "") eqn:E.
      + destruct (IH acc Hwf Hacc) as [Hwf' Hd]. split; [exact Hwf'|].
        intros c std Hin. destruct (Hd c std Hin) as [[H|H] Hs]; auto.
      + apply String.eqb_neq in E.
        destruct (IH (Dict.set acc col (analyze_column (HStr col)))) as [Hwf' Hd].
        * now apply wf_set.
        * intros c std Hin.
          apply (get_in _ _ c std (wf_set _ _ col _ Hwf)) in Hin.
          destruct (string_dec c col) as [->|Hne].
          -- rewrite get_set_same in Hin. inversion Hin; subst. auto.
          -- rewrite get_set_other in Hin by exact Hne.
             apply (get_in _ _ c std Hwf) in Hin. now apply Hacc.
        * split; [exact Hwf'|].
          intros c std Hin. destruct (Hd c std Hin) as [[H|H] Hs]; auto.
          split; [|exact Hs].
          apply (get_in _ _ c std (wf_set _ _ col _ Hwf)) in H.
          destruct (string_dec c col) as [->|Hne]; [right; now left|].
          rewrite get_set_other in H by exact Hne.
          left. now apply (get_in _ _ c std Hwf). }
  intros c std Hin.
  destruct (H [] (NoDup_nil _) (fun _ _ (F : In _ []) => match F with end))
    as [_ Hd].
  destruct (Hd c std Hin) as [[[]|Hc] Hs]. auto.
Qed.

(** What [extract_dataframes] records for every sheet it keeps. *)
Lemma extract_dataframes_spec (files : list Workbook) (info : DataInfo) :
  In info (extract_dataframes files) ->
  standardized_columns info = standardize (labels (dataframe info)) /\
  original_columns info = labels (dataframe info) /\
  row_count info = index_len (dataframe info) /\
  is_empty (dataframe info) = false.
Proof.
  unfold extract_dataframes. intros H.
  apply in_flat_map in H as (wb & _ & H).
  destruct (wb_sheets wb) as [sheets|e]; [|destruct H].
  apply in_flat_map in H as (sh & _ & H).
  unfold extract_sheet in H.
  destruct (read_excel sh) as [raw|e]; [|destruct H].
  destruct ((List.length (raw_labels raw) =? 0)%nat
            || (List.length (raw_rows raw) =? 0)%nat) eqn:E; [destruct H|].
  destruct H as [<-|[]]. simpl. split_all; try reflexivity.
  unfold is_empty, index_len. simpl. now rewrite length_map.
Qed.

(** A mapping built from loaded sheets relates a non-empty original name
    to its own non-empty canonical key. *)
Lemma mapping_entries_loaded (so : SetOrder) (files : list Workbook)
    (mapping : Dict.t string) (k o : string) :
  create_column_mapping so (extract_dataframes files) = Ok mapping ->
  In (k, o) mapping ->
  k = analyze_column (HStr o) /\ k <> "" /\ o <> "".
Proof.
  intros Hok Hin.
  destruct (create_column_mapping_spec so (extract_dataframes files))
    as (mapping' & Hok' & Hwf & _ & Hval).
  rewrite Hok in Hok'. inversion Hok'; subst mapping'.
  apply (get_in _ _ k o Hwf) in Hin.
  destruct (Hval k o Hin) as [Ho _].
  unfold occurrences_of in Ho.
  apply in_flat_map in Ho as (info & Hinfo & Ho).
  apply in_map_iff in Ho as ([c s] & <- & Hcs). simpl.
  apply filter_In in Hcs as [Hcs Hs]. simpl in Hs.
  apply String.eqb_eq in Hs. subst s.
  destruct (extract_dataframes_spec files info Hinfo) as (Hstd & _).
  rewrite Hstd in Hcs.
  destruct (standardize_spec _ c k Hcs) as (_ & Hk & Hne).
  split; [exact Hk|]. split; [exact Hne|].
  intros ->. apply Hne. rewrite Hk. apply Normalizer.analyze_column_empty.
Qed.

(** A loaded sheet with at least one standardized column finds a column
    for some entry of the mapping built from a load that contains it. *)
Lemma loaded_table_finds_a_column (so : SetOrder) (files : list Workbook)
    (mapping : Dict.t string) (info : DataInfo) :
  create_column_mapping so (extract_dataframes files) = Ok mapping ->
  In info (extract_dataframes files) ->
  standardized_columns info <> [] ->
  exists k o, In (k, o) mapping /\
              has_source (dataframe info) k o = true.
Proof.
  intros Hok Hinfo Hne.
  destruct (standardized_columns info) as [|[c k] rest] eqn:E;
    [contradiction|].
  assert (In (c, k) (standardized_columns info)) as Hck
      by (rewrite E; now left).
  destruct (extract_dataframes_spec files info Hinfo) as (Hstd & _).
  pose proof Hck as Hck'. rewrite Hstd in Hck'.
  destruct (standardize_spec _ c k Hck') as (Hc & Hk & _).
  destruct (create_column_mapping_spec so (extract_dataframes files))
    as (mapping' & Hok' & _ & Hkeys & _).
  rewrite Hok in Hok'. inversion Hok'; subst mapping'.
  assert (In k (Dict.keys mapping)) as Hin.
  { apply Hkeys. intros Hnil.
    assert (In c (occurrences_of k (extract_dataframes files))) as Ho.
    { unfold occurrences_of. apply in_flat_map. exists info.
      split; [exact Hinfo|].
      apply in_map_iff. exists (c, k). split; [reflexivity|].
      apply filter_In. split; [exact Hck | apply String.eqb_refl]. }
    rewrite Hnil in Ho. destruct Ho. }
  unfold Dict.keys in Hin. apply in_map_iff in Hin as ([k' o] & Hk' & Hin).
  simpl in Hk'. subst k'.
  exists k, o. split; [exact Hin|].
  unfold has_source. apply orb_true_iff. right.
  apply existsb_exists. exists c. split; [exact Hc|].
  rewrite <- Hk. apply String.eqb_refl.
Qed.

Lemma project_all_empty_mapping (clock : nat -> Z) (infos : list DataInfo) :
  forall tick,
    project_all clock tick infos [] =
    Ok (map (fun _ => mkFrame provenance_columns []) infos).
Proof.
  induction infos as [|info infos IH]; intros tick; simpl; [reflexivity|].
  rewrite IH. reflexivity.
Qed.

Lemma rows_concat_empty (frames : list DataFrame) :
  (forall f, In f frames -> rows f = []) -> rows (concat frames) = [].
Proof.
  intros H. unfold concat. simpl.
  replace (list_sum (map index_len frames)) with 0; [reflexivity|].
  induction frames as [|f frames IH]; simpl; [reflexivity|].
  unfold index_len at 1. rewrite (H f) by now left. simpl.
  apply IH. intros g Hg. apply H. now right.
Qed.

(** Under the empty mapping the merge has no row. *)
Lemma merge_empty_mapping (clock : nat -> Z) (tick : nat)
    (infos : list DataInfo) :
  exists master,
    merge_dataframes clock tick infos [] = Ok master /\ index_len master = 0.
Proof.
  unfold merge_dataframes, concat_projected.
  rewrite project_all_empty_mapping.
  destruct infos as [|info infos]; simpl bind.
  - exists empty_frame. split; reflexivity.
  - eexists. split; [reflexivity|].
    apply index_len_remove_duplicates_empty, rows_concat_empty.
    intros f Hf.
    change (In f (map (fun _ => mkFrame provenance_columns [])
                      (info :: infos))) in Hf.
    apply in_map_iff in Hf as (x & <- & _). reflexivity.
Qed.

End WithLibrary.
End PipelineFacts.

Module PipelineClaims.
Import PipelineFacts MappingFacts Scenario.

(** C8: [create_column_mapping] does not raise; the keys of its result
    are exactly the canonical keys with at least one occurrence among the
    tables' standardized columns, and each is mapped to an original name
    that occurs among that key's occurrences at least as often as any
    other name. *)
Theorem C8_mapping_keeps_every_key (so : SetOrder) (infos : list DataInfo) :
  exists mapping,
    create_column_mapping so infos = Ok mapping /\
    (forall k, occurrences_of k infos <> [] -> In k (Dict.keys mapping)) /\
    (forall k, In k (Dict.keys mapping) -> occurrences_of k infos <> []) /\
    (forall k o,
        Dict.get mapping k = Some o ->
        In o (occurrences_of k infos) /\
        forall o',
          count_occ string_dec (occurrences_of k infos) o'
          <= count_occ string_dec (occurrences_of k infos) o).
Proof.
  destruct (create_column_mapping_spec so infos)
    as (mapping & Hok & _ & Hkeys & Hval).
  exists mapping. split; [exact Hok|].
  split; [intros k; apply Hkeys|]. split; [intros k; apply Hkeys|].
  intros k o Hget. exact (Hval k o Hget).
Qed.

Section WithLibrary.
Context `{L : Library}.

(** C9: when no table is loaded, or the mapping built from the loaded
    tables is empty, [merge_excel_files] returns the nothing-to-merge
    outcome without raising, and [merge_dataframes] on these inputs returns
    an empty frame without raising. *)
Theorem C9_nothing_to_merge (so : SetOrder) (clock : nat -> Z)
    (export : DataFrame -> Summary -> Dict.t string -> result unit)
    (files : list Workbook) :
  extract_dataframes files = [] \/
  create_column_mapping so (extract_dataframes files) = Ok [] ->
  merge_excel_files so clock export files = Ok NothingToMerge /\
  exists mapping master,
    create_column_mapping so (extract_dataframes files) = Ok mapping /\
    merge_dataframes clock 0 (extract_dataframes files) mapping = Ok master /\
    index_len master = 0 /\
    is_empty master = true.
Proof.
  intros [Hnone|Hmap].
  - split.
    + unfold merge_excel_files. destruct files; [reflexivity|].
      now rewrite Hnone.
    + rewrite Hnone. exists [], empty_frame. now split_all.
  - destruct (merge_empty_mapping clock 0 (extract_dataframes files))
      as (master & Hm & Hlen).
    assert (is_empty master = true) as He.
    { unfold is_empty. rewrite Hlen. apply orb_true_r. }
    split.
    + unfold merge_excel_files. destruct files; [reflexivity|].
      destruct (extract_dataframes (w :: files)) eqn:E; [reflexivity|].
      rewrite Hmap. simpl bind. rewrite Hm. simpl bind. now rewrite He.
    + exists [], master. now split_all.
Qed.

End WithLibrary.

Lemma C9_nothing_to_merge_witness :
  merge_excel_files nodup_order ticking export_ok [wb_blank]
  = Ok NothingToMerge /\
  exists mapping master,
    create_column_mapping nodup_order (extract_dataframes [wb_blank])
    = Ok mapping /\
    merge_dataframes ticking 0 (extract_dataframes [wb_blank]) mapping
    = Ok master /\
    index_len master = 0 /\
    is_empty master = true.
Proof.
  apply (C9_nothing_to_merge nodup_order ticking export_ok [wb_blank]).
  right. reflexivity.
Defined.

Section WithLibrary.
Context `{L : Library}.

(** C10: a header made of white space only (or empty), that is a header
    [str.strip] empties, normalises to the empty string, as a null header
    does; the loader leaves such a column out of the standardized columns
    of its sheet; and no mapping built from loaded sheets has the empty
    canonical key or that column as its original name. *)
Theorem C10_blank_header_excluded (s : string) :
  s = "" \/ u_isspace s = true ->
  u_strip s = "" /\
  analyze_column (HStr s) = "" /\
  analyze_column (HStr s) = analyze_column HNull /\
  (forall columns, ~ In (u_strip s) (Dict.keys (standardize columns))) /\
  (forall (so : SetOrder) (files : list Workbook) (mapping : Dict.t string),
      create_column_mapping so (extract_dataframes files) = Ok mapping ->
      forall k o, In (k, o) mapping -> k <> "" /\ o <> u_strip s).
Proof.
  intros Hs.
  assert (u_strip s = "") as Hstrip by now apply u_strip_blank.
  assert (analyze_column (HStr s) = "") as Ha
      by now apply Normalizer.analyze_column_blank.
  split; [exact Hstrip|]. split; [exact Ha|]. split; [exact Ha|]. split.
  - intros columns Hin. rewrite Hstrip in Hin.
    unfold Dict.keys in Hin. apply in_map_iff in Hin as ([c std] & Hc & Hin).
    simpl in Hc. subst c.
    destruct (standardize_spec columns "" std Hin) as (_ & Hstd & Hne).
    apply Hne. rewrite Hstd. apply Normalizer.analyze_column_empty.
  - intros so files mapping Hok k o Hin. rewrite Hstrip.
    destruct (mapping_entries_loaded so files mapping k o Hok Hin)
      as (_ & Hk & Ho).
    now split.
Qed.

(** White space of the ASCII range is white space for every library. *)
Lemma ascii_space_is_blank (s : string) :
  PyStr.all_space s = true -> s = "" \/ u_isspace s = true.
Proof.
  intros H. apply u_strip_blank. now apply Normalizer.all_space_blank.
Qed.

End WithLibrary.

Lemma C10_blank_header_excluded_witness :
  u_strip "  " = "" /\
  analyze_column (HStr "  ") = "" /\
  analyze_column (HStr "  ") = analyze_column HNull /\
  (forall columns, ~ In (u_strip "  ") (Dict.keys (standardize columns))) /\
  (forall (so : SetOrder) (files : list Workbook) (mapping : Dict.t string),
      create_column_mapping so (extract_dataframes files) = Ok mapping ->
      forall k o, In (k, o) mapping -> k <> "" /\ o <> u_strip "  ").
Proof.
  apply (C10_blank_header_excluded "  "). right. reflexivity.
Defined.

(** The concrete scenario of the specification: two workbooks with the
    same row under different headers give the mapping of the first one and
    a single merged row. *)
Example two_workbooks_one_row :
  forall L : Library,
    create_column_mapping nodup_order
                          (extract_dataframes [wb_trucks; wb_vehicles])
    = Ok [("truck", "Truck#"); ("location", "GPS Location");
          ("status", "Status")] /\
    merge_excel_files nodup_order ticking export_ok [wb_trucks; wb_vehicles]
    = Ok (Merged
            (mkFrame ["truck"; "location"; "status"; "source_file";
                      "source_sheet"; "merge_timestamp"]
                     [[CStr "T1"; CStr "A"; CStr "OK"; CStr "trucks.xlsx";
                       CStr "Sheet1"; CTime 1000]])
            (mkSummary 2 2 2 1 6 1002)).
Proof. intros L. to_plain L. split; reflexivity. Qed.

(** A loaded sheet none of whose headers has a key contributes no row:
    its projection has an empty index. *)
Example blank_sheet_contributes_no_row :
  forall L : Library,
    project 0 (info_of wb_blank) [("truck", "Truck#")]
    = Ok (mkFrame ["truck"; "source_file"; "source_sheet"; "merge_timestamp"]
                  []).
Proof. intros L. to_plain L. reflexivity. Qed.

End PipelineClaims.

(** * The rest of main.py: find_excel_files and the per-file details *)

Module Rest.

(** [s] ends with [suffix]: what the glob pattern [*suffix] asks of a file
    name (POSIX: letter case matters, a leading dot is no exception). *)
Fixpoint ends_with (suffix s : string) : bool :=
  if String.eqb suffix s then true
  else match s with
       | EmptyString => false
       | String _ s' => ends_with suffix s'
       end.

Definition excel_extensions : list string :=
  [".xlsx"; ".xls"; ".xlsm"; ".xlsb"].

(** [find_excel_files].  [listdir d] gives the paths of the entries of
    directory [d] in the order the glob scans them, [is_file] is
    [Path.is_file]; [input_dir] is [self.input_dir]. *)
Definition find_excel_files (listdir : string -> list string)
    (is_file : string -> bool) (input_dir directory : option string)
  : result (list string) :=
  let directory :=
    match directory with
    | None => input_dir
    | Some d => Some d
    end in
  match directory with
  | None => Raise (ValueError "No directory specified")
  | Some d =>
      if String.eqb d "" then Raise (ValueError "No directory specified")
      else
        let excel_files :=
          flat_map
            (fun ext =>
               filter (fun f => ends_with ext (path_name f)) (listdir d))
            excel_extensions in
        Ok (filter is_file excel_files)
  end.

(** The loop of [generate_summary_report] that fills [file_summary]: per
    base name, the sheets loaded from it and the sum of their rows. *)
Definition file_details (data_info_list : list DataInfo)
  : Dict.t (list string * nat) :=
  fold_left
    (fun file_summary info =>
       let filename := path_name (file_path info) in
       let entry :=
         match Dict.get file_summary filename with
         | Some e => e
         | None => ([], 0)
         end in
       Dict.set file_summary filename
                (fst entry ++ [sheet_name info], snd entry + row_count info))
    data_info_list [].

End Rest.

(** * Further properties of the normaliser and the loader *)

Module LoaderProps.
Import PyStr PyStrFacts Normalizer FrameFacts MappingFacts PipelineFacts
       Scenario.

Section WithLibrary.
Context `{L : Library}.

(** X1: the canonical key of a canonical key is that key again. *)
Theorem X1_analyze_column_fixed_point (h : header) :
  analyze_column (HStr (analyze_column h)) = analyze_column h.
Proof. apply analyze_column_idempotent. Qed.

(** X2: white space around a header and the case of its letters do not
    change its canonical key. *)
Theorem X2_analyze_column_ignores_case_and_padding (p s s' q : string) :
  all_space p = true ->
  all_space q = true ->
  u_lower s' = u_lower s ->
  analyze_column (HStr (p ++ s' ++ q)%string) = analyze_column (HStr s).
Proof.
  intros Hp Hq Hcase.
  rewrite (analyze_column_padding p s' q Hp Hq).
  now apply analyze_column_case.
Qed.

End WithLibrary.

Lemma X2_analyze_column_ignores_case_and_padding_witness :
  analyze_column (HStr ("  " ++ "GPS Location" ++ " ")%string)
  = analyze_column (HStr "gps location").
Proof.
  apply (X2_analyze_column_ignores_case_and_padding
           "  " "gps location" "GPS Location" " ");
    reflexivity.
Defined.

Section WithLibrary.
Context `{L : Library}.

(** The entry of [standardized_cols] for every string. *)
Lemma get_standardize (columns : list string) (c : string) :
  Dict.get (standardize columns) c =
  if existsb (String.eqb c) columns
     && negb (String.eqb (analyze_column (HStr c)) "")
  then Some (analyze_column (HStr c))
  else None.
Proof.
  unfold standardize.
  assert (forall acc : Dict.t string,
             Dict.get
               (fold_left
                  (fun d col =>
                     let std_col := analyze_column (HStr col) in
                     if String.eqb std_col "" then d
                     else Dict.set d col std_col)
                  columns acc) c =
             if existsb (String.eqb c) columns
                && negb (String.eqb (analyze_column (HStr c)) "")
             then Some (analyze_column (HStr c))
             else Dict.get acc c) as H.
  { induction columns as [|col columns IH]; intros acc; [reflexivity|].
    cbn [fold_left existsb]. rewrite IH.
    destruct (existsb (String.eqb c) columns) eqn:E1;
      destruct (String.eqb (analyze_column (HStr c)) "") eqn:E2;
      destruct (String.eqb c col) eqn:Ec; cbn [andb orb negb];
      try reflexivity.
    - apply String.eqb_eq in Ec. subst col. cbv zeta. now rewrite E2.
    - cbv zeta.
      destruct (String.eqb (analyze_column (HStr col)) ""); [reflexivity|].
      apply get_set_other. now apply String.eqb_neq.
    - apply String.eqb_eq in Ec. subst col. cbv zeta. now rewrite E2.
    - cbv zeta.
      destruct (String.eqb (analyze_column (HStr col)) ""); [reflexivity|].
      apply get_set_other. now apply String.eqb_neq.
    - apply String.eqb_eq in Ec. subst col. cbv zeta. rewrite E2.
      apply get_set_same.
    - cbv zeta.
      destruct (String.eqb (analyze_column (HStr col)) ""); [reflexivity|].
      apply get_set_other. now apply String.eqb_neq. }
  rewrite H. simpl. now destruct (_ && _).
Qed.

(** X3: the loader records a standardized column exactly for the columns
    of the sheet whose canonical key is not empty, and records that key. *)
Theorem X3_standardized_columns_entries (columns : list string)
    (c std : string) :
  Dict.get (standardize columns) c = Some std <->
  In c columns /\ std = analyze_column (HStr c) /\ std <> "".
Proof.
  rewrite get_standardize. split.
  - destruct (existsb (String.eqb c) columns) eqn:E1; simpl; [|discriminate].
    destruct (String.eqb (analyze_column (HStr c)) "") eqn:E2; simpl;
      [discriminate|].
    intros H; inversion H; subst std.
    apply existsb_exists in E1 as (x & Hx & Ex).
    apply String.eqb_eq in Ex. subst x.
    apply String.eqb_neq in E2. auto.
  - intros (Hin & -> & Hne).
    replace (existsb (String.eqb c) columns) with true.
    + apply String.eqb_neq in Hne. now rewrite Hne.
    + symmetry. apply existsb_exists. exists c.
      split; [exact Hin | apply String.eqb_refl].
Qed.

Lemma extract_dataframes_app (files files' : list Workbook) :
  extract_dataframes (files ++ files')
  = extract_dataframes files ++ extract_dataframes files'.
Proof. unfold extract_dataframes. apply flat_map_app. Qed.

(** X4: a workbook that cannot be opened, and a sheet that cannot be read
    or has no row, are skipped without an exception: the load is the one
    of the remaining workbooks and sheets, in the same order. *)
Theorem X4_unreadable_input_is_skipped (before after : list Workbook)
    (bad : Workbook) (path : string) (sheets_before sheets_after : list Sheet)
    (bad_sheet : Sheet) :
  (exists e, wb_sheets bad = Raise e) ->
  (exists e, read_excel bad_sheet = Raise e) \/
  (exists raw, read_excel bad_sheet = Ok raw /\ raw_rows raw = []) ->
  extract_dataframes
    (before ++ bad
       :: mkWorkbook path (Ok (sheets_before ++ bad_sheet :: sheets_after))
       :: after)
  = extract_dataframes
      (before ++ mkWorkbook path (Ok (sheets_before ++ sheets_after))
         :: after).
Proof.
  intros [e He] Hbad.
  rewrite !extract_dataframes_app. f_equal.
  unfold extract_dataframes. simpl. rewrite He. simpl. f_equal.
  rewrite !flat_map_app. f_equal. simpl.
  replace (extract_sheet path bad_sheet) with (@nil DataInfo); [reflexivity|].
  unfold extract_sheet.
  destruct Hbad as [[e' ->]|(raw & -> & Hrows)]; [reflexivity|].
  rewrite Hrows. simpl. now rewrite orb_true_r.
Qed.

End WithLibrary.

Lemma X4_unreadable_input_is_skipped_witness :
  extract_dataframes
    ([wb_trucks] ++ mkWorkbook "data/broken.xlsx" (Raise (ValueError "bad zip"))
       :: mkWorkbook "data/two.xlsx"
            (Ok ([mkSheet "A" (Ok (mkRawSheet [HStr "Truck"] [[CStr "T9"]]))]
                 ++ mkSheet "Empty" (Ok (mkRawSheet [HStr "Truck"] []))
                 :: []))
       :: [wb_remarks])
  = extract_dataframes
      ([wb_trucks]
         ++ mkWorkbook "data/two.xlsx"
              (Ok ([mkSheet "A" (Ok (mkRawSheet [HStr "Truck"] [[CStr "T9"]]))]
                   ++ []))
         :: [wb_remarks]).
Proof.
  apply (X4_unreadable_input_is_skipped
           [wb_trucks] [wb_remarks]
           (mkWorkbook "data/broken.xlsx" (Raise (ValueError "bad zip")))
           "data/two.xlsx"
           [mkSheet "A" (Ok (mkRawSheet [HStr "Truck"] [[CStr "T9"]]))] []
           (mkSheet "Empty" (Ok (mkRawSheet [HStr "Truck"] [])))).
  - exists (ValueError "bad zip"). reflexivity.
  - right. exists (mkRawSheet [HStr "Truck"] []). split; reflexivity.
Defined.

Section WithLibrary.
Context `{L : Library}.

(** X5: every table the loader returns has at least one row and one
    column, headers without white space around them, a row count equal to
    the length of its frame, and standardized columns computed from its
    headers. *)
Theorem X5_loaded_table_invariants (files : list Workbook) (info : DataInfo) :
  In info (extract_dataframes files) ->
  0 < row_count info /\
  row_count info = index_len (dataframe info) /\
  labels (dataframe info) <> [] /\
  original_columns info = labels (dataframe info) /\
  (forall c, In c (labels (dataframe info)) -> u_strip c = c) /\
  standardized_columns info = standardize (labels (dataframe info)).
Proof.
  unfold extract_dataframes. intros H.
  apply in_flat_map in H as (wb & _ & H).
  destruct (wb_sheets wb) as [sheets|e]; [|destruct H].
  apply in_flat_map in H as (sh & _ & H).
  unfold extract_sheet in H.
  destruct (read_excel sh) as [raw|e]; [|destruct H].
  destruct ((List.length (raw_labels raw) =? 0)%nat
            || (List.length (raw_rows raw) =? 0)%nat) eqn:E; [destruct H|].
  apply orb_false_iff in E as [El Er].
  apply Nat.eqb_neq in El, Er.
  destruct H as [<-|[]]. simpl. unfold index_len. simpl. split_all; auto.
  - lia.
  - intros Hnil. apply El. apply (f_equal (@List.length string)) in Hnil.
    now rewrite length_map in Hnil.
  - intros c Hc. apply in_map_iff in Hc as (h & <- & _). apply u_strip_idem.
Qed.

End WithLibrary.

Lemma X5_loaded_table_invariants_witness :
  0 < row_count (info_of wb_remarks) /\
  row_count (info_of wb_remarks) = index_len (dataframe (info_of wb_remarks)) /\
  labels (dataframe (info_of wb_remarks)) <> [] /\
  original_columns (info_of wb_remarks)
  = labels (dataframe (info_of wb_remarks)) /\
  (forall c, In c (labels (dataframe (info_of wb_remarks))) -> u_strip c = c) /\
  standardized_columns (info_of wb_remarks)
  = standardize (labels (dataframe (info_of wb_remarks))).
Proof.
  apply (X5_loaded_table_invariants [wb_remarks] (info_of wb_remarks)).
  simpl; auto.
Defined.

End LoaderProps.

(** * Further properties of the mapping builder and the merge *)

Module MergeProps.
Import FrameFacts Projection DedupFacts ConcatFacts MergeFacts MappingFacts
       PipelineFacts Scenario.

Lemma seen_keys (d : Dict.t (list occurrence)) (k : string) :
  existsb (String.eqb k) (Dict.keys d) =
  match Dict.get d k with Some _ => true | None => false end.
Proof.
  destruct (Dict.get d k) eqn:E.
  - apply existsb_eqb_in.
    destruct (in_dec string_dec k (Dict.keys d)) as [H|H]; [exact H|].
    apply get_none in H. congruence.
  - apply not_true_is_false. intros H.
    apply existsb_exists in H as (y & Hy & Ey). apply String.eqb_eq in Ey.
    subst y. apply get_none in E. contradiction.
Qed.

Lemma keys_step (d : Dict.t (list occurrence)) (p : string * occurrence) :
  Dict.keys (step d p) =
  if existsb (String.eqb (fst p)) (Dict.keys d) then Dict.keys d
  else Dict.keys d ++ [fst p].
Proof.
  rewrite seen_keys. unfold step, dict_append.
  destruct (Dict.get d (fst p)) eqn:E; rewrite keys_set, E; reflexivity.
Qed.

Lemma keys_fold_step (l : list (string * occurrence)) :
  forall d,
    Dict.keys (fold_left step l d) =
    Dict.keys d ++
    keep_first_by String.eqb (fun k => k) (Dict.keys d) (map fst l).
Proof.
  induction l as [|p l IH]; intros d; simpl; [now rewrite app_nil_r|].
  rewrite IH, keys_step.
  destruct (existsb (String.eqb (fst p)) (Dict.keys d)) eqn:E;
    [reflexivity|].
  rewrite <- app_assoc. simpl. do 2 f_equal.
  apply (keep_first_seen_ext string string String.eqb (fun k => k)).
  intros y. rewrite existsb_app. simpl.
  destruct (String.eqb y (fst p)), (existsb (String.eqb y) (Dict.keys d));
    reflexivity.
Qed.

Lemma keys_of_items (infos : list DataInfo) :
  map fst (items infos) =
  flat_map (fun info => map snd (standardized_columns info)) infos.
Proof.
  unfold items. induction infos as [|info infos IH]; simpl; [reflexivity|].
  rewrite map_app. f_equal; [|exact IH]. now rewrite map_map.
Qed.

(** X6: the keys of the mapping come in the order in which the canonical
    keys are first met when the tables are scanned in load order, each
    table column by column; no key appears twice. *)
Theorem X6_mapping_key_order (so : SetOrder) (infos : list DataInfo) :
  exists mapping,
    create_column_mapping so infos = Ok mapping /\
    NoDup (Dict.keys mapping) /\
    Dict.keys mapping =
    keep_first_by String.eqb (fun k => k) []
      (flat_map (fun info => map snd (standardized_columns info)) infos).
Proof.
  destruct (collect_groups infos) as [Hwf Hgroups].
  destruct (choose_names_spec so (collect_std_columns infos) [])
    as (mapping & Hok & Hwfm & Hkeys & _).
  - exact Hwf.
  - intros k occs H. now apply Hgroups in H.
  - constructor.
  - intros k _ [].
  - exists mapping. split; [exact Hok|]. split; [exact Hwfm|].
    rewrite Hkeys. simpl.
    change (map fst (collect_std_columns infos))
      with (Dict.keys (collect_std_columns infos)).
    rewrite collect_as_fold, keys_fold_step, keys_of_items. reflexivity.
Qed.

Section WithLibrary.
Context `{L : Library}.

(** X7: in a mapping built from loaded sheets every entry maps a non-empty
    canonical key to the header of a column of some loaded sheet, and that
    header normalises to the key. *)
Theorem X7_mapping_names_are_loaded_headers (so : SetOrder)
    (files : list Workbook) (mapping : Dict.t string) (k o : string) :
  create_column_mapping so (extract_dataframes files) = Ok mapping ->
  In (k, o) mapping ->
  analyze_column (HStr o) = k /\
  k <> "" /\
  exists info,
    In info (extract_dataframes files) /\ In o (labels (dataframe info)).
Proof.
  intros Hok Hin.
  destruct (mapping_entries_loaded so files mapping k o Hok Hin)
    as (Hk & Hne & _).
  split; [now symmetry|]. split; [exact Hne|].
  destruct (create_column_mapping_spec so (extract_dataframes files))
    as (mapping' & Hok' & Hwf & _ & Hval).
  rewrite Hok in Hok'. inversion Hok'; subst mapping'.
  apply (get_in _ _ k o Hwf) in Hin.
  destruct (Hval k o Hin) as [Ho _].
  unfold occurrences_of in Ho.
  apply in_flat_map in Ho as (info & Hinfo & Ho).
  exists info. split; [exact Hinfo|].
  apply in_map_iff in Ho as ([c s] & <- & Hcs). simpl.
  apply filter_In in Hcs as [Hcs _].
  destruct (extract_dataframes_spec files info Hinfo) as (Hstd & _).
  rewrite Hstd in Hcs.
  now destruct (standardize_spec _ c s Hcs) as (Hc & _).
Qed.

End WithLibrary.

Lemma X7_mapping_names_are_loaded_headers_witness :
  analyze_column (HStr "GPS Location") = "location" /\
  "location" <> "" /\
  exists info,
    In info (extract_dataframes [wb_trucks; wb_vehicles]) /\
    In "GPS Location" (labels (dataframe info)).
Proof.
  apply (X7_mapping_names_are_loaded_headers nodup_order
           [wb_trucks; wb_vehicles]
           [("truck", "Truck#"); ("location", "GPS Location");
            ("status", "Status")]).
  - reflexivity.
  - simpl; auto.
Defined.

Section WithLibrary.
Context `{L : Library}.

Lemma project_index_len_cases (now : Z) (info : DataInfo)
    (mapping : Dict.t string) (f : DataFrame) :
  project now info mapping = Ok f ->
  index_len f = 0 \/ index_len f = index_len (dataframe info).
Proof.
  intros E. destruct (project_inv now info mapping f E)
    as (sdf & _ & _ & _ & Hi & _ & ->).
  now rewrite !index_len_setitem_scalar.
Qed.

Lemma project_all_rows_le (clock : nat -> Z) (mapping : Dict.t string)
    (infos : list DataInfo) :
  forall tick frames,
    project_all clock tick infos mapping = Ok frames ->
    list_sum (map index_len frames)
    <= list_sum (map (fun info => index_len (dataframe info)) infos).
Proof.
  induction infos as [|info infos IH]; intros tick frames; simpl.
  - intros E; inversion E; subst. simpl. lia.
  - destruct (project (clock tick) info mapping) as [f|e] eqn:Ef;
      simpl; [|discriminate].
    destruct (project_all clock (S tick) infos mapping) as [fs|e] eqn:Efs;
      simpl; [|discriminate].
    intros E; inversion E; subst. simpl.
    specialize (IH (S tick) fs Efs).
    destruct (project_index_len_cases _ _ _ _ Ef) as [H|H]; lia.
Qed.

(** A merge that does not raise adds no row. *)
Lemma merge_dataframes_bound (clock : nat -> Z) (tick : nat)
    (infos : list DataInfo) (mapping : Dict.t string) (master : DataFrame) :
  merge_dataframes clock tick infos mapping = Ok master ->
  index_len master
  <= list_sum (map (fun info => index_len (dataframe info)) infos).
Proof.
  intros Hm. destruct infos as [|info infos].
  - inversion Hm; subst. exact (le_n 0).
  - destruct (merge_inv clock tick (info :: infos) mapping master)
      as (f & frames & Hok & _ & -> & _); [discriminate | exact Hm |].
    etransitivity; [apply index_len_remove_duplicates_le|].
    rewrite index_len_concat.
    now apply (project_all_rows_le clock mapping _ tick).
Qed.

(** X8: [merge_dataframes] does not raise when the cleaned column names
    of every table are pairwise distinct, whatever the mapping, and a table
    it returns never has more rows than the source tables have together. *)
Theorem X8_merge_never_raises_nor_adds_rows (clock : nat -> Z) (tick : nat)
    (infos : list DataInfo) (mapping : Dict.t string) :
  (Forall (fun info => NoDup (labels (dataframe info))) infos ->
   exists master, merge_dataframes clock tick infos mapping = Ok master) /\
  (forall master,
      merge_dataframes clock tick infos mapping = Ok master ->
      index_len master
      <= list_sum (map (fun info => index_len (dataframe info)) infos)).
Proof.
  split; [apply merge_total | apply merge_dataframes_bound].
Qed.

(** X9: with at least one table, and a mapping whose keys are distinct
    and are no provenance labels, the columns of the merged table are the
    keys of the mapping in mapping order followed by source_file,
    source_sheet and merge_timestamp. *)
Theorem X9_merged_columns_follow_mapping (clock : nat -> Z) (tick : nat)
    (infos : list DataInfo) (mapping : Dict.t string) (master : DataFrame) :
  infos <> [] ->
  Dict.wf mapping ->
  (forall k, In k (Dict.keys mapping) -> is_provenance k = false) ->
  merge_dataframes clock tick infos mapping = Ok master ->
  labels master = Dict.keys mapping ++ provenance_columns.
Proof.
  intros Hne Hwf Hprov Hm.
  destruct (merge_inv clock tick infos mapping master Hne Hm)
    as (f & frames & _ & _ & -> & Hl).
  rewrite labels_remove_duplicates, Hl. unfold projected_labels.
  apply (fold_add_label_fresh _ []).
  - now apply NoDup_keys_provenance.
  - intros k _ [].
Qed.

End WithLibrary.

Lemma X9_merged_columns_follow_mapping_witness :
  labels MergeClaims.merged_remarks_trucks
  = Dict.keys [("remarks", "remarks"); ("truck", "Truck");
               ("location", "GPS Location"); ("status", "Status")]
    ++ provenance_columns.
Proof.
  apply (X9_merged_columns_follow_mapping ticking 0
           (extract_dataframes [wb_remarks; wb_trucks])
           [("remarks", "remarks"); ("truck", "Truck");
            ("location", "GPS Location"); ("status", "Status")]
           MergeClaims.merged_remarks_trucks).
  - discriminate.
  - repeat constructor; simpl; intuition discriminate.
  - intros k [<-|[<-|[<-|[<-|[]]]]]; reflexivity.
  - reflexivity.
Defined.

End MergeProps.

Module RowProps.
Import FrameFacts Projection DedupFacts MergeFacts MappingFacts PipelineFacts
       LoaderProps Scenario.

Section WithLibrary.
Context `{L : Library}.

(** When no entry of the mapping finds a column, the inner loop does not
    raise and leaves the index as it is. *)
Lemma project_columns_no_source (df : DataFrame) (mapping : Dict.t string) :
  forall sdf,
    (forall k o, In (k, o) mapping -> has_source df k o = false) ->
    exists sdf',
      project_columns df sdf mapping = Ok sdf' /\
      index_len sdf' = index_len sdf.
Proof.
  induction mapping as [|[k o] mapping IH]; intros sdf Hno; simpl.
  - eauto.
  - rewrite (project_column_missing df sdf k o) by (apply Hno; now left).
    simpl.
    destruct (IH (setitem_scalar sdf k NaN)
                 (fun k' o' H => Hno k' o' (or_intror H)))
      as (sdf' & Hok & Hlen).
    exists sdf'. split; [exact Hok|].
    rewrite Hlen. apply index_len_setitem_scalar.
Qed.

Lemma standardize_nil_blank (columns : list string) (c : string) :
  standardize columns = [] -> In c columns ->
  analyze_column (HStr c) = "".
Proof.
  intros Hnil Hc. pose proof (get_standardize columns c) as H.
  rewrite Hnil in H. simpl in H.
  replace (existsb (String.eqb c) columns) with true in H.
  - simpl in H.
    destruct (String.eqb (analyze_column (HStr c)) "") eqn:E;
      [now apply String.eqb_eq | discriminate].
  - symmetry. apply existsb_exists. exists c.
    split; [exact Hc | apply String.eqb_refl].
Qed.

(** X10: in a run, the projection of every loaded sheet whose cleaned
    column names are pairwise distinct and that has at least one header
    with a non-empty canonical key does not raise and keeps all the rows of
    the sheet. *)
Theorem X10_loaded_sheet_keeps_its_rows (so : SetOrder)
    (files : list Workbook) (mapping : Dict.t string) (info : DataInfo)
    (now : Z) :
  create_column_mapping so (extract_dataframes files) = Ok mapping ->
  In info (extract_dataframes files) ->
  NoDup (labels (dataframe info)) ->
  standardized_columns info <> [] ->
  exists sdf,
    project now info mapping = Ok sdf /\ index_len sdf = row_count info.
Proof.
  intros Hok Hinfo Hnd Hne.
  destruct (project_total now info mapping Hnd) as [sdf Hsdf].
  exists sdf. split; [exact Hsdf|].
  destruct (extract_dataframes_spec files info Hinfo) as (_ & _ & -> & _).
  apply (project_index_len now info mapping sdf Hsdf).
  now apply (loaded_table_finds_a_column so files).
Qed.

End WithLibrary.

Lemma X10_loaded_sheet_keeps_its_rows_witness :
  exists sdf,
    project 7 (info_of wb_vehicles)
            [("truck", "Truck#"); ("location", "GPS Location");
             ("status", "Status")] = Ok sdf /\
    index_len sdf = row_count (info_of wb_vehicles).
Proof.
  apply (X10_loaded_sheet_keeps_its_rows nodup_order [wb_trucks; wb_vehicles]
           [("truck", "Truck#"); ("location", "GPS Location");
            ("status", "Status")] (info_of wb_vehicles) 7).
  - reflexivity.
  - simpl; auto.
  - distinct_labels.
  - discriminate.
Defined.

Section WithLibrary.
Context `{L : Library}.

(** X11: in a run, a loaded sheet all of whose headers have the empty
    canonical key contributes no row: its projection has an empty index
    although the sheet has rows. *)
Theorem X11_blank_sheet_loses_its_rows (so : SetOrder)
    (files : list Workbook) (mapping : Dict.t string) (info : DataInfo)
    (now : Z) :
  create_column_mapping so (extract_dataframes files) = Ok mapping ->
  In info (extract_dataframes files) ->
  standardized_columns info = [] ->
  0 < row_count info /\
  exists sdf, project now info mapping = Ok sdf /\ index_len sdf = 0.
Proof.
  intros Hok Hinfo Hnil.
  destruct (extract_dataframes_spec files info Hinfo)
    as (Hstd & _ & Hcount & Hempty).
  split.
  { rewrite Hcount. unfold is_empty in Hempty.
    apply orb_false_iff in Hempty as [_ H]. apply Nat.eqb_neq in H. lia. }
  assert (forall k o, In (k, o) mapping ->
                      has_source (dataframe info) k o = false) as Hno.
  { intros k o Hin.
    destruct (mapping_entries_loaded so files mapping k o Hok Hin)
      as (Hk & Hne & _).
    rewrite Hnil in Hstd. symmetry in Hstd.
    unfold has_source. apply orb_false_iff. split.
    - destruct (label_in o (dataframe info)) eqn:E; [|reflexivity].
      apply label_in_iff in E.
      rewrite (standardize_nil_blank _ o Hstd E) in Hk. contradiction.
    - destruct (existsb _ (labels (dataframe info))) eqn:E; [|reflexivity].
      apply existsb_exists in E as (c & Hc & Ec).
      apply String.eqb_eq in Ec.
      rewrite (standardize_nil_blank _ c Hstd Hc) in Ec. congruence. }
  destruct (project_columns_no_source (dataframe info) mapping empty_frame Hno)
    as (sdf & Hsdf & Hlen).
  unfold project. rewrite Hsdf. simpl bind.
  eexists. split; [reflexivity|].
  now rewrite !index_len_setitem_scalar.
Qed.

End WithLibrary.

Lemma X11_blank_sheet_loses_its_rows_witness :
  0 < row_count (info_of wb_blank) /\
  exists sdf,
    project 7 (info_of wb_blank)
            [("truck", "Truck#"); ("location", "GPS Location");
             ("status", "Status")] = Ok sdf /\
    index_len sdf = 0.
Proof.
  apply (X11_blank_sheet_loses_its_rows nodup_order [wb_trucks; wb_blank]
           [("truck", "Truck#"); ("location", "GPS Location");
            ("status", "Status")] (info_of wb_blank) 7).
  - reflexivity.
  - simpl; auto.
  - reflexivity.
Defined.

(** X12: removing duplicates a second time changes nothing. *)
Theorem X12_remove_duplicates_idempotent (f : DataFrame) :
  remove_duplicates (remove_duplicates f) = remove_duplicates f.
Proof.
  unfold remove_duplicates.
  destruct (0 <? List.length (data_columns f))%nat eqn:E.
  - change (data_columns (drop_duplicates f (data_columns f)))
      with (data_columns f).
    rewrite E. unfold drop_duplicates. simpl. f_equal.
    apply (keep_first_idem row row row_same (row_key f (data_columns f))).
  - now rewrite E.
Qed.

End RowProps.

(** * The exception a repeated column name raises *)

Module ErrorProps.
Import FrameFacts Projection MergeFacts Scenario.

Lemma length_positions (l : string) (ls : list string) :
  forall k, List.length (positions l ls k) = count_occ string_dec ls l.
Proof.
  induction ls as [|x ls IH]; intros k; simpl; [reflexivity|].
  destruct (string_dec x l) as [->|Hne].
  - rewrite String.eqb_refl. simpl. now rewrite IH.
  - apply String.eqb_neq in Hne. rewrite Hne. apply IH.
Qed.

(** A selection fails only for a label that no column has. *)
Lemma getitem_raises (df : DataFrame) (l : string) (e : exn) :
  getitem df l = Raise e -> ~ In l (labels df).
Proof.
  unfold getitem. intros H Hin.
  pose proof (length_positions l (labels df) 0) as Hlen.
  apply (count_occ_In string_dec) in Hin.
  destruct (positions l (labels df) 0) as [|i [|j rest]];
    [simpl in Hlen; lia | discriminate H | discriminate H].
Qed.

Lemma setitem_raises (f : DataFrame) (key : string) (v : selection) (e : exn) :
  setitem f key v = Raise e -> exists msg, e = ValueError msg.
Proof.
  destruct v as [vals|[|c [|c' cs]]]; simpl; intros H; inversion H; eauto.
Qed.

Section WithLibrary.
Context `{L : Library}.

(** Every exception of the loop body is a [ValueError]. *)
Lemma project_column_raises (df sdf : DataFrame) (k o : string) (e : exn) :
  project_column df sdf k o = Raise e -> exists msg, e = ValueError msg.
Proof.
  unfold project_column. destruct (label_in o df) eqn:Ein.
  - apply label_in_iff in Ein.
    destruct (getitem df o) as [v|e'] eqn:Eg; simpl.
    + apply setitem_raises.
    + intros _. exfalso. exact (getitem_raises df o e' Eg Ein).
  - destruct (find (fun c => String.eqb (analyze_column (HStr c)) k) (labels df))
      as [c|] eqn:Ef; [|discriminate].
    apply find_some in Ef as [Hc _].
    destruct (getitem df c) as [v|e'] eqn:Eg; simpl.
    + apply setitem_raises.
    + intros _. exfalso. exact (getitem_raises df c e' Eg Hc).
Qed.

(** The loop body raises when the chosen name labels two columns. *)
Lemma project_column_repeated (df sdf : DataFrame) (k o : string) :
  2 <= count_occ string_dec (labels df) o ->
  exists msg, project_column df sdf k o = Raise (ValueError msg).
Proof.
  intros H. unfold project_column.
  assert (In o (labels df)) as Hin by (apply (count_occ_In string_dec); lia).
  apply label_in_iff in Hin. rewrite Hin.
  unfold getitem. rewrite <- (length_positions o (labels df) 0) in H.
  destruct (positions o (labels df) 0) as [|i [|j rest]];
    [simpl in H; lia | simpl in H; lia |].
  simpl. eauto.
Qed.

Lemma project_columns_raises (df : DataFrame) (mapping : Dict.t string)
    (e : exn) :
  forall sdf,
    project_columns df sdf mapping = Raise e -> exists msg, e = ValueError msg.
Proof.
  induction mapping as [|[k o] mapping IH]; intros sdf; simpl; [discriminate|].
  destruct (project_column df sdf k o) as [sdf1|e'] eqn:E1; simpl.
  - apply IH.
  - intros H; inversion H; subst. eapply project_column_raises; eauto.
Qed.

Lemma project_columns_repeated (df : DataFrame) (mapping : Dict.t string)
    (k o : string) :
  In (k, o) mapping ->
  2 <= count_occ string_dec (labels df) o ->
  forall sdf, exists msg, project_columns df sdf mapping = Raise (ValueError msg).
Proof.
  intros Hin Hrep.
  induction mapping as [|[k' o'] mapping IH]; intros sdf; [destruct Hin|].
  simpl. destruct (project_column df sdf k' o') as [sdf1|e] eqn:E1; simpl.
  - destruct Hin as [E|Hin].
    + inversion E; subst.
      destruct (project_column_repeated df sdf k o Hrep) as [msg Hmsg].
      congruence.
    + now apply IH.
  - destruct (project_column_raises df sdf k' o' e E1) as [msg ->]. eauto.
Qed.

Lemma project_raises (now : Z) (info : DataInfo) (mapping : Dict.t string)
    (e : exn) :
  project now info mapping = Raise e -> exists msg, e = ValueError msg.
Proof.
  unfold project.
  destruct (project_columns (dataframe info) empty_frame mapping)
    as [sdf|e'] eqn:E; simpl; [discriminate|].
  intros H; inversion H; subst. eapply project_columns_raises; eauto.
Qed.

Lemma project_all_raises (clock : nat -> Z) (mapping : Dict.t string)
    (infos : list DataInfo) (e : exn) :
  forall tick,
    project_all clock tick infos mapping = Raise e ->
    exists msg, e = ValueError msg.
Proof.
  induction infos as [|info infos IH]; intros tick; simpl; [discriminate|].
  destruct (project (clock tick) info mapping) as [f|e'] eqn:Ef; simpl.
  - destruct (project_all clock (S tick) infos mapping) as [fs|e''] eqn:Efs;
      simpl; [discriminate|].
    intros H; inversion H; subst. eapply IH; eauto.
  - intros H; inversion H; subst. eapply project_raises; eauto.
Qed.

Lemma merge_dataframes_raises (clock : nat -> Z) (tick : nat)
    (infos : list DataInfo) (mapping : Dict.t string) (e : exn) :
  merge_dataframes clock tick infos mapping = Raise e ->
  exists msg, e = ValueError msg.
Proof.
  unfold merge_dataframes, concat_projected.
  destruct (project_all clock tick infos mapping) as [frames|e'] eqn:E; simpl.
  - destruct frames; discriminate.
  - intros H; inversion H; subst. eapply project_all_raises; eauto.
Qed.

(** X19: when the name chosen for some entry of the mapping labels two
    columns of a table, as happens for two headers that are the same once
    stripped, the projection of the table raises [ValueError]; and a
    [ValueError] is the only exception a projection raises. *)
Theorem X19_repeated_header_raises (now : Z) (info : DataInfo)
    (mapping : Dict.t string) :
  (forall k o,
      In (k, o) mapping ->
      2 <= count_occ string_dec (labels (dataframe info)) o ->
      exists msg, project now info mapping = Raise (ValueError msg)) /\
  (forall e,
      project now info mapping = Raise e -> exists msg, e = ValueError msg).
Proof.
  split; [|apply project_raises].
  intros k o Hin Hrep. unfold project.
  destruct (project_columns_repeated (dataframe info) mapping k o Hin Hrep
              empty_frame) as [msg ->].
  simpl. eauto.
Qed.

End WithLibrary.

Lemma X19_repeated_header_raises_witness :
  exists msg,
    project 0 (info_of wb_dup) [("truck", "Truck")] = Raise (ValueError msg).
Proof.
  apply (proj1 (X19_repeated_header_raises 0 (info_of wb_dup)
                  [("truck", "Truck")]) "truck" "Truck").
  - left; reflexivity.
  - vm_compute. lia.
Defined.

End ErrorProps.

(** * Properties of the run as a whole, the summary and the file search *)

Module RunProps.
Import FrameFacts Projection DedupFacts MergeFacts MappingFacts PipelineFacts
       MergeProps ErrorProps Rest Scenario.

Section WithLibrary.
Context `{L : Library}.

(** The stages of [merge_excel_files] when it goes past its early
    returns. *)
Lemma merge_excel_files_stages (so : SetOrder) (clock : nat -> Z)
    (export : DataFrame -> Summary -> Dict.t string -> result unit)
    (files : list Workbook) :
  merge_excel_files so clock export files = Ok NothingToMerge \/
  exists mapping,
    create_column_mapping so (extract_dataframes files) = Ok mapping /\
    ((exists e,
         merge_dataframes clock 0 (extract_dataframes files) mapping = Raise e /\
         merge_excel_files so clock export files = Raise e) \/
     (exists master,
         merge_dataframes clock 0 (extract_dataframes files) mapping = Ok master /\
         is_empty master = false /\
         index_len master
         <= list_sum (map (fun info => index_len (dataframe info))
                          (extract_dataframes files)) /\
         let summary :=
           generate_summary_report
             (clock (List.length (extract_dataframes files))) master
             (extract_dataframes files) in
         merge_excel_files so clock export files =
         (_ <- export master summary mapping ;; Ok (Merged master summary)))).
Proof.
  unfold merge_excel_files.
  destruct files as [|w files]; [now left|].
  destruct (extract_dataframes (w :: files)) as [|info infos] eqn:E;
    [now left|].
  destruct (create_column_mapping_spec so (info :: infos))
    as (mapping & Hok & _).
  rewrite Hok. simpl bind.
  destruct (merge_dataframes clock 0 (info :: infos) mapping)
    as [master|e] eqn:Hm; simpl bind.
  - destruct (is_empty master) eqn:He; [now left|].
    right. exists mapping. split; [reflexivity|]. right.
    exists master. split_all; auto.
    now apply (merge_dataframes_bound clock 0 (info :: infos) mapping).
  - right. exists mapping. split; [reflexivity|]. left. exists e. now split.
Qed.

(** X13: an exception that leaves [merge_excel_files] is either raised by
    [export_to_excel], after a non-empty table was merged, or a
    [ValueError] raised by [merge_dataframes], and then some loaded sheet
    has two columns of the same name once its headers are cleaned. *)
Theorem X13_exceptions_of_a_run (so : SetOrder) (clock : nat -> Z)
    (export : DataFrame -> Summary -> Dict.t string -> result unit)
    (files : list Workbook) (e : exn) :
  merge_excel_files so clock export files = Raise e ->
  exists mapping,
    create_column_mapping so (extract_dataframes files) = Ok mapping /\
    ((exists master summary,
         merge_dataframes clock 0 (extract_dataframes files) mapping
         = Ok master /\
         is_empty master = false /\
         export master summary mapping = Raise e) \/
     (merge_dataframes clock 0 (extract_dataframes files) mapping = Raise e /\
      (exists msg, e = ValueError msg) /\
      exists info,
        In info (extract_dataframes files) /\
        ~ NoDup (labels (dataframe info)))).
Proof.
  intros Hr.
  destruct (merge_excel_files_stages so clock export files)
    as [H|(mapping & Hok & [(e' & Hm & H)|(master & Hm & He & _ & H)])];
    [congruence| |].
  - exists mapping. split; [exact Hok|]. right.
    assert (e' = e) by congruence. subst e'. split; [exact Hm|].
    split; [eapply merge_dataframes_raises; eauto|].
    destruct (Forall_Exists_dec
                (fun info => NoDup (labels (dataframe info)))
                (fun info => ListDec.NoDup_dec string_dec
                               (labels (dataframe info)))
                (extract_dataframes files)) as [Hall|Hex].
    + destruct (merge_total clock 0 (extract_dataframes files) mapping Hall)
        as [m Hm'].
      congruence.
    + apply Exists_exists in Hex as (info & Hin & Hnd). eauto.
  - cbv zeta in H. rewrite H in Hr.
    exists mapping. split; [exact Hok|]. left.
    exists master,
      (generate_summary_report
         (clock (List.length (extract_dataframes files))) master
         (extract_dataframes files)).
    split_all; auto.
    destruct (export master _ mapping) as [u|e'];
      simpl in Hr; [discriminate | inversion Hr; reflexivity].
Qed.

End WithLibrary.

(** [export_to_excel] when the output cannot be written. *)
Definition export_fails (_ : DataFrame) (_ : Summary) (_ : Dict.t string)
  : result unit := Raise (ValueError "disk full").

Lemma X13_exceptions_of_a_run_witness :
  exists mapping,
    create_column_mapping nodup_order (extract_dataframes [wb_dup])
    = Ok mapping /\
    ((exists master summary,
         merge_dataframes ticking 0 (extract_dataframes [wb_dup]) mapping
         = Ok master /\
         is_empty master = false /\
         export_ok master summary mapping
         = Raise (ValueError
                    "Cannot set a DataFrame with multiple columns to the single column truck")) \/
     (merge_dataframes ticking 0 (extract_dataframes [wb_dup]) mapping
      = Raise (ValueError
                 "Cannot set a DataFrame with multiple columns to the single column truck") /\
      (exists msg,
          ValueError
            "Cannot set a DataFrame with multiple columns to the single column truck"
          = ValueError msg) /\
      exists info,
        In info (extract_dataframes [wb_dup]) /\
        ~ NoDup (labels (dataframe info)))).
Proof.
  apply (X13_exceptions_of_a_run nodup_order ticking export_ok [wb_dup]
           (ValueError
              "Cannot set a DataFrame with multiple columns to the single column truck")).
  reflexivity.
Defined.

(** The two ways a run raises, on concrete workbooks: the export fails on
    the sheet of [wb_trucks], and the merge fails on the sheet of [wb_dup],
    whose two headers are the same once cleaned. *)
Example a_run_raises :
  forall L : Library,
    merge_excel_files nodup_order ticking export_fails [wb_trucks]
    = Raise (ValueError "disk full") /\
    merge_excel_files nodup_order ticking export_ok [wb_dup]
    = Raise (ValueError
               "Cannot set a DataFrame with multiple columns to the single column truck").
Proof.
  intros L. to_plain L. split; reflexivity.
Qed.

Section WithLibrary.
Context `{L : Library}.

Lemma loaded_row_counts (files : list Workbook) :
  list_sum (map row_count (extract_dataframes files)) =
  list_sum (map (fun info => index_len (dataframe info))
                (extract_dataframes files)).
Proof.
  f_equal. apply map_ext_in. intros info Hinfo.
  now destruct (extract_dataframes_spec files info Hinfo) as (_ & _ & H & _).
Qed.

(** X14: when a run returns a merged table, the summary counts the rows of
    that table, of which there is at least one and no more than were
    loaded; it counts one sheet per loaded table and no more files than
    sheets; and its column count is the number of columns of the table. *)
Theorem X14_summary_counts (so : SetOrder) (clock : nat -> Z)
    (export : DataFrame -> Summary -> Dict.t string -> result unit)
    (files : list Workbook) (master : DataFrame) (summary : Summary) :
  merge_excel_files so clock export files = Ok (Merged master summary) ->
  total_rows_after_merge summary = index_len master /\
  0 < total_rows_after_merge summary /\
  total_rows_after_merge summary <= total_rows_before_merge summary /\
  total_sheets_processed summary = List.length (extract_dataframes files) /\
  0 < total_files_processed summary /\
  total_files_processed summary <= total_sheets_processed summary /\
  unique_columns_found summary = List.length (labels master).
Proof.
  intros Hrun.
  destruct (merge_excel_files_stages so clock export files)
    as [H|(mapping & Hok & [(e' & _ & H)|(m & Hm & He & Hle & H)])];
    [congruence | congruence |].
  cbv zeta in H. rewrite H in Hrun.
  destruct (export m _ mapping) as [u|e'] eqn:Ex; simpl in Hrun;
    [|discriminate].
  inversion Hrun; subst master summary; clear Hrun.
  unfold generate_summary_report. simpl. rewrite He.
  unfold is_empty in He. apply orb_false_iff in He as [_ Hrows].
  apply Nat.eqb_neq in Hrows.
  assert (extract_dataframes files <> []) as Hne.
  { intros E. rewrite E in Hle. simpl in Hle. lia. }
  split_all; auto; try lia.
  - now rewrite loaded_row_counts.
  - destruct (extract_dataframes files) as [|info infos]; [contradiction|].
    assert (In (file_path info)
               (nodup string_dec (map file_path (info :: infos)))) as Hin
        by (apply nodup_In; now left).
    destruct (nodup string_dec (map file_path (info :: infos)));
      [destruct Hin | simpl; lia].
  - rewrite <- (length_map file_path (extract_dataframes files)).
    apply NoDup_incl_length; [apply NoDup_nodup|].
    intros x Hx. now apply nodup_In in Hx.
Qed.

End WithLibrary.

Lemma X14_summary_counts_witness :
  total_rows_after_merge (mkSummary 2 2 3 3 7 1002)
  = index_len MergeClaims.merged_remarks_trucks /\
  0 < total_rows_after_merge (mkSummary 2 2 3 3 7 1002) /\
  total_rows_after_merge (mkSummary 2 2 3 3 7 1002)
  <= total_rows_before_merge (mkSummary 2 2 3 3 7 1002) /\
  total_sheets_processed (mkSummary 2 2 3 3 7 1002)
  = List.length (extract_dataframes [wb_remarks; wb_trucks]) /\
  0 < total_files_processed (mkSummary 2 2 3 3 7 1002) /\
  total_files_processed (mkSummary 2 2 3 3 7 1002)
  <= total_sheets_processed (mkSummary 2 2 3 3 7 1002) /\
  unique_columns_found (mkSummary 2 2 3 3 7 1002)
  = List.length (labels MergeClaims.merged_remarks_trucks).
Proof.
  apply (X14_summary_counts nodup_order ticking export_ok
           [wb_remarks; wb_trucks]).
  reflexivity.
Defined.

Section DictSum.
Variable V : Type.
Variable h : V -> nat.

Definition sumv (d : Dict.t V) : nat := list_sum (map (fun e => h (snd e)) d).

Lemma sumv_set (d : Dict.t V) (k : string) (v : V) :
  sumv (Dict.set d k v)
  + match Dict.get d k with Some old => h old | None => 0 end
  = sumv d + h v.
Proof.
  unfold sumv. induction d as [|[k' v'] d IH]; simpl; [lia|].
  destruct (String.eqb k' k); simpl; lia.
Qed.
End DictSum.

Definition details_step (file_summary : Dict.t (list string * nat))
    (info : DataInfo) : Dict.t (list string * nat) :=
  let filename := path_name (file_path info) in
  let entry :=
    match Dict.get file_summary filename with
    | Some e => e
    | None => ([], 0)
    end in
  Dict.set file_summary filename
           (fst entry ++ [sheet_name info], snd entry + row_count info).

Lemma file_details_fold (infos : list DataInfo) :
  file_details infos = fold_left details_step infos [].
Proof. reflexivity. Qed.

Lemma details_fold_spec (infos : list DataInfo) :
  forall acc,
    Dict.wf acc ->
    let d := fold_left details_step infos acc in
    Dict.wf d /\
    sumv _ snd d = sumv _ snd acc + list_sum (map row_count infos) /\
    sumv _ (fun e => List.length (fst e)) d
    = sumv _ (fun e => List.length (fst e)) acc + List.length infos /\
    forall name,
      In name (Dict.keys d) <->
      In name (Dict.keys acc) \/
      exists info, In info infos /\ path_name (file_path info) = name.
Proof.
  induction infos as [|info infos IH]; intros acc Hwf; simpl.
  - split_all; auto; try lia. intros name. split; [auto|].
    intros [H|(info & [] & _)]. exact H.
  - destruct (IH (details_step acc info)) as (Hwf' & Hrows & Hsheets & Hkeys).
    { now apply wf_set. }
    split; [exact Hwf'|].
    pose proof (sumv_set _ snd acc (path_name (file_path info))) as Hs1.
    pose proof (sumv_set _ (fun e : list string * nat => List.length (fst e))
                         acc (path_name (file_path info))) as Hs2.
    unfold details_step in *.
    destruct (Dict.get acc (path_name (file_path info))) as [[sheets n]|] eqn:E.
    + specialize (Hs1 (sheets ++ [sheet_name info], n + row_count info)).
      specialize (Hs2 (sheets ++ [sheet_name info], n + row_count info)).
      simpl in *. rewrite length_app in Hs2. simpl in Hs2.
      split; [lia|]. split; [lia|].
      intros name. rewrite Hkeys, keys_set, E.
      split; intros [H|(i & Hi & Hn)]; auto.
      * right. exists i. auto.
      * destruct Hi as [<-|Hi]; [|right; eauto].
        left. rewrite <- Hn.
        destruct (in_dec string_dec (path_name (file_path info))
                         (Dict.keys acc)) as [H|H]; [exact H|].
        apply get_none in H. congruence.
    + specialize (Hs1 ([] ++ [sheet_name info], 0 + row_count info)).
      specialize (Hs2 ([] ++ [sheet_name info], 0 + row_count info)).
      simpl in *.
      split; [lia|]. split; [lia|].
      intros name. rewrite Hkeys, keys_set, E, in_app_iff. simpl.
      split.
      * intros [[H|[<-|[]]]|(i & Hi & Hn)]; eauto.
      * intros [H|(i & [<-|Hi] & Hn)]; eauto.
Qed.

(** X15: in the per-file details of the summary, the row totals of the
    files add up to the rows loaded, every loaded sheet is listed exactly
    once over all files, and there is one entry for each base name of a
    loaded file. *)
Theorem X15_file_details_add_up (infos : list DataInfo) :
  list_sum (map (fun e => snd (snd e)) (file_details infos))
  = list_sum (map row_count infos) /\
  list_sum (map (fun e => List.length (fst (snd e))) (file_details infos))
  = List.length infos /\
  NoDup (Dict.keys (file_details infos)) /\
  forall name,
    In name (Dict.keys (file_details infos)) <->
    exists info, In info infos /\ path_name (file_path info) = name.
Proof.
  rewrite file_details_fold.
  destruct (details_fold_spec infos [] (NoDup_nil _))
    as (Hwf & Hrows & Hsheets & Hkeys).
  cbv zeta in *. unfold sumv in *. simpl in *.
  split_all; auto.
  intros name. rewrite Hkeys. split; [|auto].
  intros [[]|H]. exact H.
Qed.

End RunProps.

Module FindProps.
Import Rest.

Lemma ends_with_unfold (suffix s : string) :
  ends_with suffix s =
  if String.eqb suffix s then true
  else match s with
       | EmptyString => false
       | String _ s' => ends_with suffix s'
       end.
Proof. destruct s; reflexivity. Qed.

Lemma ends_with_spec (suffix s : string) :
  ends_with suffix s = true <-> exists pre, s = (pre ++ suffix)%string.
Proof.
  split.
  - induction s as [|c s IH]; simpl.
    + destruct (String.eqb suffix "") eqn:E; [|discriminate].
      apply String.eqb_eq in E. subst. now exists EmptyString.
    + destruct (String.eqb suffix (String c s)) eqn:E.
      * apply String.eqb_eq in E. subst. now exists EmptyString.
      * intros H. destruct (IH H) as [pre ->]. now exists (String c pre).
  - intros [pre ->]. induction pre as [|c pre IH].
    + simpl. now rewrite ends_with_unfold, String.eqb_refl.
    + rewrite ends_with_unfold.
      destruct (String.eqb suffix (String c pre ++ suffix)); [reflexivity|].
      exact IH.
Qed.

(** Two suffixes of one string: one of them is a suffix of the other. *)
Lemma ends_with_nested (a b s : string) :
  ends_with a s = true -> ends_with b s = true ->
  ends_with a b = true \/ ends_with b a = true.
Proof.
  induction s as [|c s IH]; simpl.
  - destruct (String.eqb a "") eqn:Ea; [|discriminate].
    destruct (String.eqb b "") eqn:Eb; [|discriminate].
    apply String.eqb_eq in Ea, Eb. subst. now left.
  - destruct (String.eqb a (String c s)) eqn:Ea.
    + apply String.eqb_eq in Ea. subst a. intros _ Hb. right.
      simpl. exact Hb.
    + destruct (String.eqb b (String c s)) eqn:Eb.
      * apply String.eqb_eq in Eb. subst b. intros Ha _. left.
        simpl. now rewrite Ea.
      * apply IH.
Qed.

Lemma extensions_exclusive (e1 e2 name : string) :
  In e1 excel_extensions -> In e2 excel_extensions -> e1 <> e2 ->
  ends_with e1 name = true -> ends_with e2 name = true -> False.
Proof.
  intros H1 H2 Hne Ha Hb.
  destruct (ends_with_nested e1 e2 name Ha Hb) as [H|H];
    simpl in H1, H2;
    repeat match goal with
           | H : _ \/ _ |- _ => destruct H
           | H : False |- _ => destruct H
           end; subst; try contradiction; discriminate H.
Qed.

Lemma NoDup_filter_bool {A : Type} (p : A -> bool) (l : list A) :
  NoDup l -> NoDup (filter p l).
Proof.
  induction 1 as [|x l Hx Hnd IH]; simpl; [constructor|].
  destruct (p x); [|exact IH].
  constructor; [|exact IH]. intros H. apply filter_In in H. tauto.
Qed.

(** X16: for a named directory [find_excel_files] does not raise; it
    returns exactly the entries of the directory that are files and whose
    name ends in .xlsx, .xls, .xlsm or .xlsb, and returns none of them
    twice. *)
Theorem X16_find_excel_files_finds_the_workbooks
    (listdir : string -> list string) (is_file : string -> bool)
    (input_dir : option string) (d : string) :
  d <> "" ->
  NoDup (listdir d) ->
  exists found,
    find_excel_files listdir is_file input_dir (Some d) = Ok found /\
    NoDup found /\
    forall f,
      In f found <->
      In f (listdir d) /\ is_file f = true /\
      exists ext, In ext excel_extensions /\
                  ends_with ext (path_name f) = true.
Proof.
  intros Hd Hnd. unfold find_excel_files.
  apply String.eqb_neq in Hd. rewrite Hd.
  eexists. split; [reflexivity|]. split.
  - apply NoDup_filter_bool.
    assert (forall exts,
               NoDup exts -> incl exts excel_extensions ->
               NoDup (flat_map
                        (fun ext =>
                           filter (fun f => ends_with ext (path_name f))
                                  (listdir d)) exts)) as H.
    { induction exts as [|e exts IH]; intros Hn Hincl; simpl; [constructor|].
      inversion Hn as [|? ? He Hn']; subst.
      apply NoDup_app.
      - now apply NoDup_filter_bool.
      - apply IH; [exact Hn'|]. intros x Hx. apply Hincl. now right.
      - intros f Hf Hf'. apply filter_In in Hf as [_ Hf].
        apply in_flat_map in Hf' as (e' & He' & Hf').
        apply filter_In in Hf' as [_ Hf'].
        apply (extensions_exclusive e e' (path_name f)); auto.
        + apply Hincl. now left.
        + apply Hincl. now right.
        + intros ->. contradiction. }
    apply H; [|apply incl_refl].
    unfold excel_extensions. repeat constructor; simpl; intuition discriminate.
  - intros f. rewrite filter_In, in_flat_map. split.
    + intros [(ext & Hext & Hf) Hfile]. apply filter_In in Hf as [Hin Hend].
      split; [exact Hin|]. split; [exact Hfile|]. now exists ext.
    + intros (Hin & Hfile & ext & Hext & Hend). split; [|exact Hfile].
      exists ext. split; [exact Hext|]. apply filter_In. now split.
Qed.

Lemma X16_find_excel_files_finds_the_workbooks_witness :
  exists found,
    find_excel_files
      (fun _ => ["in/a.xlsx"; "in/notes.txt"; "in/b.xls"; "in/old.xlsx"])
      (fun f => negb (String.eqb f "in/old.xlsx")) None (Some "in")
    = Ok found /\
    NoDup found /\
    forall f,
      In f found <->
      In f ["in/a.xlsx"; "in/notes.txt"; "in/b.xls"; "in/old.xlsx"] /\
      negb (String.eqb f "in/old.xlsx") = true /\
      exists ext, In ext excel_extensions /\
                  ends_with ext (path_name f) = true.
Proof.
  apply (X16_find_excel_files_finds_the_workbooks
           (fun _ => ["in/a.xlsx"; "in/notes.txt"; "in/b.xls"; "in/old.xlsx"])
           (fun f => negb (String.eqb f "in/old.xlsx")) None "in").
  - discriminate.
  - repeat constructor; simpl; intuition discriminate.
Defined.

End FindProps.

(** * The values a projection copies *)

Module CopyProps.
Import FrameFacts Projection DedupFacts ConcatFacts MergeFacts Scenario.

(** Column [k] of [f] exists and holds the values [s], row by row. *)
Definition col_is (f : DataFrame) (k : string) (s : list cell) : Prop :=
  In k (labels f) /\ column f k = s.

Lemma col_is_getitem (f : DataFrame) (k : string) (s : list cell) :
  wf_frame f -> col_is f k s -> getitem f k = Ok (Series s).
Proof.
  intros [Hnd _] [Hin <-]. now apply getitem_unique.
Qed.

Lemma map_fst_combine {A B : Type} (l : list A) :
  forall l' : list B,
    List.length l = List.length l' -> map fst (combine l l') = l.
Proof.
  induction l as [|x l IH]; intros [|y l'] H; simpl in *;
    try reflexivity; try discriminate.
  f_equal. apply IH. lia.
Qed.

Lemma map_snd_combine {A B : Type} (l : list A) :
  forall l' : list B,
    List.length l = List.length l' -> map snd (combine l l') = l'.
Proof.
  induction l as [|x l IH]; intros [|y l'] H; simpl in *;
    try reflexivity; try discriminate.
  f_equal. apply IH. lia.
Qed.

Lemma col_is_put_other (f : DataFrame) (k' k : string)
    (vals s : list cell) :
  wf_frame f -> k' <> k -> List.length vals = index_len f ->
  col_is f k s -> col_is (put_column f k' vals) k s.
Proof.
  intros [_ Hrows] Hne Hlen [Hin Hs]. split.
  - rewrite labels_put_column. apply in_add_label. now left.
  - unfold column in *. rewrite rows_put_column, map_map.
    transitivity (map (fun rv : row * cell => cell_at f (fst rv) k)
                      (combine (rows f) vals)).
    + apply map_ext_in. intros [r v] Hrv. simpl.
      apply cell_at_upd_other; [congruence|].
      apply in_combine_l in Hrv. rewrite Forall_forall in Hrows.
      now apply Hrows.
    + rewrite <- (map_map fst (fun r => cell_at f r k)).
      rewrite map_fst_combine by (unfold index_len in Hlen; congruence).
      exact Hs.
Qed.

Lemma col_is_put_same (f : DataFrame) (k : string) (vals : list cell) :
  wf_frame f -> List.length vals = index_len f ->
  col_is (put_column f k vals) k vals.
Proof.
  intros [_ Hrows] Hlen. split.
  - rewrite labels_put_column. apply in_add_label. now right.
  - unfold column. rewrite rows_put_column, map_map.
    transitivity (map snd (combine (rows f) vals)).
    + apply map_ext_in. intros [r v] Hrv. simpl.
      apply cell_at_upd_same.
      apply in_combine_l in Hrv. rewrite Forall_forall in Hrows.
      now apply Hrows.
    + apply map_snd_combine. unfold index_len in Hlen. congruence.
Qed.

Lemma ensure_valid_index_same (f : DataFrame) (vals : list cell) :
  List.length vals = index_len f -> ensure_valid_index f vals = f.
Proof.
  intros H. unfold ensure_valid_index. rewrite H.
  destruct (index_len f) as [|n]; reflexivity.
Qed.

Lemma pairs_frame (frames : list DataFrame) (x : DataFrame * row) :
  In x (pairs frames) -> In (fst x) frames.
Proof.
  unfold pairs. intros H. apply in_flat_map in H as (f & Hf & H).
  apply in_map_iff in H as (r & <- & _). exact Hf.
Qed.

Lemma rows_pairs (frames : list DataFrame) :
  flat_map rows frames = map snd (pairs frames).
Proof.
  unfold pairs. induction frames as [|f frames IH]; simpl; [reflexivity|].
  rewrite map_app, map_map, IH. simpl. now rewrite map_id.
Qed.

Section WithLibrary.
Context `{L : Library}.

(** The column of [df] that the loop body copies for the mapping entry
    [std_col -> orig_col]: the one named [orig_col] when there is one,
    else the first column whose canonical key is [std_col]. *)
Definition source_column (df : DataFrame) (std_col orig_col : string)
  : option string :=
  if label_in orig_col df then Some orig_col
  else find (fun df_col => String.eqb (analyze_column (HStr df_col)) std_col)
            (labels df).

Lemma source_column_in (df : DataFrame) (k o c : string) :
  source_column df k o = Some c -> In c (labels df).
Proof.
  unfold source_column. destruct (label_in o df) eqn:E.
  - intros H; inversion H; subst. now apply label_in_iff.
  - intros H. now apply find_some in H as [H _].
Qed.

(** One iteration of the inner loop in terms of [source_column], on a
    table whose labels are pairwise distinct. *)
Lemma project_column_source (df sdf : DataFrame) (k o : string) :
  NoDup (labels df) ->
  project_column df sdf k o =
  match source_column df k o with
  | Some c => Ok (setitem_series sdf k (column df c))
  | None => Ok (setitem_scalar sdf k NaN)
  end.
Proof.
  intros Hnd. unfold source_column, project_column.
  destruct (label_in o df) eqn:Ein.
  - apply label_in_iff in Ein. now rewrite (getitem_unique df o Hnd Ein).
  - destruct (find _ (labels df)) as [c|] eqn:Ef; [|reflexivity].
    apply find_some in Ef as [Hc _]. now rewrite (getitem_unique df c Hnd Hc).
Qed.

Lemma project_column_keeps_col (df sdf sdf' : DataFrame)
    (k' o' k : string) (s : list cell) :
  wf_frame sdf -> index_len sdf = index_len df -> k' <> k ->
  col_is sdf k s ->
  project_column df sdf k' o' = Ok sdf' ->
  wf_frame sdf' /\ index_len sdf' = index_len df /\ col_is sdf' k s.
Proof.
  intros Hwf Hlen Hne Hcol E.
  destruct (project_column_cases df sdf sdf' k' o' E)
    as [(_ & s' & Hs' & ->) | (_ & ->)].
  - unfold setitem_series.
    rewrite ensure_valid_index_same by congruence.
    rewrite Hlen, <- Hs', fit_exact.
    split; [now apply wf_put_column|]. split.
    + rewrite index_len_put_column; congruence.
    + apply col_is_put_other; auto; congruence.
  - split; [now apply wf_setitem_scalar|]. split.
    + now rewrite index_len_setitem_scalar.
    + apply col_is_put_other; auto. apply repeat_length.
Qed.

Lemma project_columns_keep_col (df : DataFrame) (k : string) (s : list cell)
    (mapping : Dict.t string) :
  forall sdf sdf',
    wf_frame sdf -> index_len sdf = index_len df -> col_is sdf k s ->
    ~ In k (Dict.keys mapping) ->
    project_columns df sdf mapping = Ok sdf' ->
    wf_frame sdf' /\ col_is sdf' k s.
Proof.
  induction mapping as [|[k' o'] mapping IH];
    intros sdf sdf' Hwf Hlen Hcol Hk; simpl.
  - intros E; inversion E; subst. now split.
  - destruct (project_column df sdf k' o') as [sdf1|e] eqn:E1; simpl;
      [|discriminate].
    simpl in Hk.
    destruct (project_column_keeps_col df sdf sdf1 k' o' k s)
      as (Hwf1 & Hlen1 & Hcol1); auto.
    apply IH; auto.
Qed.

Lemma project_columns_copy (df : DataFrame) (k o c : string)
    (mapping : Dict.t string) :
  NoDup (labels df) ->
  forall sdf sdf',
    wf_frame sdf ->
    index_len sdf = 0 \/ index_len sdf = index_len df ->
    Dict.wf mapping -> In (k, o) mapping ->
    source_column df k o = Some c ->
    project_columns df sdf mapping = Ok sdf' ->
    wf_frame sdf' /\ col_is sdf' k (column df c).
Proof.
  intros Hdf.
  induction mapping as [|[k' o'] mapping IH];
    intros sdf sdf' Hwf Hlen Hnd Hin Hsrc; simpl; [destruct Hin|].
  inversion Hnd as [|? ? Hk' Hnd']; subst.
  pose proof (length_column df c) as Hls.
  destruct Hin as [E|Hin].
  - inversion E; subst.
    rewrite (project_column_source df sdf k o Hdf), Hsrc. simpl.
    assert (index_len (ensure_valid_index sdf (column df c)) = index_len df)
      as Hi.
    { rewrite index_len_ensure_valid_index, Hls.
      destruct (index_len sdf =? 0)%nat eqn:E0; [reflexivity|].
      apply Nat.eqb_neq in E0. destruct Hlen; [contradiction | assumption]. }
    apply (project_columns_keep_col df k (column df c) mapping
             (setitem_series sdf k (column df c)));
      auto.
    + now apply wf_setitem_series.
    + rewrite index_len_setitem_series, Hls.
      destruct (index_len sdf =? 0)%nat eqn:E0; [reflexivity|].
      apply Nat.eqb_neq in E0. destruct Hlen; [contradiction | assumption].
    + unfold setitem_series. rewrite Hi, <- Hls, fit_exact.
      apply col_is_put_same; [now apply wf_ensure_valid_index | congruence].
  - destruct (project_column df sdf k' o') as [sdf1|e] eqn:E1; simpl;
      [|discriminate].
    destruct (project_column_cases df sdf sdf1 k' o' E1)
      as [(_ & s1 & Hs1 & ->) | (_ & ->)].
    + apply (IH (setitem_series sdf k' s1)); auto.
      * now apply wf_setitem_series.
      * right. rewrite index_len_setitem_series, Hs1.
        destruct (index_len sdf =? 0)%nat eqn:E0; [reflexivity|].
        apply Nat.eqb_neq in E0. destruct Hlen; [contradiction | assumption].
    + apply (IH (setitem_scalar sdf k' NaN)); auto.
      * now apply wf_setitem_scalar.
      * now rewrite index_len_setitem_scalar.
Qed.

(** X17: for a table whose cleaned column names are pairwise distinct, a
    mapping with distinct keys and an entry whose key is no provenance
    label, when the table has a column of the chosen original name, or
    failing that a column whose canonical key is the entry's key (the first
    such column is taken), the projection does not raise and the projected
    column is a series that holds the values of that source column, row by
    row and in order. *)
Theorem X17_projection_copies_the_source_column (now : Z) (info : DataInfo)
    (mapping : Dict.t string) (k o c : string) :
  NoDup (labels (dataframe info)) ->
  Dict.wf mapping ->
  In (k, o) mapping ->
  is_provenance k = false ->
  source_column (dataframe info) k o = Some c ->
  exists sdf,
    project now info mapping = Ok sdf /\
    getitem (dataframe info) c = Ok (Series (column (dataframe info) c)) /\
    getitem sdf k = Ok (Series (column (dataframe info) c)).
Proof.
  intros Hnd Hwf Hin Hprov Hsrc.
  destruct (project_unfold now info mapping Hnd)
    as (f & Hf & _ & _ & _ & _ & Hp).
  pose proof (source_column_in _ _ _ _ Hsrc) as Hc.
  destruct (project_columns_copy (dataframe info) k o c mapping Hnd
              empty_frame f wf_empty_frame (or_introl eq_refl)
              Hwf Hin Hsrc Hf) as [Hwff Hcol].
  eexists. split; [exact Hp|]. split; [now apply getitem_unique|].
  apply col_is_getitem; [now repeat apply wf_setitem_scalar|].
  assert (forall p, In p provenance_columns -> p <> k) as Hne.
  { intros p Hp' ->. apply is_provenance_iff in Hp'. congruence. }
  repeat apply col_is_put_other;
    repeat apply wf_setitem_scalar; auto;
    try apply repeat_length; apply Hne; simpl; auto.
Qed.

End WithLibrary.

Lemma X17_projection_copies_the_source_column_witness :
  exists sdf,
    project 0 (info_of wb_vehicles)
            [("truck", "Truck#"); ("location", "GPS Location");
             ("status", "Status")] = Ok sdf /\
    getitem (dataframe (info_of wb_vehicles)) "position"
    = Ok (Series (column (dataframe (info_of wb_vehicles)) "position")) /\
    getitem sdf "location"
    = Ok (Series (column (dataframe (info_of wb_vehicles)) "position")).
Proof.
  apply (X17_projection_copies_the_source_column 0 (info_of wb_vehicles)
           [("truck", "Truck#"); ("location", "GPS Location");
            ("status", "Status")] "location" "GPS Location" "position").
  - distinct_labels.
  - repeat constructor; simpl; intuition discriminate.
  - simpl; auto.
  - reflexivity.
  - reflexivity.
Defined.

(** Column [l] holds neither a number nor a boolean in any of the
    frames. *)
Definition column_plain (frames : list DataFrame) (l : string) : bool :=
  forallb (forallb is_plain) (pieces frames l).

Section WithLibrary.
Context `{L : Library}.

(** A cell of the stack under a column that [unify] leaves as it is: the
    cell of the row stacked at that position. *)
Lemma stacked_cell_at (frames : list DataFrame) (l : string) (i : nat)
    (r : row) :
  In l (union_labels frames) ->
  unify (pieces frames l) = List.concat (pieces frames l) ->
  nth_error (rows (concat frames)) i = Some r ->
  exists x,
    nth_error (pairs frames) i = Some x /\
    cell_at (concat frames) r l = cell_at (fst x) (snd x) l.
Proof.
  intros Hin Hid Hr. destruct (row_concat frames i r Hr) as [Hi ->].
  rewrite (cell_at_concat frames i l Hin), Hid, concat_pieces.
  rewrite <- length_pairs in Hi.
  destruct (nth_error (pairs frames) i) as [x|] eqn:Ex;
    [|apply nth_error_None in Ex; lia].
  exists x. split; [reflexivity|].
  apply nth_error_nth. now rewrite nth_error_map, Ex.
Qed.

(** X18: when the cleaned column names of every table are pairwise
    distinct and there is at least one table, the table handed to duplicate
    removal has one row for each row of the projected tables, taken one
    table after the other in load order, each table's rows in their own
    order; the j-th projected table is the projection of the j-th table at
    the j-th clock reading.  The row at a position has, under the
    provenance labels and under every label whose column holds neither
    numbers nor booleans, the cells of the projected row at that position;
    when no projected cell is a number or a boolean it is that row. *)
Theorem X18_rows_are_stacked_in_load_order (clock : nat -> Z) (tick : nat)
    (infos : list DataInfo) (mapping : Dict.t string) :
  Forall (fun info => NoDup (labels (dataframe info))) infos ->
  infos <> [] ->
  exists frames pre,
    project_all clock tick infos mapping = Ok frames /\
    concat_projected clock tick infos mapping = Ok (Some pre) /\
    List.length frames = List.length infos /\
    (forall j info,
        nth_error infos j = Some info ->
        exists f, nth_error frames j = Some f /\
                  project (clock (tick + j)) info mapping = Ok f) /\
    List.length (rows pre) = List.length (flat_map rows frames) /\
    (forall i r r0 l,
        nth_error (rows pre) i = Some r ->
        nth_error (flat_map rows frames) i = Some r0 ->
        In l (labels pre) ->
        is_provenance l = true \/ column_plain frames l = true ->
        cell_at pre r l = cell_at pre r0 l) /\
    (Plain.frames_plain frames = true -> rows pre = flat_map rows frames).
Proof.
  intros Hnd Hne.
  destruct (project_all_total clock mapping infos Hnd tick) as [frames Hok].
  destruct (project_all_inv clock mapping infos tick frames Hok) as [Hlen Hnth].
  destruct frames as [|f frames];
    [destruct infos; [contradiction | discriminate]|].
  pose proof (labels_concat_projected _ _ _ _ _ _ Hok) as Hl.
  pose proof (project_all_frames _ _ _ _ _ Hok) as Hfr.
  assert (forall l, is_provenance l = true \/ column_plain (f :: frames) l = true ->
            unify (pieces (f :: frames) l)
            = List.concat (pieces (f :: frames) l)) as Hid.
  { intros l [Hp|Hp]; [eapply provenance_unify; eauto | now apply unify_plain]. }
  exists (f :: frames), (concat (f :: frames)).
  split; [exact Hok|]. split.
  { unfold concat_projected. now rewrite Hok. }
  split; [exact Hlen|]. split; [exact Hnth|]. split.
  { change (List.length (rows (concat (f :: frames))))
      with (index_len (concat (f :: frames))).
    now rewrite index_len_concat, rows_pairs, length_map, length_pairs. }
  split.
  - intros i r r0 l Hr Hr0 Hin Hcol.
    destruct (stacked_cell_at (f :: frames) l i r) as (x & Hx & ->);
      [exact Hin | now apply Hid | exact Hr |].
    rewrite rows_pairs, nth_error_map, Hx in Hr0. inversion Hr0; subst r0.
    apply cell_at_labels.
    destruct (Hfr (fst x)) as [_ ->]; [|now symmetry].
    apply pairs_frame. eapply nth_error_In; eauto.
  - intros Hplain.
    apply (concat_same_labels (projected_labels mapping) f frames Hfr).
    intros l _. apply unify_plain.
    apply forallb_forall. intros piece Hp.
    apply in_map_iff in Hp as (g & <- & Hg).
    apply forallb_forall. intros c Hc.
    apply in_map_iff in Hc as (r & <- & Hr).
    apply Plain.is_plain_cell_at.
    unfold Plain.frames_plain in Hplain. rewrite forallb_forall in Hplain.
    specialize (Hplain g Hg). rewrite forallb_forall in Hplain. now apply Hplain.
Qed.

End WithLibrary.

Lemma X18_rows_are_stacked_in_load_order_witness :
  exists frames pre,
    project_all ticking 0 (extract_dataframes [wb_remarks; wb_trucks])
                [("remarks", "remarks"); ("truck", "Truck")] = Ok frames /\
    concat_projected ticking 0 (extract_dataframes [wb_remarks; wb_trucks])
      [("remarks", "remarks"); ("truck", "Truck")] = Ok (Some pre) /\
    List.length frames
    = List.length (extract_dataframes [wb_remarks; wb_trucks]) /\
    (forall j info,
        nth_error (extract_dataframes [wb_remarks; wb_trucks]) j = Some info ->
        exists f, nth_error frames j = Some f /\
                  project (ticking (0 + j)) info
                          [("remarks", "remarks"); ("truck", "Truck")] = Ok f) /\
    List.length (rows pre) = List.length (flat_map rows frames) /\
    (forall i r r0 l,
        nth_error (rows pre) i = Some r ->
        nth_error (flat_map rows frames) i = Some r0 ->
        In l (labels pre) ->
        is_provenance l = true \/ column_plain frames l = true ->
        cell_at pre r l = cell_at pre r0 l) /\
    (Plain.frames_plain frames = true -> rows pre = flat_map rows frames).
Proof.
  apply (X18_rows_are_stacked_in_load_order ticking 0
           (extract_dataframes [wb_remarks; wb_trucks])
           [("remarks", "remarks"); ("truck", "Truck")]).
  - distinct_labels.
  - discriminate.
Defined.

End CopyProps.
